(** * deepseek-messenger: the message pipeline, its store and its completion client

    A shallow embedding of [backend/storage/db.py], [backend/storage/models.py],
    [backend/core/deepseek_client.py], [backend/core/chat_manager.py] and the
    [/api/chat] route of [backend/api/routes.py].

    Conventions of the embedding.
    - A Python [str] is a [string]; one [ascii] stands for one character.
    - A Python [int] is a [Z]; ids, limits and offsets are taken within the
      64-bit range SQLite binds.
    - A [datetime] is an integer number of clock ticks ([Z]); the ISO text
      SQLite stores compares the same way.
    - A Python [float] is [pyfloat]: a finite double is the rational it
      denotes, next to the two infinities and NaN.
    - An [async def] is a computation in the monad [M]: it threads the
      [World] (database file, open transaction, counters of clock reads,
      storage operations and upstream requests, sleeps) and either returns a
      value or raises an exception.
    - What the environment decides is read from an [Env]: the clock, the
      storage faults, the answers of the upstream API. *)

From Stdlib Require Import ZArith List String Ascii Bool Lia QArith.
From Stdlib Require Import Sorted Permutation.
Import ListNotations.

Open Scope string_scope.
Open Scope Z_scope.
Open Scope list_scope.

(** ** Values *)

(** Python floats: the value of a finite double, the infinities, NaN. *)
Inductive pyfloat : Type :=
| Finite (q : Q)
| PosInf
| NegInf
| NaN.

(** [a <= b] on floats; every comparison with NaN is false. *)
Definition float_le (a b : pyfloat) : bool :=
  match a, b with
  | NaN, _ | _, NaN => false
  | NegInf, _ => true
  | _, PosInf => true
  | Finite x, Finite y => Qle_bool x y
  | PosInf, _ => false
  | _, NegInf => false
  end.

(** [a < b] on floats. *)
Definition float_lt (a b : pyfloat) : bool :=
  match a, b with
  | NaN, _ | _, NaN => false
  | Finite x, Finite y => negb (Qle_bool y x)
  | NegInf, NegInf => false
  | NegInf, _ => true
  | PosInf, _ => false
  | Finite _, PosInf => true
  | Finite _, NegInf => false
  end.

Definition float_0_0 : pyfloat := Finite (0 # 1).
Definition float_1_0 : pyfloat := Finite (1 # 1).
(** The doubles nearest to 0.7 and 0.1. *)
Definition float_0_7 : pyfloat := Finite (3152519739159347 # 4503599627370496).
Definition float_0_1 : pyfloat := Finite (3602879701896397 # 36028797018963968).

(** Exceptions that cross the functions of the pipeline. *)
Inductive exn : Type :=
| OperationalError (msg : string)   (* sqlite3: storage unreachable or failing *)
| IntegrityError (msg : string)     (* sqlite3: a constraint of the schema *)
| ValidationError (msg : string)    (* pydantic *)
| APITimeoutError                   (* openai: subclass of APIConnectionError *)
| APIConnectionError                (* openai *)
| APIStatusError (code : Z)         (* openai: any other APIError *)
| TypeError (msg : string)
| IndexError (msg : string)
| ValueError (msg : string)
| RetryError (last_attempt : exn).  (* tenacity *)

(** [str(e)], the error description handed to the boundary. *)
Fixpoint str (e : exn) : string :=
  match e with
  | OperationalError m | IntegrityError m | ValidationError m
  | TypeError m | IndexError m | ValueError m => m
  | APITimeoutError => "Request timed out."
  | APIConnectionError => "Connection error."
  | APIStatusError _ => "Error code"
  | RetryError e' => String.append "RetryError[" (String.append (str e') "]")
  end.

(** [len(s)]. *)
Definition len (s : string) : Z := Z.of_nat (String.length s).

(** ** models.py *)

(** A row of table [chats]. *)
Record ChatRow : Type := mkChatRow {
  c_id : Z;
  c_user_id : option string;
  c_title : string;
  c_created_at : Z;
  c_updated_at : Z
}.

(** A row of table [messages]. *)
Record MessageRow : Type := mkMessageRow {
  m_id : Z;
  m_chat_id : Z;
  m_role : string;
  m_content : string;
  m_timestamp : Z
}.

(** [class Message(BaseModel)]. *)
Record Message : Type := mkMessage {
  id : option Z;
  chat_id : option Z;
  role : string;
  content : string;
  timestamp : Z
}.

(** [class Chat(BaseModel)]. *)
Record Chat : Type := mkChat {
  chat_ident : option Z;
  user_id : option string;
  title : string;
  created_at : Z;
  updated_at : Z;
  messages : list Message
}.

(** [class ChatRequest(BaseModel)], after validation. *)
Record ChatRequest : Type := mkChatRequest {
  req_message : string;
  req_chat_id : option Z;
  req_temperature : pyfloat;
  req_system_prompt : option string
}.

(** The JSON body of [POST /api/chat] before validation; [None] is an
    absent field. *)
Record ChatRequestBody : Type := mkBody {
  body_message : option string;
  body_chat_id : option Z;
  body_temperature : option pyfloat;
  body_system_prompt : option string
}.

(** ** The database file *)

(** The two tables in rowid order, and the AUTOINCREMENT high-water marks
    SQLite keeps in [sqlite_sequence]. *)
Record DB : Type := mkDB {
  chats : list ChatRow;
  msgs : list MessageRow;
  seq_chats : Z;
  seq_messages : Z
}.

Definition empty_db : DB := mkDB [] [] 0 0.

(** A connection. SQLite enforces FOREIGN KEY clauses (and so ON DELETE
    CASCADE) only on a connection that has run [PRAGMA foreign_keys = ON]. *)
Record Connection : Type := mkConnection {
  foreign_keys : bool
}.

(** ** The world and the environment *)

Record World : Type := mkWorld {
  db : DB;            (* committed content of the database file *)
  pending : DB;       (* what the open connection sees, uncommitted writes included *)
  reads : nat;        (* clock reads so far *)
  sops : nat;         (* storage operations so far: connect, execute, commit *)
  reqs : nat;         (* requests sent to the upstream API so far *)
  sleeps : list Z     (* back-off sleeps so far, oldest first *)
}.

Definition world_of (d : DB) : World := mkWorld d d 0 0 0 [].

(** One entry of the list sent upstream: a role and a content. *)
Record api_message : Type := mkApi {
  api_role : string;
  api_content : string
}.

(** What [chat.completions.create] is called with. *)
Record completion_request : Type := mkCompletionRequest {
  cr_model : string;
  cr_messages : list api_message;
  cr_temperature : pyfloat;
  cr_max_tokens : option Z
}.

(** A [ChatCompletion]: the [message.content] of each choice, which the API
    may leave null. *)
Record ChatCompletion : Type := mkCompletion {
  choices : list (option string)
}.

(** What the upstream does with a request. *)
Inductive upstream_outcome : Type :=
| Responds (r : ChatCompletion)
| Fails (e : exn).

Record Env : Type := mkEnv {
  now_at : nat -> Z;                       (* the n-th reading of datetime.now() *)
  storage_fault : nat -> option exn;       (* does the n-th storage operation fail *)
  upstream : nat -> completion_request -> upstream_outcome
}.

(** ** The monad of [async def] bodies *)

Inductive Result (A : Type) : Type :=
| Ok (a : A)
| Raise (e : exn).
Arguments Ok {A} a.
Arguments Raise {A} e.

Definition M (A : Type) : Type := World -> Result A * World.

Definition ret {A} (a : A) : M A := fun w => (Ok a, w).

Definition raise {A} (e : exn) : M A := fun w => (Raise e, w).

Definition bind {A B} (c : M A) (k : A -> M B) : M B :=
  fun w => match c w with
           | (Ok a, w1) => k a w1
           | (Raise e, w1) => (Raise e, w1)
           end.

(** [try: body / except Exception as e: handler e]. *)
Definition try_except {A} (body : M A) (handler : exn -> M A) : M A :=
  fun w => match body w with
           | (Ok a, w1) => (Ok a, w1)
           | (Raise e, w1) => handler e w1
           end.

Notation "x <- c ;; k" := (bind c (fun x => k))
  (at level 61, c at next level, right associativity).
Notation "c ;;; k" := (bind c (fun _ => k))
  (at level 61, right associativity).

(** Sequencing a list of fallible constructions (a list comprehension whose
    element expression can raise). *)
Fixpoint traverse {A B} (f : A -> Result B) (l : list A) : Result (list B) :=
  match l with
  | [] => Ok []
  | x :: l' =>
      match f x with
      | Raise e => Raise e
      | Ok y => match traverse f l' with
                | Raise e => Raise e
                | Ok ys => Ok (y :: ys)
                end
      end
  end.

Definition lift {A} (r : Result A) : M A := fun w => (r, w).

(** ** models.py: the constraints pydantic checks on construction *)

(** [pattern="^(user|assistant)$"]. *)
Definition role_ok (r : string) : bool :=
  String.eqb r "user" || String.eqb r "assistant".

(** [Message(id=.., chat_id=.., role=.., content=.., timestamp=..)]:
    [role] must match the pattern, [content] must be a string of at least
    one character. *)
Definition Message_new (i c : option Z) (r : string) (body : option string)
    (t : Z) : Result Message :=
  if negb (role_ok r) then
    Raise (ValidationError "role: String should match pattern '^(user|assistant)$'")
  else
    match body with
    | None => Raise (ValidationError "content: Input should be a valid string")
    | Some s =>
        if len s <? 1 then
          Raise (ValidationError "content: String should have at least 1 character")
        else Ok (mkMessage i c r s t)
    end.

(** The [Message(...)] expression of [get_chat] and [get_last_n_messages],
    applied to one fetched row. *)
Definition Message_of_row (row : MessageRow) : Result Message :=
  Message_new (Some (m_id row)) (Some (m_chat_id row)) (m_role row)
    (Some (m_content row)) (m_timestamp row).

(** [ChatRequest]: [message] is required, of 1 to 10000 characters;
    [temperature] defaults to 0.7 and lies in [0.0, 1.0]. *)
Definition ChatRequest_validate (b : ChatRequestBody) : Result ChatRequest :=
  match body_message b with
  | None => Raise (ValidationError "message: Field required")
  | Some m =>
      if len m <? 1 then
        Raise (ValidationError "message: String should have at least 1 character")
      else if 10000 <? len m then
        Raise (ValidationError "message: String should have at most 10000 characters")
      else
        let t := match body_temperature b with
                 | None => float_0_7
                 | Some t => t
                 end in
        if negb (float_le float_0_0 t) then
          Raise (ValidationError "temperature: Input should be greater than or equal to 0")
        else if negb (float_le t float_1_0) then
          Raise (ValidationError "temperature: Input should be less than or equal to 1")
        else Ok (mkChatRequest m (body_chat_id b) t (body_system_prompt b))
  end.

(** ** The SQL statements of db.py, as functions of the content a
    connection sees *)

Definition max_rowid (ids : list Z) : Z := fold_right Z.max 0 ids.

(** AUTOINCREMENT: one more than the largest rowid the table ever held. *)
Definition next_rowid (seq : Z) (ids : list Z) : Z :=
  Z.max seq (max_rowid ids) + 1.

(** ORDER BY: the sorter keeps rows with equal keys in the order the scan
    produced them, ascending and descending alike. *)
Fixpoint insert_by {A} (before : A -> A -> bool) (x : A) (l : list A) : list A :=
  match l with
  | [] => [x]
  | y :: l' => if before x y then x :: l else y :: insert_by before x l'
  end.

Definition order_by {A} (before : A -> A -> bool) (l : list A) : list A :=
  fold_right (insert_by before) [] l.

Definition asc {A} (key : A -> Z) (x y : A) : bool := key x <=? key y.
Definition desc {A} (key : A -> Z) (x y : A) : bool := key y <=? key x.

(** LIMIT and OFFSET; a negative LIMIT is no limit, a negative OFFSET is 0. *)
Definition sql_limit {A} (n : Z) (l : list A) : list A :=
  if n <? 0 then l else firstn (Z.to_nat n) l.

Definition sql_offset {A} (k : Z) (l : list A) : list A :=
  if k <? 0 then l else skipn (Z.to_nat k) l.

Definition chat_exists (d : DB) (cid : Z) : bool :=
  existsb (fun c => c_id c =? cid) (chats d).

(** [INSERT INTO chats (user_id, title, created_at, updated_at) VALUES ..];
    the value is [cursor.lastrowid]. *)
Definition sql_insert_chat (uid : option string) (ttl : string)
    (created updated : Z) (d : DB) : Result (Z * DB) :=
  let i := next_rowid (seq_chats d) (map c_id (chats d)) in
  Ok (i, mkDB (chats d ++ [mkChatRow i uid ttl created updated]) (msgs d)
              i (seq_messages d)).

(** [INSERT INTO messages (chat_id, role, content, timestamp) VALUES ..];
    [content] is TEXT NOT NULL; the FOREIGN KEY on [chat_id] is checked only
    when the connection enforces foreign keys. *)
Definition sql_insert_message (conn : Connection) (cid : Z) (r : string)
    (body : option string) (t : Z) (d : DB) : Result (Z * DB) :=
  match body with
  | None => Raise (IntegrityError "NOT NULL constraint failed: messages.content")
  | Some s =>
      if foreign_keys conn && negb (chat_exists d cid) then
        Raise (IntegrityError "FOREIGN KEY constraint failed")
      else
        let i := next_rowid (seq_messages d) (map m_id (msgs d)) in
        Ok (i, mkDB (chats d) (msgs d ++ [mkMessageRow i cid r s t])
                    (seq_chats d) i)
  end.

Definition touch (t cid : Z) (c : ChatRow) : ChatRow :=
  if c_id c =? cid
  then mkChatRow (c_id c) (c_user_id c) (c_title c) (c_created_at c) t
  else c.

(** [UPDATE chats SET updated_at = ? WHERE id = ?]. *)
Definition sql_touch_chat (t cid : Z) (d : DB) : Result (unit * DB) :=
  Ok (tt, mkDB (map (touch t cid) (chats d)) (msgs d)
               (seq_chats d) (seq_messages d)).

(** [DELETE FROM chats WHERE id = ?]; the value is [cursor.rowcount]. The
    rows of [messages] that reference the chat go with it (ON DELETE
    CASCADE) only when the connection enforces foreign keys. *)
Definition sql_delete_chat (conn : Connection) (cid : Z) (d : DB)
    : Result (Z * DB) :=
  let gone := filter (fun c => c_id c =? cid) (chats d) in
  let kept := filter (fun c => negb (c_id c =? cid)) (chats d) in
  let ms := if foreign_keys conn
            then filter (fun m => negb (m_chat_id m =? cid)) (msgs d)
            else msgs d in
  Ok (Z.of_nat (List.length gone), mkDB kept ms (seq_chats d) (seq_messages d)).

(** [SELECT id, user_id, title, created_at, updated_at FROM chats WHERE id = ?]
    followed by [fetchone()]. *)
Definition sql_select_chat (cid : Z) (d : DB) : Result (option ChatRow * DB) :=
  Ok (find (fun c => c_id c =? cid) (chats d), d).

Definition rows_of_chat (cid : Z) (d : DB) : list MessageRow :=
  filter (fun m => m_chat_id m =? cid) (msgs d).

(** [SELECT .. FROM messages WHERE chat_id = ? ORDER BY timestamp ASC]. *)
Definition sql_select_messages_asc (cid : Z) (d : DB)
    : Result (list MessageRow * DB) :=
  Ok (order_by (asc m_timestamp) (rows_of_chat cid d), d).

(** [SELECT .. FROM messages WHERE chat_id = ? ORDER BY timestamp DESC LIMIT ?]. *)
Definition sql_select_messages_desc (cid n : Z) (d : DB)
    : Result (list MessageRow * DB) :=
  Ok (sql_limit n (order_by (desc m_timestamp) (rows_of_chat cid d)), d).

(** One row of the chat list: the chat and [COUNT(m.id)]. *)
Record ChatSummary : Type := mkSummary {
  s_id : Z;
  s_user_id : option string;
  s_title : string;
  s_created_at : Z;
  s_updated_at : Z;
  s_message_count : Z
}.

Definition summary_of (d : DB) (c : ChatRow) : ChatSummary :=
  mkSummary (c_id c) (c_user_id c) (c_title c) (c_created_at c) (c_updated_at c)
    (Z.of_nat (List.length (rows_of_chat (c_id c) d))).

Definition owned_by (u : string) (c : ChatRow) : bool :=
  match c_user_id c with
  | Some v => String.eqb v u
  | None => false
  end.

(** [SELECT c.*, COUNT(m.id) FROM chats c LEFT JOIN messages m ON c.id = m.chat_id
     [WHERE c.user_id = ?] GROUP BY c.id ORDER BY c.updated_at DESC LIMIT ? OFFSET ?];
    [where_user] is the parameter of the WHERE clause when the clause is there. *)
Definition sql_select_chats (where_user : option string) (lim off : Z) (d : DB)
    : Result (list ChatSummary * DB) :=
  let selected := match where_user with
                  | Some u => filter (owned_by u) (chats d)
                  | None => chats d
                  end in
  Ok (sql_limit lim (sql_offset off
        (order_by (desc s_updated_at) (map (summary_of d) selected))), d).

(** [CREATE TABLE IF NOT EXISTS] and [CREATE INDEX IF NOT EXISTS] on a file
    that has the layout already. *)
Definition sql_create_if_not_exists (d : DB) : Result (unit * DB) := Ok (tt, d).

(** ** Effects *)

Definition set_db (d : DB) (w : World) : World :=
  mkWorld d (pending w) (reads w) (sops w) (reqs w) (sleeps w).

Definition set_pending (d : DB) (w : World) : World :=
  mkWorld (db w) d (reads w) (sops w) (reqs w) (sleeps w).

Definition tick_reads (w : World) : World :=
  mkWorld (db w) (pending w) (S (reads w)) (sops w) (reqs w) (sleeps w).

Definition tick_sops (w : World) : World :=
  mkWorld (db w) (pending w) (reads w) (S (sops w)) (reqs w) (sleeps w).

Definition tick_reqs (w : World) : World :=
  mkWorld (db w) (pending w) (reads w) (sops w) (S (reqs w)) (sleeps w).

Definition log_sleep (d : Z) (w : World) : World :=
  mkWorld (db w) (pending w) (reads w) (sops w) (reqs w) (sleeps w ++ [d]).

Section Effects.
Variable env : Env.

(** [datetime.now()]. *)
Definition datetime_now : M Z :=
  fun w => (Ok (now_at env (reads w)), tick_reads w).

(** Any operation on the database file can fail when the storage does. *)
Definition storage_op : M unit :=
  fun w => match storage_fault env (sops w) with
           | Some e => (Raise e, tick_sops w)
           | None => (Ok tt, tick_sops w)
           end.

(** [aiosqlite.connect(self.db_path)]: a fresh connection on the committed
    content of the file. db.py issues no PRAGMA on it, so foreign keys stay
    at SQLite's default, not enforced. *)
Definition connect : M Connection :=
  storage_op ;;;
  fun w => (Ok (mkConnection false), set_pending (db w) w).

(** [await db.execute(sql, params)]: the statement runs inside the
    transaction the connection has open. *)
Definition execute {A} (stmt : DB -> Result (A * DB)) : M A :=
  storage_op ;;;
  fun w => match stmt (pending w) with
           | Ok (a, d) => (Ok a, set_pending d w)
           | Raise e => (Raise e, w)
           end.

(** [await db.commit()]. *)
Definition commit : M unit :=
  storage_op ;;;
  fun w => (Ok tt, set_db (pending w) w).

(** [async with aiosqlite.connect(..) as conn: body]: leaving the block, by
    return or by exception, closes the connection, and what was not
    committed is rolled back. *)
Definition with_connection {A} (body : Connection -> M A) : M A :=
  fun w => match connect w with
           | (Raise e, w1) => (Raise e, w1)
           | (Ok conn, w1) =>
               let '(r, w2) := body conn w1 in (r, set_pending (db w2) w2)
           end.

(** [await asyncio.sleep(d)] between two attempts. *)
Definition sleep (d : Z) : M unit := fun w => (Ok tt, log_sleep d w).
End Effects.

(** ** db.py *)

Module Database.
Section WithEnv.
Variable env : Env.

Definition init_db : M unit :=
  with_connection env (fun conn =>
    execute env sql_create_if_not_exists ;;;   (* table chats *)
    execute env sql_create_if_not_exists ;;;   (* table messages *)
    execute env sql_create_if_not_exists ;;;   (* idx_messages_chat_id *)
    execute env sql_create_if_not_exists ;;;   (* idx_messages_timestamp *)
    execute env sql_create_if_not_exists ;;;   (* idx_chats_updated *)
    commit env).

Definition create_chat (user_id : option string) (title : string) : M Z :=
  now <- datetime_now env ;;
  with_connection env (fun conn =>
    lastrowid <- execute env (sql_insert_chat user_id title now now) ;;
    commit env ;;;
    ret lastrowid).

Definition save_message (chat_id : Z) (role : string) (content : option string)
    : M Z :=
  now <- datetime_now env ;;
  with_connection env (fun conn =>
    lastrowid <- execute env (sql_insert_message conn chat_id role content now) ;;
    execute env (sql_touch_chat now chat_id) ;;;
    commit env ;;;
    ret lastrowid).

Definition get_chat (chat_id : Z) : M (option Chat) :=
  with_connection env (fun conn =>
    chat_row <- execute env (sql_select_chat chat_id) ;;
    match chat_row with
    | None => ret None
    | Some row =>
        message_rows <- execute env (sql_select_messages_asc chat_id) ;;
        messages <- lift (traverse Message_of_row message_rows) ;;
        ret (Some (mkChat (Some (c_id row)) (c_user_id row) (c_title row)
                          (c_created_at row) (c_updated_at row) messages))
    end).

(** [if user_id:] is false for [None] and for the empty string. *)
Definition get_chats_list (limit offset : Z) (user_id : option string)
    : M (list ChatSummary) :=
  with_connection env (fun conn =>
    let where_user :=
      match user_id with
      | Some u => if String.eqb u "" then None else Some u
      | None => None
      end in
    execute env (sql_select_chats where_user limit offset)).

Definition delete_chat (chat_id : Z) : M bool :=
  with_connection env (fun conn =>
    rowcount <- execute env (sql_delete_chat conn chat_id) ;;
    commit env ;;;
    let deleted := 0 <? rowcount in
    ret deleted).

Definition get_last_n_messages (chat_id n : Z) : M (list Message) :=
  with_connection env (fun conn =>
    rows <- execute env (sql_select_messages_desc chat_id n) ;;
    lift (traverse Message_of_row (rev rows))).
End WithEnv.
End Database.

(** ** tenacity, as deepseek_client.py configures it *)

Module tenacity.
(** [wait_exponential(multiplier, min, max)] after attempt [attempt_number]:
    [multiplier * 2 ** (attempt_number - 1)], clamped between [min] and [max]. *)
Definition wait_exponential (multiplier min max attempt_number : Z) : Z :=
  Z.max (Z.max 0 min) (Z.min (multiplier * 2 ^ (attempt_number - 1)) max).

(** [retry_if_exception_type((openai.APITimeoutError, openai.APIConnectionError))]. *)
Definition retry_if_exception_type (e : exn) : bool :=
  match e with
  | APITimeoutError | APIConnectionError => true
  | _ => false
  end.

(** The loop of [@retry(stop=stop_after_attempt(n), wait=.., retry=..)]
    around a coroutine, entered at attempt [attempt_number] with
    [remaining = n - attempt_number] attempts left after this one. A result
    is returned; an exception the predicate refuses is raised as it is; one
    it accepts is retried after the wait, until the stop fires, and then
    (no [reraise=True]) a [RetryError] holding the last attempt is raised. *)
Fixpoint attempts {A} (wait : Z -> Z) (retry_on : exn -> bool)
    (remaining : nat) (attempt_number : Z) (fn : M A) : M A :=
  fun w =>
    match fn w with
    | (Ok a, w1) => (Ok a, w1)
    | (Raise e, w1) =>
        if negb (retry_on e) then (Raise e, w1)
        else
          match remaining with
          | O => (Raise (RetryError e), w1)
          | S remaining' =>
              (sleep (wait attempt_number) ;;;
               attempts wait retry_on remaining' (attempt_number + 1) fn) w1
          end
    end.

Definition retry {A} (stop_after_attempt : nat) (wait : Z -> Z)
    (retry_on : exn -> bool) (fn : M A) : M A :=
  attempts wait retry_on (stop_after_attempt - 1) 1 fn.
End tenacity.

(** ** The openai package, as deepseek_client.py uses it *)

(** The two clients of the package. [OpenAI] is the blocking one: its
    [chat.completions.create] sends the request and returns the
    [ChatCompletion] itself; that of [AsyncOpenAI] returns a coroutine. *)
Inductive OpenAIClient : Type :=
| OpenAI (api_key base_url : string)
| AsyncOpenAI (api_key base_url : string).

Section Upstream.
Variable env : Env.

(** [await client.chat.completions.create(..)]. The request is sent and the
    upstream answers or fails; awaiting what the blocking client returned
    is a [TypeError]. *)
Definition await_create (client : OpenAIClient) (request : completion_request)
    : M ChatCompletion :=
  fun w =>
    match upstream env (reqs w) request with
    | Fails e => (Raise e, tick_reqs w)
    | Responds r =>
        match client with
        | AsyncOpenAI _ _ => (Ok r, tick_reqs w)
        | OpenAI _ _ =>
            (Raise (TypeError "object ChatCompletion can't be used in 'await' expression"),
             tick_reqs w)
        end
    end.
End Upstream.

(** ** deepseek_client.py *)

Module DeepSeekClient.
Record t : Type := mk {
  client : OpenAIClient;
  model : string
}.

(** [__init__]. *)
Definition init (api_key base_url : string) : t :=
  mk (OpenAI api_key base_url) "deepseek-chat".

Section WithEnv.
Variable env : Env.

(** The body of [chat_completion], one attempt. Both [except] clauses log
    and re-raise. [if system_prompt:] is false for [None] and for the empty
    string. *)
Definition chat_completion_once (self : t) (messages : list api_message)
    (temperature : pyfloat) (system_prompt : option string)
    : M (option string) :=
  try_except
    (let api_messages :=
       match system_prompt with
       | Some p => if String.eqb p "" then [] else [mkApi "system" p]
       | None => []
       end ++ messages in
     response <- await_create env (client self)
                   (mkCompletionRequest (model self) api_messages temperature None) ;;
     match choices response with
     | [] => raise (IndexError "list index out of range")
     | choice :: _ => ret choice
     end)
    (fun e => raise e).

(** [chat_completion] under its [@retry] decorator:
    [stop_after_attempt(3)], [wait_exponential(multiplier=1, min=2, max=10)],
    [retry_if_exception_type((APITimeoutError, APIConnectionError))]. *)
Definition chat_completion (self : t) (messages : list api_message)
    (temperature : pyfloat) (system_prompt : option string)
    : M (option string) :=
  tenacity.retry 3 (tenacity.wait_exponential 1 2 10)
    tenacity.retry_if_exception_type
    (chat_completion_once self messages temperature system_prompt).

Definition convert_to_api_messages (self : t) (messages : list Message)
    : list api_message :=
  map (fun msg => mkApi (role msg) (content msg)) messages.

Definition health_check (self : t) : M bool :=
  try_except
    (response <- await_create env (client self)
                   (mkCompletionRequest "deepseek-chat" [mkApi "user" "test"]
                      float_0_1 (Some 5)) ;;
     ret (match choices response with [] => false | _ :: _ => true end))
    (fun e => ret false).
End WithEnv.
End DeepSeekClient.

(** ** chat_manager.py *)

(** The dict [process_message] returns. *)
Record ProcessResult : Type := mkResult {
  r_chat_id : option Z;
  r_message : option Message;
  r_success : bool;
  r_error : option string
}.

(** The dict [health_check] returns. *)
Record HealthStatus : Type := mkStatus {
  database : string;
  deepseek_api : string
}.

(** [message[:50] + "..." if len(message) > 50 else message]. *)
Definition title_of (message : string) : string :=
  if 50 <? len message
  then String.append (substring 0 50 message) "..."
  else message.

Module ChatManager.
Record t : Type := mk {
  deepseek : DeepSeekClient.t
}.

Section WithEnv.
Variable env : Env.

(** The [except Exception as e] branch, with [chat_id] as bound when the
    exception arrives. *)
Definition failure (chat_id : option Z) (e : exn) : M ProcessResult :=
  ret (mkResult chat_id None false (Some (str e))).

(** Step 1 of [process_message]: [if chat_id is None: chat_id = await
    self.db.create_chat(..)]. *)
Definition resolve_chat (chat_id : option Z) (user_id : option string)
    (message : string) : M Z :=
  match chat_id with
  | None => Database.create_chat env user_id (title_of message)
  | Some c => ret c
  end.

(** Steps 2 to 7 of [process_message], once [chat_id] is an integer. *)
Definition converse (self : t) (message : string) (chat_id : Z)
    (temperature : pyfloat) (system_prompt : option string) : M ProcessResult :=
  user_message_id <- Database.save_message env chat_id "user" (Some message) ;;
  last_messages <- Database.get_last_n_messages env chat_id 10 ;;
  let api_messages :=
    DeepSeekClient.convert_to_api_messages (deepseek self) last_messages in
  ai_response <- DeepSeekClient.chat_completion env (deepseek self)
                   api_messages temperature system_prompt ;;
  assistant_message_id <- Database.save_message env chat_id "assistant" ai_response ;;
  now <- datetime_now env ;;
  reply <- lift (Message_new (Some assistant_message_id) (Some chat_id)
                   "assistant" ai_response now) ;;
  ret (mkResult (Some chat_id) (Some reply) true None).

(** [process_message]. The variable [chat_id] is rebound by step 1, so the
    handler reports the argument when step 1 fails and the integer of step 1
    when a later step fails. *)
Definition process_message (self : t) (message : string) (chat_id : option Z)
    (temperature : pyfloat) (system_prompt : option string)
    (user_id : option string) : M ProcessResult :=
  try_except
    (chat_id' <- resolve_chat chat_id user_id message ;;
     try_except
       (converse self message chat_id' temperature system_prompt)
       (failure (Some chat_id')))
    (failure chat_id).

Definition get_chat_history (self : t) (chat_id : Z) : M (option Chat) :=
  try_except (Database.get_chat env chat_id) (fun e => ret None).

Definition get_chats_list (self : t) (limit offset : Z)
    (user_id : option string) : M (list ChatSummary) :=
  try_except (Database.get_chats_list env limit offset user_id)
             (fun e => ret []).

Definition delete_chat (self : t) (chat_id : Z) : M bool :=
  try_except (Database.delete_chat env chat_id) (fun e => ret false).

Definition health_check (self : t) : M HealthStatus :=
  let status := mkStatus "unknown" "unknown" in
  status <- try_except
              (Database.init_db env ;;;
               ret (mkStatus "ok" (deepseek_api status)))
              (fun e => ret (mkStatus "error" (deepseek_api status))) ;;
  status <- try_except
              (api_status <- DeepSeekClient.health_check env (deepseek self) ;;
               ret (mkStatus (database status)
                             (if api_status : bool then "ok" else "error")))
              (fun e => ret (mkStatus (database status) "error")) ;;
  ret status.
End WithEnv.
End ChatManager.

(** ** routes.py: POST /api/chat *)

Module routes.
(** What the framework sends back: the [ChatResponse] of the handler, the
    422 it answers itself when the body does not validate as a
    [ChatRequest] (the handler is not entered), or the [HTTPException]
    the handler raises. *)
Inductive response : Type :=
| ChatResponse (chat_id : Z) (message : Message) (success : bool)
| UnprocessableEntity (detail : string)
| HTTPException (status_code : Z) (detail : string).

Section WithEnv.
Variable env : Env.

Definition chat (chat_manager : ChatManager.t) (body : ChatRequestBody)
    : M response :=
  match ChatRequest_validate body with
  | Raise e => ret (UnprocessableEntity (str e))
  | Ok request =>
      result <- ChatManager.process_message env chat_manager
                  (req_message request) (req_chat_id request)
                  (req_temperature request) (req_system_prompt request) None ;;
      if negb (r_success result) then
        ret (HTTPException 500
               (match r_error result with
                | Some detail => detail
                | None => "Unknown error"
                end))
      else
        match r_chat_id result, r_message result with
        | Some c, Some m => ret (ChatResponse c m true)
        | _, _ => raise (ValidationError "ChatResponse")
        end
  end.
End WithEnv.
End routes.

(** ** Properties of states, clocks and storage used in the statements *)

(** The storage answers every operation. *)
Definition reliable (env : Env) : Prop :=
  forall k, storage_fault env k = None.

(** The storage answers the next [n] operations. *)
Definition storage_up (env : Env) (w : World) (n : nat) : Prop :=
  forall k, (k < n)%nat -> storage_fault env (sops w + k) = None.

(** The clock does not run backwards. *)
Definition clock_monotone (env : Env) : Prop :=
  forall i j, (i <= j)%nat -> now_at env i <= now_at env j.

(** No stored time is later than the next clock reading. *)
Definition clock_ahead (env : Env) (w : World) : Prop :=
  (forall c, In c (chats (db w)) -> c_updated_at c <= now_at env (reads w)) /\
  (forall m, In m (msgs (db w)) -> m_timestamp m <= now_at env (reads w)).

(** The [updated_at] of a conversation, when the conversation exists. *)
Definition updated_at_of (d : DB) (cid : Z) : option Z :=
  option_map c_updated_at (find (fun c => c_id c =? cid) (chats d)).

(** A run of appends, one after the other: each a conversation id, a role
    and a content. *)
Fixpoint appends (env : Env) (calls : list (Z * string * option string))
    (w : World) : World :=
  match calls with
  | [] => w
  | (cid, r, body) :: calls' =>
      appends env calls' (snd (Database.save_message env cid r body w))
  end.

(** A stored row that satisfies the constraints of [Message]. *)
Definition row_valid (row : MessageRow) : Prop :=
  role_ok (m_role row) = true /\ 1 <= len (m_content row).

(** The [Message] built from a valid row. *)
Definition message_of (row : MessageRow) : Message :=
  mkMessage (Some (m_id row)) (Some (m_chat_id row)) (m_role row)
    (m_content row) (m_timestamp row).

(** The request one attempt of [chat_completion] sends. *)
Definition request_of (self : DeepSeekClient.t) (messages : list api_message)
    (temperature : pyfloat) (system_prompt : option string) : completion_request :=
  mkCompletionRequest (DeepSeekClient.model self)
    (match system_prompt with
     | Some p => if String.eqb p "" then [] else [mkApi "system" p]
     | None => []
     end ++ messages)
    temperature None.

(** The result of one attempt, from what the upstream did with the request. *)
Definition attempt_result (self : DeepSeekClient.t) (o : upstream_outcome)
    : Result (option string) :=
  match o with
  | Fails e => Raise e
  | Responds r =>
      match DeepSeekClient.client self with
      | OpenAI _ _ =>
          Raise (TypeError "object ChatCompletion can't be used in 'await' expression")
      | AsyncOpenAI _ _ =>
          match choices r with
          | [] => Raise (IndexError "list index out of range")
          | choice :: _ => Ok choice
          end
      end
  end.

(** A result the retry predicate sends back for another attempt. *)
Definition transient {A} (r : Result A) : bool :=
  match r with
  | Raise e => tenacity.retry_if_exception_type e
  | Ok _ => false
  end.

(** Every conversation of [d] is still in [d'], under the same id, owner
    and title. *)
Definition keeps (d d' : DB) : Prop :=
  forall c, In c (chats d) ->
    exists c', In c' (chats d') /\ c_id c' = c_id c /\
               c_user_id c' = c_user_id c /\ c_title c' = c_title c.

(** The request [DeepSeekClient.health_check] sends. *)
Definition health_request : completion_request :=
  mkCompletionRequest "deepseek-chat" [mkApi "user" "test"] float_0_1 (Some 5).

(** What [DeepSeekClient.health_check] makes of the upstream's answer. *)
Definition probe_ok (self : DeepSeekClient.t) (o : upstream_outcome) : bool :=
  match o with
  | Fails _ => false
  | Responds r =>
      match DeepSeekClient.client self with
      | OpenAI _ _ => false
      | AsyncOpenAI _ _ => match choices r with [] => false | _ :: _ => true end
      end
  end.

(** A temperature within [0.0, 1.0], or none given. *)
Definition temperature_within (t : option pyfloat) : Prop :=
  match t with
  | None => True
  | Some t => float_le float_0_0 t = true /\ float_le t float_1_0 = true
  end.

(** A temperature below 0.0 or above 1.0. *)
Definition temperature_outside (t : pyfloat) : Prop :=
  float_lt t float_0_0 = true \/ float_lt float_1_0 t = true.

(** ** Sample environments and states *)

Definition clock : nat -> Z := fun n => Z.of_nat n + 1.

(** Storage up, upstream answering [reply]. *)
Definition env_ok (reply : string) : Env :=
  mkEnv clock (fun _ => None) (fun _ _ => Responds (mkCompletion [Some reply])).

(** Storage up, upstream unreachable. *)
Definition env_unreachable : Env :=
  mkEnv clock (fun _ => None) (fun _ _ => Fails APIConnectionError).

(** Storage up, every request times out. *)
Definition env_timeouts : Env :=
  mkEnv clock (fun _ => None) (fun _ _ => Fails APITimeoutError).

(** Storage up, the first two requests time out, the third is answered. *)
Definition env_flaky (reply : string) : Env :=
  mkEnv clock (fun _ => None)
    (fun k _ => match k with
                | O | S O => Fails APITimeoutError
                | _ => Responds (mkCompletion [Some reply])
                end).

(** Storage down. *)
Definition env_storage_down : Env :=
  mkEnv clock (fun _ => Some (OperationalError "unable to open database file"))
    (fun _ _ => Responds (mkCompletion [Some "pong"])).

(** Storage up, a clock that gives the same reading twice in a row. *)
Definition env_coarse_clock : Env :=
  mkEnv (fun n => Z.of_nat (Nat.div2 (S n))) (fun _ => None)
    (fun _ _ => Fails APIConnectionError).

(** The manager as dependencies.py builds it, and one around an
    [AsyncOpenAI] client. *)
Definition manager : ChatManager.t :=
  ChatManager.mk (DeepSeekClient.init "key" "https://api.deepseek.com/v1").

Definition manager_async : ChatManager.t :=
  ChatManager.mk
    (DeepSeekClient.mk (AsyncOpenAI "key" "https://api.deepseek.com/v1")
       "deepseek-chat").

Definition w0 : World := world_of empty_db.

(** A store with one conversation of two messages and a second, empty one. *)
Definition db_two_chats : DB :=
  mkDB [mkChatRow 1 (Some "ann") "Hello" 1 3; mkChatRow 2 (Some "bob") "Other" 4 4]
       [mkMessageRow 1 1 "user" "Hello" 2; mkMessageRow 2 1 "assistant" "Hi!" 3]
       2 2.

(** The same store, met after five clock readings. *)
Definition w_two_chats : World := mkWorld db_two_chats db_two_chats 5 13 1 [].

(** A conversation and two appends under the coarse clock: both messages
    carry the same timestamp. *)
Definition w_tie : World :=
  snd (Database.save_message env_coarse_clock 1 "user" (Some "second")
    (snd (Database.save_message env_coarse_clock 1 "user" (Some "first")
      (snd (Database.create_chat env_coarse_clock None "Ties" w0))))).

(** [n] copies of a character. *)
Fixpoint repeat_char (c : ascii) (n : nat) : string :=
  match n with
  | O => EmptyString
  | S n' => String c (repeat_char c n')
  end.

(** Messages of 10000 and of 10001 characters. *)
Definition message_10000 : string := repeat_char "a" (Z.to_nat 10000).
Definition message_10001 : string := repeat_char "a" (Z.to_nat 10001).

(** ** routes.py: the handlers of the other endpoints *)

Module endpoints.
(** What the other endpoints send back: the response model of the handler,
    the dict of [delete_chat], or the [HTTPException] the handler raises. *)
Inductive reply : Type :=
| ChatHistoryResponse (chat : Chat) (success : bool)
| ChatListResponse (chats : list ChatSummary) (total : Z) (success : bool)
| Deleted (success : bool) (chat_id : Z)   (* "Chat {chat_id} deleted" *)
| HealthResponse (status version : string) (timestamp : Z)
    (deepseek_api database : string)
| HTTPException (status_code : Z) (detail : string).

Section WithEnv.
Variable env : Env.

(** [GET /api/history/{chat_id}]. *)
Definition get_history (chat_manager : ChatManager.t) (chat_id : Z) : M reply :=
  chat <- ChatManager.get_chat_history env chat_manager chat_id ;;
  match chat with
  | None => ret (HTTPException 404 "Chat not found")
  | Some c => ret (ChatHistoryResponse c true)
  end.

(** [GET /api/chats]; [total=len(chats)]. *)
Definition list_chats (chat_manager : ChatManager.t) (limit offset : Z)
    (user_id : option string) : M reply :=
  chats <- ChatManager.get_chats_list env chat_manager limit offset user_id ;;
  ret (ChatListResponse chats (Z.of_nat (List.length chats)) true).

(** [DELETE /api/chat/{chat_id}]. *)
Definition delete_chat (chat_manager : ChatManager.t) (chat_id : Z) : M reply :=
  deleted <- ChatManager.delete_chat env chat_manager chat_id ;;
  if negb deleted then ret (HTTPException 404 "Chat not found")
  else ret (Deleted true chat_id).

(** [GET /api/health]; [timestamp] is the model's [default_factory]. *)
Definition health_check (chat_manager : ChatManager.t) : M reply :=
  status <- ChatManager.health_check env chat_manager ;;
  now <- datetime_now env ;;
  ret (HealthResponse "ok" "1.0.0" now (deepseek_api status) (database status)).
End WithEnv.
End endpoints.

(** ** dependencies.py and the lifespan of main.py *)

(** The environment variables [get_settings] reads. *)
Record Environ : Type := mkEnviron {
  DEEPSEEK_API_KEY : option string;
  DEEPSEEK_API_URL : option string;
  DATABASE_PATH : option string
}.

(** The dict of [get_settings]. *)
Record Settings : Type := mkSettings {
  deepseek_api_key : option string;
  deepseek_api_url : string;
  database_path : string
}.

(** A [Database] object: the path it was built with. *)
Record DatabaseObject : Type := mkDatabase {
  db_path : string
}.

(** The three module-level singletons. *)
Record Singletons : Type := mkSingletons {
  _db_instance : option DatabaseObject;
  _deepseek_instance : option DeepSeekClient.t;
  _chat_manager_instance : option ChatManager.t
}.

Definition no_singletons : Singletons := mkSingletons None None None.

(** A coroutine of dependencies.py: it reads and assigns the singletons, also
    on the way to an exception. *)
Definition G (A : Type) : Type :=
  Singletons -> World -> Result A * Singletons * World.

Module dependencies.
Section WithEnv.
Variable env : Env.
Variable environ : Environ.

Definition get_settings : Settings :=
  mkSettings (DEEPSEEK_API_KEY environ)
    (match DEEPSEEK_API_URL environ with
     | Some u => u
     | None => "https://api.deepseek.com/v1"
     end)
    (match DATABASE_PATH environ with
     | Some p => p
     | None => "./chat.db"
     end).

(** The instance is assigned before [init_db] is awaited. *)
Definition get_db : G DatabaseObject :=
  fun g w =>
    match _db_instance g with
    | Some d => (Ok d, g, w)
    | None =>
        let d := mkDatabase (database_path get_settings) in
        let g1 := mkSingletons (Some d) (_deepseek_instance g)
                    (_chat_manager_instance g) in
        match Database.init_db env w with
        | (Ok _, w1) => (Ok d, g1, w1)
        | (Raise e, w1) => (Raise e, g1, w1)
        end
    end.

(** [if not settings["deepseek_api_key"]] holds for [None] and for the empty
    string. *)
Definition get_deepseek_client : G DeepSeekClient.t :=
  fun g w =>
    match _deepseek_instance g with
    | Some c => (Ok c, g, w)
    | None =>
        match deepseek_api_key get_settings with
        | None => (Raise (ValueError "DEEPSEEK_API_KEY is required"), g, w)
        | Some k =>
            if String.eqb k "" then
              (Raise (ValueError "DEEPSEEK_API_KEY is required"), g, w)
            else
              let c := DeepSeekClient.init k (deepseek_api_url get_settings) in
              (Ok c, mkSingletons (_db_instance g) (Some c)
                       (_chat_manager_instance g), w)
        end
    end.

Definition get_chat_manager : G ChatManager.t :=
  fun g w =>
    match _chat_manager_instance g with
    | Some m => (Ok m, g, w)
    | None =>
        match get_db g w with
        | (Raise e, g1, w1) => (Raise e, g1, w1)
        | (Ok _, g1, w1) =>
            match get_deepseek_client g1 w1 with
            | (Raise e, g2, w2) => (Raise e, g2, w2)
            | (Ok deepseek, g2, w2) =>
                let m := ChatManager.mk deepseek in
                (Ok m, mkSingletons (_db_instance g2) (_deepseek_instance g2)
                         (Some m), w2)
            end
        end
    end.

Definition close_connections : G unit :=
  fun g w => (Ok tt, no_singletons, w).

(** main.py, [lifespan] up to its [yield]: both blocks catch every
    exception. *)
Definition lifespan_startup : G unit :=
  fun g w =>
    let '(g1, w1) :=
      match get_db g w with
      | (Raise _, g1, w1) => (g1, w1)
      | (Ok _, g1, w1) => (g1, snd (Database.init_db env w1))
      end in
    let '(g2, w2) :=
      match get_deepseek_client g1 w1 with
      | (Raise _, g2, w2) => (g2, w2)
      | (Ok deepseek, g2, w2) =>
          (g2, snd (DeepSeekClient.health_check env deepseek w2))
      end in
    (Ok tt, g2, w2).
End WithEnv.
End dependencies.

(** ** Further properties of states used in the statements *)

(** The page LIMIT and OFFSET cut out of the summaries of the selected
    conversations, newest update first. *)
Definition chats_page (where_user : option string) (limit offset : Z) (d : DB)
    : list ChatSummary :=
  sql_limit limit (sql_offset offset
    (order_by (desc s_updated_at)
       (map (summary_of d)
          (match where_user with
           | Some u => filter (owned_by u) (chats d)
           | None => chats d
           end)))).

(** A run of [delete_chat] calls, one after the other. *)
Fixpoint deletes (env : Env) (ids : list Z) (w : World) : World :=
  match ids with
  | [] => w
  | i :: ids' => deletes env ids' (snd (Database.delete_chat env i w))
  end.

(** An API key that [get_deepseek_client] refuses. *)
Definition key_missing (environ : Environ) : Prop :=
  DEEPSEEK_API_KEY environ = None \/ DEEPSEEK_API_KEY environ = Some "".

(** Sample process environments. *)
Definition environ_with_key : Environ :=
  mkEnviron (Some "sk-test") None None.

Definition environ_without_key : Environ :=
  mkEnviron None None (Some "/data/chat.db").

(** ** routes.py: the routes with their dependency *)

(** [chat_manager: ChatManager = Depends(get_chat_manager)] in the signature
    of a handler: the dependency is awaited first and the handler is called
    with what it returned; an exception of the dependency ends the request
    before the handler runs. *)
Definition Depends {A B} (dependency : G A) (handler : A -> M B) : G B :=
  fun g w =>
    match dependency g w with
    | (Raise e, g1, w1) => (Raise e, g1, w1)
    | (Ok a, g1, w1) => let '(r, w2) := handler a w1 in (r, g1, w2)
    end.

Module router.
Section WithEnv.
Variable env : Env.
Variable environ : Environ.

(** [@router.get("/history/{chat_id}")]. *)
Definition get_history (chat_id : Z) : G endpoints.reply :=
  Depends (dependencies.get_chat_manager env environ)
    (fun chat_manager => endpoints.get_history env chat_manager chat_id).

(** [@router.get("/chats")]. *)
Definition list_chats (limit offset : Z) (user_id : option string)
    : G endpoints.reply :=
  Depends (dependencies.get_chat_manager env environ)
    (fun chat_manager =>
       endpoints.list_chats env chat_manager limit offset user_id).

(** [@router.delete("/chat/{chat_id}")]. *)
Definition delete_chat (chat_id : Z) : G endpoints.reply :=
  Depends (dependencies.get_chat_manager env environ)
    (fun chat_manager => endpoints.delete_chat env chat_manager chat_id).

(** [@router.get("/health")]. *)
Definition health_check : G endpoints.reply :=
  Depends (dependencies.get_chat_manager env environ)
    (fun chat_manager => endpoints.health_check env chat_manager).
End WithEnv.
End router.

(** An API key that [get_deepseek_client] accepts: set and not empty. *)
Definition key_given (environ : Environ) : bool :=
  match DEEPSEEK_API_KEY environ with
  | Some k => negb (String.eqb k "")
  | None => false
  end.

(** A client around the blocking [OpenAI] class. *)
Definition blocking (c : DeepSeekClient.t) : bool :=
  match DeepSeekClient.client c with
  | OpenAI _ _ => true
  | AsyncOpenAI _ _ => false
  end.

(** The singletons while the application serves requests, that is, as the
    startup leaves them and as every request keeps them: the [Database] is
    registered; with an API key the client is registered and is one around
    the blocking class, and so is the client of the manager once a manager
    is registered; without a key there is neither client nor manager. *)
Definition serving (environ : Environ) (g : Singletons) : bool :=
  match _db_instance g with Some _ => true | None => false end &&
  (if key_given environ then
     match _deepseek_instance g with Some c => blocking c | None => false end &&
     match _chat_manager_instance g with
     | Some m => blocking (ChatManager.deepseek m)
     | None => true
     end
   else
     match _deepseek_instance g, _chat_manager_instance g with
     | None, None => true
     | _, _ => false
     end).

(** The singletons after the startup. *)
Definition started (env : Env) (environ : Environ) (w : World)
    : Singletons * World :=
  let '(_, g, w') := dependencies.lifespan_startup env environ no_singletons w in
  (g, w').

(** The answer of a handler that raised [HTTPException(404)]. *)
Definition not_found : endpoints.reply :=
  endpoints.HTTPException 404 "Chat not found".

(** The storage fails at one of the next [n] operations. *)
Definition storage_fails (env : Env) (w : World) (n : nat) : Prop :=
  exists k e, (k < n)%nat /\ storage_fault env (sops w + k) = Some e.

(** ** A clock that runs backwards *)

(** Storage up, a clock that is set back by one unit between any two
    readings. *)
Definition env_clock_back : Env :=
  mkEnv (fun n => 100 - Z.of_nat n) (fun _ => None)
    (fun _ _ => Fails APIConnectionError).

(** ** Orders on rows and tactics for running the operations *)

Definition ascending {A} (key : A -> Z) (x y : A) : Prop := key x <= key y.
Definition descending {A} (key : A -> Z) (x y : A) : Prop := key y <= key x.
Definition strictly_ascending {A} (key : A -> Z) (x y : A) : Prop :=
  key x < key y.

Ltac unfold_ops :=
  unfold Database.save_message, Database.create_chat, Database.delete_chat,
    Database.get_chat, Database.get_chats_list, Database.get_last_n_messages,
    Database.init_db, with_connection, connect, execute, commit, storage_op,
    datetime_now, sleep, lift, try_except, bind, ret, raise.

Ltac step_storage :=
  match goal with
  | |- context [storage_fault ?e ?k] =>
      let F := fresh "F" in destruct (storage_fault e k) eqn:F
  end.

Ltac run_ops := unfold_ops; cbn; repeat (step_storage; cbn).

(** The storage answered the next operations: the outcome of each is among
    the hypotheses. *)
Ltac storage_was_up :=
  let k := fresh "k" in
  let Hk := fresh "Hk" in
  unfold storage_up; intros k Hk;
  repeat (destruct k as [|k];
          [match goal with
           | H : storage_fault _ ?i = None |- storage_fault _ ?j = None =>
               replace j with i by lia; exact H
           end
          |try (exfalso; lia)]).

(** The storage failed at one of the next operations: the failure is among
    the hypotheses. *)
Ltac failed_at H i e k :=
  exists k, e; split; [lia|];
  match goal with
  | |- storage_fault _ ?j = _ => replace j with i by lia
  end;
  exact H.

Ltac storage_failed :=
  unfold storage_fails;
  match goal with
  | H : storage_fault _ ?i = Some ?e |- _ =>
      first [ failed_at H i e 0%nat | failed_at H i e 1%nat
            | failed_at H i e 2%nat | failed_at H i e 3%nat
            | failed_at H i e 4%nat | failed_at H i e 5%nat
            | failed_at H i e 6%nat ]
  end.

(** * Facts *)

(** ** ORDER BY *)

Section OrderBy.
Context {A : Type}.
Variable key : A -> Z.

Abbreviation le_key := (ascending key).
Abbreviation ge_key := (descending key).
Abbreviation lt_key := (strictly_ascending key).

Lemma insert_by_perm (before : A -> A -> bool) (x : A) (l : list A) :
  Permutation (insert_by before x l) (x :: l).
Proof.
  induction l as [|y l IH]; simpl.
  - apply Permutation_refl.
  - destruct (before x y).
    + apply Permutation_refl.
    + eapply Permutation_trans; [apply perm_skip, IH | apply perm_swap].
Qed.

Lemma order_by_perm (before : A -> A -> bool) (l : list A) :
  Permutation (order_by before l) l.
Proof.
  induction l as [|x l IH]; simpl.
  - constructor.
  - eapply Permutation_trans; [apply insert_by_perm | now apply perm_skip].
Qed.

Lemma order_by_length (before : A -> A -> bool) (l : list A) :
  List.length (order_by before l) = List.length l.
Proof. apply Permutation_length, order_by_perm. Qed.

Lemma insert_asc_sorted (x : A) (l : list A) :
  StronglySorted le_key l -> StronglySorted le_key (insert_by (asc key) x l).
Proof.
  induction 1 as [|y l Hs IH Hy]; simpl.
  - constructor; constructor.
  - unfold asc at 1. destruct (Z.leb_spec (key x) (key y)) as [Hle|Hgt].
    + constructor; [now constructor|].
      constructor; [exact Hle|].
      eapply Forall_impl; [|exact Hy]. unfold le_key. intros; lia.
    + constructor; [exact IH|].
      eapply Permutation_Forall;
        [apply Permutation_sym, insert_by_perm|].
      constructor; [unfold le_key; lia | exact Hy].
Qed.

Lemma insert_desc_sorted (x : A) (l : list A) :
  StronglySorted ge_key l -> StronglySorted ge_key (insert_by (desc key) x l).
Proof.
  induction 1 as [|y l Hs IH Hy]; simpl.
  - constructor; constructor.
  - unfold desc at 1. destruct (Z.leb_spec (key y) (key x)) as [Hle|Hgt].
    + constructor; [now constructor|].
      constructor; [exact Hle|].
      eapply Forall_impl; [|exact Hy]. unfold ge_key. intros; lia.
    + constructor; [exact IH|].
      eapply Permutation_Forall;
        [apply Permutation_sym, insert_by_perm|].
      constructor; [unfold ge_key; lia | exact Hy].
Qed.

Lemma order_by_asc_sorted (l : list A) :
  StronglySorted le_key (order_by (asc key) l).
Proof.
  induction l; simpl; [constructor | now apply insert_asc_sorted].
Qed.

Lemma order_by_desc_sorted (l : list A) :
  StronglySorted ge_key (order_by (desc key) l).
Proof.
  induction l; simpl; [constructor | now apply insert_desc_sorted].
Qed.

Lemma sorted_app (R : A -> A -> Prop) (l1 l2 : list A) :
  StronglySorted R l1 -> StronglySorted R l2 ->
  (forall x y, In x l1 -> In y l2 -> R x y) ->
  StronglySorted R (l1 ++ l2).
Proof.
  induction 1 as [|x l1 Hs IH Hx]; simpl; intros H2 Hc; [exact H2|].
  constructor.
  - apply IH; [exact H2 | intros; apply Hc; [now right | assumption]].
  - apply Forall_app; split; [exact Hx|].
    apply Forall_forall. intros y Hy. apply Hc; [now left | exact Hy].
Qed.

Lemma sorted_rev (R : A -> A -> Prop) (l : list A) :
  StronglySorted R l -> StronglySorted (fun x y => R y x) (rev l).
Proof.
  induction 1 as [|x l Hs IH Hx]; simpl; [constructor|].
  apply sorted_app; [exact IH | constructor; constructor |].
  intros a b Ha Hb. destruct Hb as [<-|[]].
  rewrite Forall_forall in Hx. apply Hx. now apply in_rev.
Qed.

Lemma sorted_firstn (R : A -> A -> Prop) (n : nat) (l : list A) :
  StronglySorted R l -> StronglySorted R (firstn n l).
Proof.
  intros H. revert n.
  induction H as [|x l Hs IH Hx]; intros [|n]; simpl; try constructor.
  - apply IH.
  - rewrite Forall_forall in *. intros y Hy. apply Hx.
    rewrite <- (firstn_skipn n l). apply in_or_app. now left.
Qed.

Lemma sorted_strict (l : list A) :
  StronglySorted le_key l -> NoDup (map key l) -> StronglySorted lt_key l.
Proof.
  induction 1 as [|x l Hs IH Hx]; simpl; intros Hn; [constructor|].
  inversion Hn as [|? ? Hnotin Hn']; subst.
  constructor; [now apply IH|].
  rewrite Forall_forall in *. intros y Hy.
  specialize (Hx y Hy). unfold le_key in Hx. unfold lt_key.
  assert (key x <> key y).
  { intros E. apply Hnotin. rewrite E. now apply in_map. }
  lia.
Qed.

(** Two strictly ascending arrangements of the same rows are equal. *)
Lemma sorted_strict_unique (l1 l2 : list A) :
  StronglySorted lt_key l1 -> StronglySorted lt_key l2 ->
  Permutation l1 l2 -> l1 = l2.
Proof.
  intros H1. revert l2.
  induction H1 as [|x l1 Hs IH Hx]; intros l2 H2 Hp.
  - now apply Permutation_nil in Hp.
  - destruct H2 as [|y l2 Hs2 Hy].
    + apply Permutation_sym, Permutation_nil in Hp. discriminate.
    + assert (x = y) as ->.
      { assert (Hin1 : In x (y :: l2))
          by (eapply Permutation_in; [exact Hp | now left]).
        assert (Hin2 : In y (x :: l1))
          by (eapply Permutation_in;
              [apply Permutation_sym; exact Hp | now left]).
        destruct Hin1 as [E|Hin1]; [now symmetry|].
        destruct Hin2 as [E|Hin2]; [exact E|].
        rewrite Forall_forall in Hx, Hy.
        specialize (Hx _ Hin2). specialize (Hy _ Hin1).
        unfold lt_key in *. lia. }
      f_equal. apply IH; [exact Hs2 | now apply Permutation_cons_inv in Hp].
Qed.

(** With pairwise distinct keys, the descending order read backwards is
    the ascending order. *)
Lemma rev_desc_is_asc (l : list A) :
  NoDup (map key l) ->
  rev (order_by (desc key) l) = order_by (asc key) l.
Proof.
  intros Hn. apply sorted_strict_unique.
  - apply sorted_strict.
    + apply (sorted_rev ge_key), order_by_desc_sorted.
    + eapply Permutation_NoDup; [|exact Hn].
      apply Permutation_map, Permutation_sym.
      eapply Permutation_trans;
        [apply Permutation_sym, Permutation_rev | apply order_by_perm].
  - apply sorted_strict; [apply order_by_asc_sorted|].
    eapply Permutation_NoDup; [|exact Hn].
    apply Permutation_map, Permutation_sym, order_by_perm.
  - eapply Permutation_trans;
      [apply Permutation_sym, Permutation_rev|].
    eapply Permutation_trans;
      [apply order_by_perm | apply Permutation_sym, order_by_perm].
Qed.

(** The newest [n] rows, read oldest first. *)
Lemma rev_firstn_desc_sorted (n : nat) (l : list A) :
  StronglySorted le_key (rev (firstn n (order_by (desc key) l))).
Proof.
  apply (sorted_rev ge_key), sorted_firstn, order_by_desc_sorted.
Qed.

Lemma rev_firstn_desc_suffix (n : nat) (l : list A) :
  NoDup (map key l) ->
  rev (firstn n (order_by (desc key) l)) =
  skipn (List.length l - n) (order_by (asc key) l).
Proof.
  intros Hn. rewrite <- (rev_desc_is_asc l Hn).
  rewrite <- (order_by_length (desc key) l).
  rewrite skipn_rev.
  f_equal.
  set (L := List.length (order_by (desc key) l)).
  destruct (Nat.le_gt_cases n L) as [Hle|Hgt].
  - f_equal. lia.
  - rewrite !firstn_all2; trivial; fold L; lia.
Qed.
End OrderBy.

(** ** Running the operations of db.py *)

Lemma save_message_run env chat_id role content w :
  let t := now_at env (reads w) in
  let mid := next_rowid (seq_messages (db w)) (map m_id (msgs (db w))) in
  let '(r, w') := Database.save_message env chat_id role content w in
  reads w' = S (reads w) /\ reqs w' = reqs w /\ sleeps w' = sleeps w /\
  match r with
  | Ok i =>
      i = mid /\
      exists body, content = Some body /\
        db w' = mkDB (map (touch t chat_id) (chats (db w)))
                     (msgs (db w) ++ [mkMessageRow mid chat_id role body t])
                     (seq_chats (db w)) mid
  | Raise _ => db w' = db w
  end.
Proof.
  run_ops; auto.
  all: destruct content as [body|]; cbn; auto.
  all: repeat (step_storage; cbn); auto.
  repeat split; eauto.
Qed.

Lemma save_message_reliable env chat_id role body w :
  reliable env ->
  let t := now_at env (reads w) in
  let mid := next_rowid (seq_messages (db w)) (map m_id (msgs (db w))) in
  exists w',
    Database.save_message env chat_id role (Some body) w = (Ok mid, w') /\
    db w' = mkDB (map (touch t chat_id) (chats (db w)))
                 (msgs (db w) ++ [mkMessageRow mid chat_id role body t])
                 (seq_chats (db w)) mid.
Proof.
  intros R. unfold_ops. cbn. repeat (rewrite R; cbn). eauto.
Qed.

Lemma create_chat_run env user_id title w :
  let t := now_at env (reads w) in
  let cid := next_rowid (seq_chats (db w)) (map c_id (chats (db w))) in
  let '(r, w') := Database.create_chat env user_id title w in
  reads w' = S (reads w) /\ reqs w' = reqs w /\ sleeps w' = sleeps w /\
  match r with
  | Ok i =>
      i = cid /\
      db w' = mkDB (chats (db w) ++ [mkChatRow cid user_id title t t])
                   (msgs (db w)) cid (seq_messages (db w))
  | Raise _ => db w' = db w
  end.
Proof.
  run_ops; auto.
Qed.

Lemma storage_up_3 env w :
  storage_up env w 3 ->
  storage_fault env (sops w) = None /\
  storage_fault env (S (sops w)) = None /\
  storage_fault env (S (S (sops w))) = None.
Proof.
  intros R. repeat split.
  - rewrite <- (R 0%nat) by lia. f_equal. lia.
  - rewrite <- (R 1%nat) by lia. f_equal. lia.
  - rewrite <- (R 2%nat) by lia. f_equal. lia.
Qed.

Lemma create_chat_up env user_id title w :
  storage_up env w 3 ->
  exists cid w',
    Database.create_chat env user_id title w = (Ok cid, w').
Proof.
  intros R. destruct (storage_up_3 env w R) as (H0 & H1 & H2).
  unfold_ops. cbn. rewrite H0. cbn. rewrite H1. cbn. rewrite H2. cbn. eauto.
Qed.

(** ** Touching a conversation *)

Lemma touch_id t cid c : c_id (touch t cid c) = c_id c.
Proof. unfold touch. now destruct (c_id c =? cid). Qed.

Lemma touch_title t cid c : c_title (touch t cid c) = c_title c.
Proof. unfold touch. now destruct (c_id c =? cid). Qed.

Lemma find_touch t cid k l :
  find (fun c => c_id c =? k) (map (touch t cid) l) =
  option_map (touch t cid) (find (fun c => c_id c =? k) l).
Proof.
  induction l as [|x l IH]; simpl; [reflexivity|].
  rewrite touch_id. destruct (c_id x =? k); [reflexivity | exact IH].
Qed.

Lemma updated_at_touch t cid k d ms s1 s2 u :
  updated_at_of d k = Some u ->
  updated_at_of (mkDB (map (touch t cid) (chats d)) ms s1 s2) k =
  Some (if k =? cid then t else u).
Proof.
  unfold updated_at_of. cbn [chats]. rewrite find_touch.
  destruct (find (fun c => c_id c =? k) (chats d)) as [c|] eqn:Hf;
    cbn; [|discriminate].
  intros [= <-]. apply find_some in Hf. destruct Hf as [_ Hk].
  apply Z.eqb_eq in Hk. unfold touch. rewrite Hk.
  now destruct (k =? cid).
Qed.

Lemma updated_at_in d k u :
  updated_at_of d k = Some u ->
  exists c, In c (chats d) /\ c_id c = k /\ c_updated_at c = u.
Proof.
  unfold updated_at_of.
  destruct (find (fun c => c_id c =? k) (chats d)) as [c|] eqn:Hf;
    cbn; [|discriminate].
  intros [= <-]. apply find_some in Hf. destruct Hf as [Hin Hk].
  apply Z.eqb_eq in Hk. eauto.
Qed.

(** One append, whatever the storage does to it. *)
Lemma save_message_step :
  forall env chat_id role content w,
    clock_monotone env ->
    clock_ahead env w ->
    let t := now_at env (reads w) in
    let '(r, w') := Database.save_message env chat_id role content w in
    clock_ahead env w' /\
    match r with
    | Raise _ => db w' = db w
    | Ok mid =>
        exists body,
          content = Some body /\
          msgs (db w') = msgs (db w) ++ [mkMessageRow mid chat_id role body t] /\
          chats (db w') = map (touch t chat_id) (chats (db w)) /\
          (forall u, updated_at_of (db w) chat_id = Some u ->
                     updated_at_of (db w') chat_id = Some t /\ u <= t) /\
          (forall m u', In m (msgs (db w')) -> m_chat_id m = chat_id ->
                        updated_at_of (db w') chat_id = Some u' ->
                        m_timestamp m <= u') /\
          (forall c u, updated_at_of (db w) c = Some u ->
                       exists u', updated_at_of (db w') c = Some u' /\ u <= u')
    end.
Proof.
  intros env chat_id role content w Hmono [Hc Hm] t.
  pose proof (save_message_run env chat_id role content w) as Hrun.
  cbv zeta in Hrun.
  destruct (Database.save_message env chat_id role content w) as [r w'].
  destruct Hrun as (Hreads & _ & _ & Hr).
  assert (Hstep : t <= now_at env (reads w'))
    by (rewrite Hreads; apply Hmono; lia).
  destruct r as [mid|e].
  - destruct Hr as [-> (body & -> & Hdb)]. fold t in Hdb.
    assert (Hold : forall k u, updated_at_of (db w) k = Some u -> u <= t).
    { intros k u Hu. apply updated_at_in in Hu.
      destruct Hu as (c & Hin & _ & <-). now apply Hc. }
    split.
    + split.
      * rewrite Hdb. cbn [chats]. intros c Hin.
        apply in_map_iff in Hin. destruct Hin as (c0 & <- & Hin0).
        specialize (Hc _ Hin0). unfold touch.
        destruct (c_id c0 =? chat_id); cbn; fold t in Hc; lia.
      * rewrite Hdb. cbn [msgs]. intros m Hin.
        apply in_app_or in Hin. destruct Hin as [Hin|[<-|[]]].
        -- specialize (Hm _ Hin). fold t in Hm. lia.
        -- cbn. exact Hstep.
    + exists body. rewrite Hdb. cbn [msgs chats]. repeat split.
      * rewrite (updated_at_touch t chat_id chat_id (db w) _ _ _ u H).
        now rewrite Z.eqb_refl.
      * now apply (Hold chat_id).
      * intros m u' Hin Hcid Hu'.
        destruct (updated_at_of (db w) chat_id) as [u|] eqn:Hu.
        -- rewrite (updated_at_touch t chat_id chat_id (db w) _ _ _ u Hu) in Hu'.
           rewrite Z.eqb_refl in Hu'. injection Hu' as <-.
           apply in_app_or in Hin. destruct Hin as [Hin|[<-|[]]].
           ++ now apply Hm.
           ++ cbn. lia.
        -- unfold updated_at_of in Hu, Hu'. cbn [chats] in Hu'.
           rewrite find_touch in Hu'.
           destruct (find (fun c => c_id c =? chat_id) (chats (db w)));
             cbn in *; discriminate.
      * intros c u Hu.
        rewrite (updated_at_touch t chat_id c (db w) _ _ _ u Hu).
        eexists; split; [reflexivity|].
        destruct (c =? chat_id); [now apply (Hold c) | lia].
  - split; [|exact Hr].
    unfold clock_ahead. rewrite Hr. split.
    + intros c Hin. specialize (Hc _ Hin). fold t in Hc. lia.
    + intros m Hin. specialize (Hm _ Hin). fold t in Hm. lia.
Qed.

Lemma save_message_mono env chat_id role content w :
  clock_monotone env ->
  clock_ahead env w ->
  let w' := snd (Database.save_message env chat_id role content w) in
  clock_ahead env w' /\
  (forall c u, updated_at_of (db w) c = Some u ->
               exists u', updated_at_of (db w') c = Some u' /\ u <= u').
Proof.
  intros Hm Ha.
  pose proof (save_message_step env chat_id role content w Hm Ha) as H.
  cbv zeta in H.
  destruct (Database.save_message env chat_id role content w) as [[mid|e] w'];
    cbn [snd]; destruct H as [Hahead H]; (split; [exact Hahead|]).
  - destruct H as (body & _ & _ & _ & _ & _ & Hall). exact Hall.
  - rewrite H. intros c u Hu. exists u. split; [exact Hu | lia].
Qed.

Lemma appends_monotone env calls :
  clock_monotone env ->
  forall w,
    clock_ahead env w ->
    clock_ahead env (appends env calls w) /\
    (forall c u, updated_at_of (db w) c = Some u ->
                 exists u', updated_at_of (db (appends env calls w)) c = Some u' /\
                            u <= u').
Proof.
  intros Hm. induction calls as [|[[cid r] body] calls IH]; intros w Ha; cbn.
  - split; [exact Ha|]. intros c u Hu. exists u. split; [exact Hu | lia].
  - destruct (save_message_mono env cid r body w Hm Ha) as [Ha1 Hmono1].
    cbv zeta in Ha1, Hmono1.
    destruct (IH _ Ha1) as [Ha2 Hmono2]. split; [exact Ha2|].
    intros c u Hu. destruct (Hmono1 c u Hu) as (u1 & Hu1 & Hle1).
    destruct (Hmono2 c u1 Hu1) as (u2 & Hu2 & Hle2).
    exists u2. split; [exact Hu2 | lia].
Qed.

(** The stores the code builds under a clock that does not run backwards
    hold no time later than the next reading: the empty store does not, and
    [create_chat] keeps it so, as [save_message] does. *)
Lemma clock_ahead_empty env w : db w = empty_db -> clock_ahead env w.
Proof.
  intros H. unfold clock_ahead. rewrite H. cbn. split; intros ? [].
Qed.

Lemma create_chat_ahead env user_id title w :
  clock_monotone env ->
  clock_ahead env w ->
  clock_ahead env (snd (Database.create_chat env user_id title w)).
Proof.
  intros Hmono [Hc Hm].
  pose proof (create_chat_run env user_id title w) as Hrun.
  cbv zeta in Hrun.
  destruct (Database.create_chat env user_id title w) as [r w'].
  destruct Hrun as (Hreads & _ & _ & Hr). cbn [snd].
  assert (Hstep : now_at env (reads w) <= now_at env (reads w'))
    by (rewrite Hreads; apply Hmono; lia).
  assert (Hold : clock_ahead env (mkWorld (db w) (pending w') (reads w')
                                    (sops w') (reqs w') (sleeps w'))).
  { split; cbn; intros x Hx; [specialize (Hc _ Hx) | specialize (Hm _ Hx)];
      lia. }
  destruct r as [cid|e].
  - destruct Hr as [_ Hdb]. unfold clock_ahead. rewrite Hdb. cbn [chats msgs].
    split.
    + intros c Hin. apply in_app_or in Hin. destruct Hin as [Hin|[<-|[]]].
      * specialize (Hc _ Hin). lia.
      * cbn. exact Hstep.
    + intros m Hin. specialize (Hm _ Hin). lia.
  - unfold clock_ahead. rewrite Hr. exact Hold.
Qed.

(** One append without any assumption on the clock. *)
Lemma save_message_commit env chat_id role content w :
  let t := now_at env (reads w) in
  let '(r, w') := Database.save_message env chat_id role content w in
  match r with
  | Raise _ => db w' = db w
  | Ok mid =>
      exists body,
        content = Some body /\
        msgs (db w') = msgs (db w) ++ [mkMessageRow mid chat_id role body t] /\
        chats (db w') = map (touch t chat_id) (chats (db w)) /\
        (forall u, updated_at_of (db w) chat_id = Some u ->
                   updated_at_of (db w') chat_id = Some t)
  end.
Proof.
  intros t.
  pose proof (save_message_run env chat_id role content w) as Hrun.
  cbv zeta in Hrun.
  destruct (Database.save_message env chat_id role content w) as [[mid|e] w'];
    destruct Hrun as (_ & _ & _ & Hr); [|exact Hr].
  destruct Hr as [-> (body & -> & Hdb)]. fold t in Hdb.
  exists body. rewrite Hdb. cbn [msgs chats]. repeat split.
  intros u Hu. rewrite (updated_at_touch t chat_id chat_id (db w) _ _ _ u Hu).
  now rewrite Z.eqb_refl.
Qed.

(** C3, as amended. An append is one transaction: when [save_message]
    returns, the message row is inserted and the conversation is touched with
    the very same clock reading, so that the conversation's [updated_at] is
    the timestamp of the appended message; when it raises, at whatever point
    the storage failed, the database file is as it was. [updated_at] is
    overwritten with the reading, not raised to a maximum: that no message of
    the conversation is newer than its [updated_at] after the append, and
    that no conversation's [updated_at] decreases over this append and any
    run of appends made one after the other, holds for a clock whose readings
    never decrease and a store that holds no time later than the next
    reading. *)
Theorem save_message_atomic_touch :
  forall env chat_id role content w,
    let t := now_at env (reads w) in
    let run := Database.save_message env chat_id role content w in
    match fst run with
    | Raise _ => db (snd run) = db w
    | Ok mid =>
        exists body,
          content = Some body /\
          msgs (db (snd run)) =
            msgs (db w) ++ [mkMessageRow mid chat_id role body t] /\
          chats (db (snd run)) = map (touch t chat_id) (chats (db w)) /\
          (forall u, updated_at_of (db w) chat_id = Some u ->
                     updated_at_of (db (snd run)) chat_id = Some t)
    end /\
    (clock_monotone env ->
     clock_ahead env w ->
     (forall mid m u',
         fst run = Ok mid ->
         In m (msgs (db (snd run))) -> m_chat_id m = chat_id ->
         updated_at_of (db (snd run)) chat_id = Some u' ->
         m_timestamp m <= u') /\
     (forall calls c u,
         updated_at_of (db w) c = Some u ->
         exists u',
           updated_at_of
             (db (appends env ((chat_id, role, content) :: calls) w)) c
           = Some u' /\
           u <= u')).
Proof.
  intros env chat_id role content w t run. split.
  - pose proof (save_message_commit env chat_id role content w) as H.
    cbv zeta in H. fold run in H. now destruct run as [[mid|e] w'].
  - intros Hm Ha. split.
    + pose proof (save_message_step env chat_id role content w Hm Ha) as H.
      cbv zeta in H. fold run in H. destruct run as [[mid|e] w']; cbn [fst snd].
      * destruct H as (_ & body & _ & _ & _ & _ & Hnew & _).
        intros ? m u' _. apply Hnew.
      * intros ? ? ? [=].
    + intros calls. apply (appends_monotone env _ Hm w Ha).
Qed.

(** ** Reading messages back *)

Lemma in_firstn {A} (n : nat) (l : list A) (x : A) :
  In x (firstn n l) -> In x l.
Proof.
  intros H. rewrite <- (firstn_skipn n l). apply in_or_app. now left.
Qed.

Lemma Message_of_row_valid row :
  row_valid row -> Message_of_row row = Ok (message_of row).
Proof.
  intros [Hr Hc]. unfold Message_of_row, Message_new. rewrite Hr. cbn.
  destruct (Z.ltb_spec (len (m_content row)) 1); [lia | reflexivity].
Qed.

Lemma traverse_valid rows :
  Forall row_valid rows ->
  traverse Message_of_row rows = Ok (map message_of rows).
Proof.
  induction 1 as [|row rows Hrow _ IH]; cbn; [reflexivity|].
  now rewrite (Message_of_row_valid row Hrow), IH.
Qed.

Lemma get_last_n_messages_reliable env chat_id n w :
  reliable env ->
  fst (Database.get_last_n_messages env chat_id n w) =
  traverse Message_of_row
    (rev (sql_limit n (order_by (desc m_timestamp) (rows_of_chat chat_id (db w))))).
Proof.
  intros R. unfold_ops. cbn. repeat (rewrite R; cbn).
  now destruct (traverse Message_of_row _).
Qed.

Lemma get_chat_reliable env chat_id w :
  reliable env ->
  fst (Database.get_chat env chat_id w) =
  match find (fun c => c_id c =? chat_id) (chats (db w)) with
  | None => Ok None
  | Some row =>
      match traverse Message_of_row
              (order_by (asc m_timestamp) (rows_of_chat chat_id (db w))) with
      | Ok messages =>
          Ok (Some (mkChat (Some (c_id row)) (c_user_id row) (c_title row)
                           (c_created_at row) (c_updated_at row) messages))
      | Raise e => Raise e
      end
  end.
Proof.
  intros R. unfold_ops. cbn. repeat (rewrite R; cbn).
  destruct (find _ _); cbn; [|reflexivity].
  rewrite R. cbn.
  now destruct (traverse Message_of_row _).
Qed.

(** C4, as amended. While the storage answers, for a conversation whose
    stored rows satisfy the constraints of [Message], and every [n >= 0],
    [get_last_n_messages] returns exactly [min(n, total)] messages in
    ascending order of timestamp; [get_chat] returns the conversation's
    whole sequence in ascending order; and when the timestamps of the
    conversation are pairwise distinct the former is the suffix of the
    latter. *)
Theorem get_last_n_messages_suffix :
  forall env chat_id n w,
    reliable env ->
    0 <= n ->
    Forall row_valid (rows_of_chat chat_id (db w)) ->
    let rows := rows_of_chat chat_id (db w) in
    let total := List.length rows in
    let full := map message_of (order_by (asc m_timestamp) rows) in
    exists result,
      fst (Database.get_last_n_messages env chat_id n w) = Ok result /\
      List.length result = Nat.min (Z.to_nat n) total /\
      StronglySorted (fun a b => timestamp a <= timestamp b) result /\
      (forall row, find (fun c => c_id c =? chat_id) (chats (db w)) = Some row ->
         exists chat,
           fst (Database.get_chat env chat_id w) = Ok (Some chat) /\
           messages chat = full) /\
      (NoDup (map m_timestamp rows) ->
         result = skipn (total - Z.to_nat n) full).
Proof.
  intros env chat_id n w R Hn Hvalid rows total full.
  set (newest := rev (sql_limit n (order_by (desc m_timestamp) rows))).
  assert (Hlim : sql_limit n (order_by (desc m_timestamp) rows) =
                 firstn (Z.to_nat n) (order_by (desc m_timestamp) rows)).
  { unfold sql_limit. destruct (Z.ltb_spec n 0); [lia | reflexivity]. }
  assert (Hnv : Forall row_valid newest).
  { apply Forall_forall. intros row Hin. unfold newest in Hin.
    apply in_rev in Hin. rewrite Hlim in Hin. apply in_firstn in Hin.
    rewrite Forall_forall in Hvalid. apply Hvalid.
    eapply Permutation_in; [apply (order_by_perm (desc m_timestamp))|].
    exact Hin. }
  exists (map message_of newest). repeat split.
  - rewrite (get_last_n_messages_reliable env chat_id n w R).
    now apply traverse_valid.
  - rewrite length_map. unfold newest. rewrite length_rev, Hlim, length_firstn.
    now rewrite order_by_length.
  - unfold newest. rewrite Hlim.
    pose proof (rev_firstn_desc_sorted m_timestamp (Z.to_nat n) rows) as Hs.
    induction Hs as [|x l _ IH Hx]; cbn; constructor; [exact IH|].
    rewrite Forall_forall in *. intros m Hm.
    apply in_map_iff in Hm. destruct Hm as (y & <- & Hy). cbn.
    now apply Hx.
  - intros row Hrow.
    rewrite (get_chat_reliable env chat_id w R), Hrow.
    rewrite traverse_valid.
    + eexists; split; reflexivity.
    + eapply Permutation_Forall; [|exact Hvalid].
      apply Permutation_sym, order_by_perm.
  - intros Hnd. unfold newest, full. rewrite Hlim.
    rewrite (rev_firstn_desc_suffix m_timestamp (Z.to_nat n) rows Hnd).
    unfold total. now rewrite skipn_map.
Qed.

(** ** What an operation leaves in place *)

Lemma get_last_n_messages_db env chat_id n w :
  db (snd (Database.get_last_n_messages env chat_id n w)) = db w.
Proof.
  run_ops; auto.
Qed.

Lemma attempts_db {A} wait retry_on (fn : M A) :
  (forall w, db (snd (fn w)) = db w) ->
  forall remaining k w,
    db (snd (tenacity.attempts wait retry_on remaining k fn w)) = db w.
Proof.
  intros Hfn. induction remaining as [|remaining IH]; intros k w; cbn;
    specialize (Hfn w); destruct (fn w) as [[a|e] w1]; cbn in *; trivial;
    destruct (retry_on e); cbn; trivial.
  unfold bind, sleep. cbn. now rewrite IH.
Qed.

Lemma chat_completion_once_run env self messages temperature system_prompt w :
  DeepSeekClient.chat_completion_once env self messages temperature
    system_prompt w =
  (attempt_result self
     (upstream env (reqs w) (request_of self messages temperature system_prompt)),
   tick_reqs w).
Proof.
  unfold DeepSeekClient.chat_completion_once, try_except, bind, await_create,
    attempt_result, request_of, raise, ret.
  destruct (upstream env (reqs w) _) as [r|e]; [|reflexivity].
  destruct (DeepSeekClient.client self); [reflexivity|].
  now destruct (choices r).
Qed.

Lemma chat_completion_db env self messages temperature system_prompt w :
  db (snd (DeepSeekClient.chat_completion env self messages temperature
             system_prompt w)) = db w.
Proof.
  unfold DeepSeekClient.chat_completion, tenacity.retry.
  apply attempts_db. intros w1. now rewrite chat_completion_once_run.
Qed.

(** ** The pipeline *)

Lemma converse_run env self message cid temperature system_prompt w :
  let '(r, w') := ChatManager.converse env self message cid temperature
                    system_prompt w in
  (exists added, msgs (db w') = msgs (db w) ++ added) /\
  match r with
  | Ok res =>
      exists mid body ts stored,
        res = mkResult (Some cid)
                (Some (mkMessage (Some mid) (Some cid) "assistant" body ts))
                true None /\
        In (mkMessageRow mid cid "assistant" body stored) (msgs (db w'))
  | Raise _ => True
  end /\
  (forall umid w2,
      Database.save_message env cid "user" (Some message) w = (Ok umid, w2) ->
      exists t, In (mkMessageRow umid cid "user" message t) (msgs (db w'))).
Proof.
  unfold ChatManager.converse, bind.
  pose proof (save_message_run env cid "user" (Some message) w) as H1.
  cbv zeta in H1.
  destruct (Database.save_message env cid "user" (Some message) w)
    as [[umid|e1] w1].
  2:{ destruct H1 as (_ & _ & _ & ->). repeat split.
      - exists []. now rewrite app_nil_r.
      - discriminate. }
  destruct H1 as (_ & _ & _ & -> & body & [= <-] & Hdb1).
  set (urow := mkMessageRow _ cid "user" message _) in Hdb1.
  pose proof (get_last_n_messages_db env cid 10 w1) as H2.
  destruct (Database.get_last_n_messages env cid 10 w1) as [[last|e2] w2];
    cbn [snd] in H2.
  2:{ rewrite H2, Hdb1. cbn [msgs]. repeat split.
      - now exists [urow].
      - intros ? ? [= <- <-]. eexists. apply in_or_app. right. now left. }
  pose proof (chat_completion_db env (ChatManager.deepseek self)
                (DeepSeekClient.convert_to_api_messages
                   (ChatManager.deepseek self) last)
                temperature system_prompt w2) as H3.
  destruct (DeepSeekClient.chat_completion env _ _ _ _ w2) as [[ai|e3] w3];
    cbn [snd] in H3.
  2:{ rewrite H3, H2, Hdb1. cbn [msgs]. repeat split.
      - now exists [urow].
      - intros ? ? [= <- <-]. eexists. apply in_or_app. right. now left. }
  pose proof (save_message_run env cid "assistant" ai w3) as H4.
  cbv zeta in H4.
  destruct (Database.save_message env cid "assistant" ai w3) as [[amid|e4] w4].
  2:{ destruct H4 as (_ & _ & _ & ->). rewrite H3, H2, Hdb1. cbn [msgs].
      repeat split.
      - now exists [urow].
      - intros ? ? [= <- <-]. eexists. apply in_or_app. right. now left. }
  destruct H4 as (_ & _ & _ & -> & reply & -> & Hdb4).
  set (amid := next_rowid (seq_messages (db w3)) (map m_id (msgs (db w3)))) in *.
  clearbody amid.
  set (arow := mkMessageRow _ cid "assistant" reply _) in Hdb4.
  assert (Hm3 : msgs (db w3) = msgs (db w) ++ [urow])
    by (now rewrite H3, H2, Hdb1).
  unfold datetime_now, lift. cbn [fst snd].
  unfold Message_new. cbn [role_ok String.eqb Ascii.eqb Bool.eqb orb negb].
  destruct (len reply <? 1); unfold tick_reads; cbn [db]; rewrite Hdb4;
    cbn [msgs]; rewrite Hm3.
  - repeat split.
    + exists [urow; arow]. now rewrite <- app_assoc.
    + intros ? ? [= <- <-]. eexists. apply in_or_app. left.
      apply in_or_app. right. now left.
  - repeat split.
    + exists [urow; arow]. now rewrite <- app_assoc.
    + do 4 eexists. split; [reflexivity|].
      apply in_or_app. right. left. reflexivity.
    + intros ? ? [= <- <-]. eexists. apply in_or_app. left.
      apply in_or_app. right. now left.
Qed.

Lemma resolve_chat_run env chat_id user_id message w :
  let '(r, w1) := ChatManager.resolve_chat env chat_id user_id message w in
  msgs (db w1) = msgs (db w) /\
  match r with
  | Ok cid =>
      match chat_id with
      | Some c => cid = c /\ w1 = w
      | None =>
          fst (Database.create_chat env user_id (title_of message) w) = Ok cid
      end
  | Raise e =>
      chat_id = None /\ db w1 = db w /\
      fst (Database.create_chat env user_id (title_of message) w) = Raise e
  end.
Proof.
  unfold ChatManager.resolve_chat. destruct chat_id as [c|].
  - cbn. auto.
  - pose proof (create_chat_run env user_id (title_of message) w) as H.
    cbv zeta in H.
    destruct (Database.create_chat env user_id (title_of message) w)
      as [[cid|e] w1]; cbn [fst].
    + destruct H as (_ & _ & _ & _ & ->). auto.
    + destruct H as (_ & _ & _ & ->). auto.
Qed.

Lemma process_message_returns env self message chat_id temperature
    system_prompt user_id w :
  exists r w',
    ChatManager.process_message env self message chat_id temperature
      system_prompt user_id w = (Ok r, w').
Proof.
  unfold ChatManager.process_message, try_except, bind, ChatManager.failure, ret.
  destruct (ChatManager.resolve_chat env chat_id user_id message w)
    as [[cid|e] w1]; [|eauto].
  destruct (ChatManager.converse env self message cid temperature
              system_prompt w1) as [[res|e] w2]; eauto.
Qed.


(** ** The retry loop around [chat_completion] *)

Lemma wait_schedule :
  tenacity.wait_exponential 1 2 10 1 = 2 /\
  tenacity.wait_exponential 1 2 10 2 = 2 /\
  tenacity.wait_exponential 1 2 10 3 = 4 /\
  tenacity.wait_exponential 1 2 10 4 = 8 /\
  tenacity.wait_exponential 1 2 10 5 = 10.
Proof. repeat split. Qed.

Lemma wait_bounds k : 2 <= tenacity.wait_exponential 1 2 10 k <= 10.
Proof. unfold tenacity.wait_exponential. lia. Qed.

Lemma transient_raise {A} (r : Result A) :
  transient r = true ->
  exists e, r = Raise e /\ tenacity.retry_if_exception_type e = true.
Proof. destruct r as [a|e]; cbn; [discriminate | eauto]. Qed.

Lemma transient_not {A} (r : Result A) :
  transient r = false ->
  match r with
  | Ok _ => True
  | Raise e => tenacity.retry_if_exception_type e = false
  end.
Proof. destruct r; cbn; auto. Qed.

(** C2, as amended. Around one call of [chat_completion] at most three
    requests are sent. An attempt that fails with a connection error or a
    timeout is followed, after a sleep of 2 time units, by the next attempt,
    as long as fewer than three were made; the first attempt that returns, or
    fails otherwise, ends the call with that very result and no further
    request; when the third attempt too fails with a connection error or a
    timeout, the call ends after exactly three requests and two sleeps with a
    [RetryError] that holds this last failure. *)
Theorem chat_completion_retry_policy :
  forall env self messages temperature system_prompt w,
    let request := request_of self messages temperature system_prompt in
    let outcome k := attempt_result self (upstream env (reqs w + k) request) in
    let run := DeepSeekClient.chat_completion env self messages temperature
                 system_prompt w in
    (transient (outcome 0%nat) = false ->
       fst run = outcome 0%nat /\
       reqs (snd run) = (reqs w + 1)%nat /\
       sleeps (snd run) = sleeps w) /\
    (transient (outcome 0%nat) = true ->
     transient (outcome 1%nat) = false ->
       fst run = outcome 1%nat /\
       reqs (snd run) = (reqs w + 2)%nat /\
       sleeps (snd run) = sleeps w ++ [2]) /\
    (transient (outcome 0%nat) = true ->
     transient (outcome 1%nat) = true ->
     transient (outcome 2%nat) = false ->
       fst run = outcome 2%nat /\
       reqs (snd run) = (reqs w + 3)%nat /\
       sleeps (snd run) = sleeps w ++ [2; 2]) /\
    (forall e,
     transient (outcome 0%nat) = true ->
     transient (outcome 1%nat) = true ->
     outcome 2%nat = Raise e ->
     tenacity.retry_if_exception_type e = true ->
       fst run = Raise (RetryError e) /\
       reqs (snd run) = (reqs w + 3)%nat /\
       sleeps (snd run) = sleeps w ++ [2; 2]).
Proof.
  intros env self messages temperature system_prompt w request outcome run.
  assert (Hrun : run =
    match outcome 0%nat with
    | Ok a => (Ok a, tick_reqs w)
    | Raise e0 =>
        if negb (tenacity.retry_if_exception_type e0)
        then (Raise e0, tick_reqs w)
        else
          let w1 := log_sleep 2 (tick_reqs w) in
          match outcome 1%nat with
          | Ok a => (Ok a, tick_reqs w1)
          | Raise e1 =>
              if negb (tenacity.retry_if_exception_type e1)
              then (Raise e1, tick_reqs w1)
              else
                let w2 := log_sleep 2 (tick_reqs w1) in
                match outcome 2%nat with
                | Ok a => (Ok a, tick_reqs w2)
                | Raise e2 =>
                    if negb (tenacity.retry_if_exception_type e2)
                    then (Raise e2, tick_reqs w2)
                    else (Raise (RetryError e2), tick_reqs w2)
                end
          end
    end).
  { unfold run, DeepSeekClient.chat_completion, tenacity.retry.
    change (3 - 1)%nat with 2%nat. cbn [tenacity.attempts].
    rewrite chat_completion_once_run. fold request.
    unfold outcome. rewrite Nat.add_0_r.
    destruct (attempt_result self (upstream env (reqs w) request))
      as [a|e0]; [reflexivity|].
    destruct (tenacity.retry_if_exception_type e0); cbn [negb]; [|reflexivity].
    unfold bind, sleep. cbn [fst snd].
    rewrite chat_completion_once_run. fold request.
    cbn [reqs log_sleep tick_reqs].
    replace (reqs w + 1)%nat with (S (reqs w)) by lia.
    destruct (attempt_result self (upstream env (S (reqs w)) request))
      as [a|e1]; [reflexivity|].
    destruct (tenacity.retry_if_exception_type e1); cbn [negb]; [|reflexivity].
    rewrite chat_completion_once_run. fold request.
    cbn [reqs log_sleep tick_reqs].
    replace (reqs w + 2)%nat with (S (S (reqs w))) by lia.
    destruct (attempt_result self (upstream env (S (S (reqs w))) request))
      as [a|e2]; [reflexivity|].
    now destruct (tenacity.retry_if_exception_type e2). }
  rewrite Hrun. clear Hrun. repeat split.
  all: try (intros e H0 H1 H2 H3 || intros H0 H1 H2 || intros H0 H1 || intros H0).
  all: repeat match goal with
         | H : transient _ = true |- _ =>
             apply transient_raise in H; destruct H as (? & H & ?); rewrite H
         | H : transient ?r = false |- _ =>
             apply transient_not in H; destruct r
         | H : _ = Raise _ |- _ => rewrite H
         | H : tenacity.retry_if_exception_type _ = _ |- _ => rewrite H
         end.
  all: cbn; try reflexivity; try lia.
  all: try (rewrite <- app_assoc; reflexivity).
Qed.

Lemma attempts_ok {A} wait retry_on (fn : M A) remaining k w v :
  fst (tenacity.attempts wait retry_on remaining k fn w) = Ok v ->
  exists w1, fst (fn w1) = Ok v.
Proof.
  revert k w. induction remaining as [|remaining IH]; intros k w; cbn;
    destruct (fn w) as [[a|e] w1] eqn:E; cbn.
  - intros [= <-]. exists w. now rewrite E.
  - destruct (retry_on e); cbn; discriminate.
  - intros [= <-]. exists w. now rewrite E.
  - destruct (retry_on e); cbn; [|discriminate].
    unfold bind, sleep. apply IH.
Qed.

(** With the client [__init__] builds, no call of [chat_completion] returns a
    reply: an answered request ends in the [TypeError] of the [await]. *)
Lemma blocking_client_never_returns env api_key base_url messages temperature
    system_prompt w v :
  fst (DeepSeekClient.chat_completion env (DeepSeekClient.init api_key base_url)
         messages temperature system_prompt w) <> Ok v.
Proof.
  intros H. unfold DeepSeekClient.chat_completion, tenacity.retry in H.
  apply attempts_ok in H. destruct H as (w1 & H).
  rewrite chat_completion_once_run in H. cbn [fst] in H.
  unfold attempt_result in H. cbn in H.
  destruct (upstream env (reqs w1) _); discriminate.
Qed.

Lemma client_health_check_run env self w :
  DeepSeekClient.health_check env self w =
  (Ok (probe_ok self (upstream env (reqs w) health_request)), tick_reqs w).
Proof.
  unfold DeepSeekClient.health_check, try_except, bind, await_create, ret,
    probe_ok. fold health_request.
  destruct (upstream env (reqs w) health_request) as [r|e]; [|reflexivity].
  destruct (DeepSeekClient.client self); [reflexivity|].
  now destruct (choices r).
Qed.

(** With the client [__init__] builds, the client's health check answers
    [False] whatever the upstream does. *)
Lemma blocking_client_health_check env api_key base_url w :
  fst (DeepSeekClient.health_check env (DeepSeekClient.init api_key base_url) w)
  = Ok false.
Proof.
  rewrite client_health_check_run. cbn [fst]. unfold probe_ok. cbn.
  now destruct (upstream env (reqs w) health_request).
Qed.

(** ** Deleting a conversation *)

Lemma rowcount_exists cid l :
  (0 <? Z.of_nat (List.length (filter (fun c => c_id c =? cid) l))) =
  existsb (fun c => c_id c =? cid) l.
Proof.
  induction l as [|x l IH]; cbn; [reflexivity|].
  destruct (c_id x =? cid); cbn [orb]; [|exact IH].
  cbn [List.length]. apply Z.ltb_lt. lia.
Qed.

Lemma find_filter_out cid l :
  find (fun c => c_id c =? cid) (filter (fun c => negb (c_id c =? cid)) l) = None.
Proof.
  induction l as [|x l IH]; cbn; [reflexivity|].
  destruct (c_id x =? cid) eqn:E; cbn; [exact IH|]. now rewrite E.
Qed.

(** [delete_chat] answers whether the conversation existed, removes its row,
    and leaves table [messages] as it was; when it raises nothing changed. *)
Lemma delete_chat_run env cid w :
  let '(r, w') := Database.delete_chat env cid w in
  match r with
  | Ok deleted =>
      deleted = chat_exists (db w) cid /\
      chats (db w') = filter (fun c => negb (c_id c =? cid)) (chats (db w)) /\
      msgs (db w') = msgs (db w)
  | Raise _ => db w' = db w
  end.
Proof.
  run_ops; auto.
  repeat split. apply rowcount_exists.
Qed.

Lemma delete_chat_reliable env cid w :
  reliable env ->
  exists w',
    Database.delete_chat env cid w = (Ok (chat_exists (db w) cid), w') /\
    chats (db w') = filter (fun c => negb (c_id c =? cid)) (chats (db w)) /\
    msgs (db w') = msgs (db w).
Proof.
  intros R. unfold_ops. cbn. repeat (rewrite R; cbn).
  rewrite rowcount_exists. eauto.
Qed.

Lemma delete_chat_then_get_chat env cid w :
  reliable env ->
  fst (Database.get_chat env cid (snd (Database.delete_chat env cid w))) = Ok None.
Proof.
  intros R. rewrite (get_chat_reliable env cid _ R).
  destruct (delete_chat_reliable env cid w R) as (w' & -> & Hc & _).
  cbn [snd]. now rewrite Hc, find_filter_out.
Qed.

(** Had the connection enforced foreign keys, the DELETE would have taken the
    conversation's messages with it. *)
Lemma sql_delete_chat_enforced cid d n d' :
  sql_delete_chat (mkConnection true) cid d = Ok (n, d') ->
  rows_of_chat cid d' = [].
Proof.
  unfold sql_delete_chat, rows_of_chat. cbn. intros [= _ <-]. cbn.
  induction (msgs d) as [|m l IH]; cbn; [reflexivity|].
  destruct (m_chat_id m =? cid) eqn:E; cbn; [exact IH|]. now rewrite E.
Qed.

(** Had the connection enforced foreign keys, the INSERT of a message for a
    conversation that does not exist would have failed. *)
Lemma sql_insert_message_enforced cid r body t d :
  chat_exists d cid = false ->
  sql_insert_message (mkConnection true) cid r (Some body) t d =
  Raise (IntegrityError "FOREIGN KEY constraint failed").
Proof. intros H. unfold sql_insert_message. cbn. now rewrite H. Qed.

Lemma touch_absent t cid l :
  existsb (fun c => c_id c =? cid) l = false -> map (touch t cid) l = l.
Proof.
  induction l as [|x l IH]; cbn; [reflexivity|].
  intros H. apply orb_false_iff in H. destruct H as [Hx Hl].
  unfold touch at 1. rewrite Hx. now rewrite IH.
Qed.

(** [save_message] on a conversation that does not exist: while the storage
    answers, the row is inserted and its id returned; table [chats] is as it
    was. *)
Lemma save_message_orphan env cid r body w :
  reliable env ->
  chat_exists (db w) cid = false ->
  exists mid w',
    Database.save_message env cid r (Some body) w = (Ok mid, w') /\
    chats (db w') = chats (db w) /\
    msgs (db w') =
      msgs (db w) ++ [mkMessageRow mid cid r body (now_at env (reads w))].
Proof.
  intros R H.
  destruct (save_message_reliable env cid r body w R) as (w' & Hs & Hdb).
  cbv zeta in Hs, Hdb. do 2 eexists. split; [exact Hs|].
  rewrite Hdb. cbn. split; [|reflexivity]. now apply touch_absent.
Qed.

(** ** A new conversation and its title *)

Lemma keeps_refl d : keeps d d.
Proof. intros c Hc. eauto. Qed.

Lemma keeps_trans d1 d2 d3 : keeps d1 d2 -> keeps d2 d3 -> keeps d1 d3.
Proof.
  intros H12 H23 c Hc.
  destruct (H12 c Hc) as (c2 & Hc2 & Hi & Hu & Ht).
  destruct (H23 c2 Hc2) as (c3 & Hc3 & Hi3 & Hu3 & Ht3).
  exists c3. repeat split; congruence.
Qed.

(** The frame rule of [bind] for a reflexive and transitive relation between
    the database before and after. *)
Lemma bind_frame {A B} (P : DB -> DB -> Prop) (c : M A) (k : A -> M B) :
  (forall d1 d2 d3, P d1 d2 -> P d2 d3 -> P d1 d3) ->
  (forall w, P (db w) (db (snd (c w)))) ->
  (forall a w, P (db w) (db (snd (k a w)))) ->
  forall w, P (db w) (db (snd (bind c k w))).
Proof.
  intros Ht Hc Hk w. unfold bind. specialize (Hc w).
  destruct (c w) as [[a|e] w1]; cbn [snd] in *; [|exact Hc].
  eapply Ht; [exact Hc | apply Hk].
Qed.

Lemma save_message_keeps env cid r body w :
  keeps (db w) (db (snd (Database.save_message env cid r body w))).
Proof.
  pose proof (save_message_run env cid r body w) as H. cbv zeta in H.
  destruct (Database.save_message env cid r body w) as [[mid|e] w'];
    cbn [snd].
  - destruct H as (_ & _ & _ & _ & s & _ & ->). intros c Hc.
    exists (touch (now_at env (reads w)) cid c). cbn [chats].
    split; [now apply in_map|].
    unfold touch. now destruct (c_id c =? cid).
  - destruct H as (_ & _ & _ & ->). apply keeps_refl.
Qed.

Lemma converse_keeps env self message cid temperature system_prompt w :
  keeps (db w)
    (db (snd (ChatManager.converse env self message cid temperature
                system_prompt w))).
Proof.
  unfold ChatManager.converse.
  apply bind_frame; [exact keeps_trans | apply save_message_keeps |].
  intros _ w1.
  apply bind_frame; [exact keeps_trans | |].
  { intros w2. rewrite get_last_n_messages_db. apply keeps_refl. }
  intros last w2.
  apply bind_frame; [exact keeps_trans | |].
  { intros w3. rewrite chat_completion_db. apply keeps_refl. }
  intros ai w3.
  apply bind_frame; [exact keeps_trans | apply save_message_keeps |].
  intros amid w4.
  apply bind_frame; [exact keeps_trans | intros; apply keeps_refl |].
  intros now w5.
  apply bind_frame; [exact keeps_trans | |].
  { intros w6. unfold lift. cbn. apply keeps_refl. }
  intros reply w6. cbn. apply keeps_refl.
Qed.

Lemma max_rowid_ge x ids : In x ids -> x <= max_rowid ids.
Proof.
  unfold max_rowid. induction ids as [|y ids IH]; cbn; [tauto|].
  intros [->|H]; [lia | specialize (IH H); lia].
Qed.

Lemma next_rowid_fresh s ids : ~ In (next_rowid s ids) ids.
Proof.
  intros H. apply max_rowid_ge in H. unfold next_rowid in H. lia.
Qed.

Lemma substring_prefix n s :
  (n <= String.length s)%nat ->
  String.length (substring 0 n s) = n /\
  exists rest, s = String.append (substring 0 n s) rest.
Proof.
  revert s. induction n as [|n IH]; intros s Hn.
  - destruct s; cbn; split; eauto.
  - destruct s as [|c s]; cbn in Hn; [lia|].
    destruct (IH s) as (Hl & rest & Hr); [lia|].
    cbn. split; [now rewrite Hl|]. exists rest. now rewrite <- Hr.
Qed.

(** C7. When [process_message] is called without a conversation id and the
    storage answers the three operations of the creation, a conversation is
    created under an id no conversation had; the result carries this id, and
    the conversation is stored with the title: the message itself when it has
    at most 50 characters, else its first 50 characters followed by
    three dots. *)
Theorem new_conversation_title :
  forall env self message temperature system_prompt user_id w,
    storage_up env w 3 ->
    exists r w' cid row,
      ChatManager.process_message env self message None temperature
        system_prompt user_id w = (Ok r, w') /\
      r_chat_id r = Some cid /\
      ~ In cid (map c_id (chats (db w))) /\
      In row (chats (db w')) /\
      c_id row = cid /\
      c_title row = title_of message /\
      (len message <= 50 -> c_title row = message) /\
      (50 < len message ->
         c_title row = String.append (substring 0 50 message) "..." /\
         len (substring 0 50 message) = 50 /\
         exists rest, message = String.append (substring 0 50 message) rest).
Proof.
  intros env self message temperature system_prompt user_id w Hup.
  destruct (create_chat_up env user_id (title_of message) w Hup)
    as (cid & w1 & Hcreate).
  pose proof (create_chat_run env user_id (title_of message) w) as Hrun.
  cbv zeta in Hrun. rewrite Hcreate in Hrun.
  destruct Hrun as (_ & _ & _ & Hcid & Hdb1).
  pose proof (converse_keeps env self message cid temperature system_prompt w1)
    as Hkeep.
  pose proof (converse_run env self message cid temperature system_prompt w1)
    as Hconv.
  set (new := mkChatRow cid user_id (title_of message) (now_at env (reads w))
                (now_at env (reads w))).
  assert (Hnew : In new (chats (db w1))).
  { rewrite Hdb1. cbn [chats]. apply in_or_app. right. left.
    unfold new. now rewrite Hcid. }
  destruct (Hkeep new Hnew) as (row & Hrow & Hid & _ & Httl).
  assert (Htitle :
    (len message <= 50 -> title_of message = message) /\
    (50 < len message ->
       title_of message = String.append (substring 0 50 message) "..." /\
       len (substring 0 50 message) = 50 /\
       exists rest, message = String.append (substring 0 50 message) rest)).
  { unfold title_of. destruct (Z.ltb_spec 50 (len message)) as [Hlt|Hle].
    - split; [lia|]. intros _. split; [reflexivity|].
      destruct (substring_prefix 50 message) as (Hl & Hrest).
      + unfold len in Hlt. lia.
      + split; [unfold len; rewrite Hl; reflexivity | exact Hrest].
    - split; [reflexivity | lia]. }
  assert (Hfresh : ~ In cid (map c_id (chats (db w))))
    by (rewrite Hcid; apply next_rowid_fresh).
  unfold ChatManager.process_message, try_except, bind.
  unfold ChatManager.resolve_chat. rewrite Hcreate.
  destruct (ChatManager.converse env self message cid temperature
              system_prompt w1) as [[res|e] w2]; cbn [snd] in Hkeep, Hrow.
  - destruct Hconv as (_ & (mid & body & ts & stored & -> & _) & _).
    exists (mkResult (Some cid)
              (Some (mkMessage (Some mid) (Some cid) "assistant" body ts))
              true None), w2, cid, row.
    cbn [r_chat_id]. rewrite Httl. cbn [c_title new].
    repeat split; auto; apply Htitle; assumption.
  - exists (mkResult (Some cid) None false (Some (str e))), w2, cid, row.
    cbn [r_chat_id]. rewrite Httl. cbn [c_title new].
    repeat split; auto; apply Htitle; assumption.
Qed.

(** ** The boundary: validation of a chat request *)

Lemma outside_not_within t :
  temperature_outside t ->
  float_le float_0_0 t = false \/ float_le t float_1_0 = false.
Proof.
  unfold temperature_outside, float_0_0, float_1_0.
  destruct t as [q| | |]; cbn; intros [H|H]; try discriminate; auto.
  - left. now apply negb_true_iff in H.
  - right. now apply negb_true_iff in H.
Qed.

Lemma chat_rejects env chat_manager body w e :
  ChatRequest_validate body = Raise e ->
  routes.chat env chat_manager body w = (Ok (routes.UnprocessableEntity (str e)), w).
Proof. intros H. unfold routes.chat. now rewrite H. Qed.

Lemma chat_enters env chat_manager body w request :
  ChatRequest_validate body = Ok request ->
  forall detail w',
    routes.chat env chat_manager body w <>
    (Ok (routes.UnprocessableEntity detail), w').
Proof.
  intros H detail w'. unfold routes.chat. rewrite H. unfold bind.
  destruct (process_message_returns env chat_manager (req_message request)
              (req_chat_id request) (req_temperature request)
              (req_system_prompt request) None w) as (r & w1 & ->).
  destruct (r_success r); cbn [negb]; [|discriminate].
  destruct (r_chat_id r), (r_message r); discriminate.
Qed.

(** C8. A body whose message has exactly 10000 characters, with a
    temperature within [0.0, 1.0] or none, validates as a [ChatRequest]
    carrying that message, and the handler is entered. A body whose message
    is empty, or has 10001 characters or more, or whose temperature is below
    0.0 or above 1.0, is answered with the validation error, and the world is
    untouched: no storage operation, no upstream request. *)
Theorem chat_request_bounds :
  forall env chat_manager body w,
    (forall m,
       body_message body = Some m ->
       len m = 10000 ->
       temperature_within (body_temperature body) ->
       exists request,
         ChatRequest_validate body = Ok request /\
         req_message request = m /\
         forall detail w',
           routes.chat env chat_manager body w <>
           (Ok (routes.UnprocessableEntity detail), w')) /\
    (body_message body = Some "" \/
     (exists m, body_message body = Some m /\ 10001 <= len m) \/
     (exists t, body_temperature body = Some t /\ temperature_outside t) ->
     exists e,
       ChatRequest_validate body = Raise (ValidationError e) /\
       routes.chat env chat_manager body w =
       (Ok (routes.UnprocessableEntity e), w)).
Proof.
  intros env chat_manager body w. split.
  - intros m Hm Hlen Ht.
    assert (Hv : exists request,
               ChatRequest_validate body = Ok request /\
               req_message request = m).
    { unfold ChatRequest_validate. rewrite Hm.
      destruct (Z.ltb_spec (len m) 1); [lia|].
      destruct (Z.ltb_spec 10000 (len m)); [lia|].
      unfold temperature_within in Ht.
      destruct (body_temperature body) as [t|].
      - destruct Ht as [-> ->]. cbn. eauto.
      - cbn. eauto. }
    destruct Hv as (request & Hv & Hreq). exists request.
    repeat split; trivial. now apply (chat_enters env chat_manager body w request).
  - intros Hbad.
    assert (Hv : exists e, ChatRequest_validate body = Raise (ValidationError e)).
    { unfold ChatRequest_validate.
      destruct Hbad as [Hm|[(m & Hm & Hlen)|(t & Ht & Hout)]].
      - rewrite Hm. cbn. eauto.
      - rewrite Hm. destruct (len m <? 1); [eauto|].
        destruct (Z.ltb_spec 10000 (len m)); [eauto | lia].
      - destruct (body_message body) as [m|]; [|eauto].
        destruct (len m <? 1); [eauto|].
        destruct (10000 <? len m); [eauto|].
        rewrite Ht. destruct (outside_not_within t Hout) as [->| ->].
        + cbn. eauto.
        + destruct (float_le float_0_0 t); cbn; eauto. }
    destruct Hv as (e & Hv). exists e. split; [exact Hv|].
    now rewrite (chat_rejects env chat_manager body w _ Hv).
Qed.

(** ** Health *)

Lemma init_db_run env w :
  let '(r, w') := Database.init_db env w in
  db w' = db w /\ reqs w' = reqs w /\ sleeps w' = sleeps w /\ reads w' = reads w.
Proof. run_ops; auto. Qed.


(** C9. [health_check] of the manager returns a status for the database and
    one for the API, each "ok" or "error". The database status reports
    whether [init_db] went through; the API status reports what the client's
    check made of the upstream's answer to the probe; the probe is sent
    whether or not the storage failed, and the database is as it was. The
    client's own check never raises. With the storage reachable and the
    upstream failing, the result is database "ok", API "error". *)
Theorem health_check_reports_both :
  forall env self w,
    let probe := upstream env (reqs w) health_request in
    exists st w',
      ChatManager.health_check env self w = (Ok st, w') /\
      database st = match fst (Database.init_db env w) with
                    | Ok _ => "ok"
                    | Raise _ => "error"
                    end /\
      deepseek_api st = (if probe_ok (ChatManager.deepseek self) probe
                         then "ok" else "error") /\
      reqs w' = S (reqs w) /\
      db w' = db w /\
      (forall w1, exists b,
          fst (DeepSeekClient.health_check env (ChatManager.deepseek self) w1)
          = Ok b) /\
      (forall e,
          fst (Database.init_db env w) = Ok tt ->
          probe = Fails e ->
          st = mkStatus "ok" "error").
Proof.
  intros env self w probe.
  unfold ChatManager.health_check, try_except, bind, ret.
  pose proof (init_db_run env w) as Hinit.
  destruct (Database.init_db env w) as [[[]|e0] w1];
    destruct Hinit as (Hdb & Hreqs & _ & _);
    rewrite client_health_check_run; rewrite Hreqs; fold probe;
    cbn [database deepseek_api fst].
  all: do 2 eexists; split; [reflexivity|].
  all: cbn [database deepseek_api reqs db tick_reqs].
  all: repeat split; trivial; try congruence.
  all: try (intros w2; rewrite client_health_check_run; cbn [fst]; eauto; fail).
  intros e _ Hp. now rewrite Hp.
Qed.

(** ** Listing conversations *)

Lemma get_chats_list_reliable env limit offset user_id w :
  reliable env ->
  fst (Database.get_chats_list env limit offset user_id w) =
  Ok (fst (match sql_select_chats
                   match user_id with
                   | Some u => if String.eqb u "" then None else Some u
                   | None => None
                   end limit offset (db w) with
           | Ok p => p
           | Raise _ => ([], db w)
           end)).
Proof.
  intros R. unfold_ops. cbn. repeat (rewrite R; cbn). reflexivity.
Qed.

(** C10. [get_chats_list] with the empty string as [user_id] is
    [get_chats_list] without [user_id], in the store and through the manager;
    while the storage answers, what it returns is the page cut out of all
    conversations, whoever owns them, newest update first. *)
Theorem empty_owner_is_no_filter :
  forall env limit offset w,
    Database.get_chats_list env limit offset (Some "") w =
    Database.get_chats_list env limit offset None w /\
    (forall self,
       ChatManager.get_chats_list env self limit offset (Some "") w =
       ChatManager.get_chats_list env self limit offset None w) /\
    (reliable env ->
       fst (Database.get_chats_list env limit offset (Some "") w) =
       Ok (sql_limit limit (sql_offset offset
             (order_by (desc s_updated_at)
                (map (summary_of (db w)) (chats (db w))))))).
Proof.
  intros env limit offset w. repeat split.
  intros R. now rewrite (get_chats_list_reliable env limit offset (Some "") w R).
Qed.

(** * The claims at concrete inputs *)

Lemma env_ok_reliable reply : reliable (env_ok reply).
Proof. intros k. reflexivity. Defined.

Lemma clock_is_monotone : forall i j, (i <= j)%nat -> clock i <= clock j.
Proof. intros i j H. unfold clock. lia. Defined.


(** With the storage down and no conversation id given, the failure carries
    no conversation id and nothing is stored. *)
Lemma process_message_storage_down :
  let run := ChatManager.process_message env_storage_down manager "Hello" None
               float_0_7 None None w0 in
  fst run = Ok (mkResult None None false (Some "unable to open database file")) /\
  db (snd run) = empty_db /\
  reqs (snd run) = 0%nat.
Proof. vm_compute. repeat split. Qed.

(** With the storage down the API is probed all the same. *)
Lemma health_check_storage_down :
  let run := ChatManager.health_check env_storage_down manager_async w0 in
  fst run = Ok (mkStatus "error" "ok") /\ reqs (snd run) = 1%nat.
Proof. vm_compute. repeat split. Qed.

(** C2 at concrete inputs: two timeouts and then an answer, with an
    [AsyncOpenAI] client; and nothing but timeouts. *)
Lemma chat_completion_retry_policy_witness :
  (let run := DeepSeekClient.chat_completion (env_flaky "pong")
                (ChatManager.deepseek manager_async) [mkApi "user" "ping"]
                float_0_7 None w0 in
   fst run = Ok (Some "pong") /\
   reqs (snd run) = 3%nat /\ sleeps (snd run) = [2; 2]) /\
  (let run := DeepSeekClient.chat_completion env_timeouts
                (ChatManager.deepseek manager) [mkApi "user" "ping"]
                float_0_7 None w0 in
   fst run = Raise (RetryError APITimeoutError) /\
   reqs (snd run) = 3%nat /\ sleeps (snd run) = [2; 2]).
Proof.
  split.
  - apply (proj1 (proj2 (proj2
      (chat_completion_retry_policy (env_flaky "pong")
         (ChatManager.deepseek manager_async) [mkApi "user" "ping"]
         float_0_7 None w0)))); reflexivity.
  - apply (proj2 (proj2 (proj2
      (chat_completion_retry_policy env_timeouts
         (ChatManager.deepseek manager) [mkApi "user" "ping"]
         float_0_7 None w0))) APITimeoutError); reflexivity.
Defined.

(** C2 as stated fails when every attempt times out: what reaches the caller
    is not the timeout but a [RetryError], which the retry predicate itself
    does not count as a connection error or a timeout; and the two sleeps are
    of 2 and 2 time units, not 2 and 4. *)
Lemma chat_completion_exhausted_counterexample :
  let run := DeepSeekClient.chat_completion env_timeouts
               (ChatManager.deepseek manager) [mkApi "user" "ping"]
               float_0_7 None w0 in
  fst run = Raise (RetryError APITimeoutError) /\
  fst run <> Raise APITimeoutError /\
  tenacity.retry_if_exception_type (RetryError APITimeoutError) = false /\
  reqs (snd run) = 3%nat /\
  sleeps (snd run) = [2; 2] /\
  sleeps (snd run) <> [2; 4].
Proof.
  vm_compute. repeat split; discriminate.
Qed.

(** With the client [__init__] builds, two timeouts and then an answer end in
    the [TypeError] of the third attempt. *)
Lemma blocking_client_third_attempt :
  let run := DeepSeekClient.chat_completion (env_flaky "pong")
               (ChatManager.deepseek manager) [mkApi "user" "ping"]
               float_0_7 None w0 in
  fst run =
    Raise (TypeError "object ChatCompletion can't be used in 'await' expression") /\
  reqs (snd run) = 3%nat.
Proof. vm_compute. split; reflexivity. Qed.

(** C3 at a concrete input: an append to conversation 1 of the sample
    store. *)
Lemma save_message_atomic_touch_witness :
  clock_monotone (env_ok "Hi!") /\
  clock_ahead (env_ok "Hi!") w_two_chats /\
  updated_at_of (db w_two_chats) 1 = Some 3 /\
  exists u',
    updated_at_of
      (db (appends (env_ok "Hi!")
             [(1, "user", Some "More"); (1, "assistant", Some "Sure")]
             w_two_chats)) 1 = Some u' /\
    3 <= u'.
Proof.
  assert (Hm : clock_monotone (env_ok "Hi!")) by exact clock_is_monotone.
  assert (Ha : clock_ahead (env_ok "Hi!") w_two_chats).
  { split; cbn; intros x Hx;
      repeat (destruct Hx as [<-|Hx]; [cbn; lia|]); destruct Hx. }
  split; [exact Hm|]. split; [exact Ha|]. split; [reflexivity|].
  exact (proj2 (proj2 (save_message_atomic_touch (env_ok "Hi!") 1 "user"
                         (Some "More") w_two_chats) Hm Ha)
           [(1, "assistant", Some "Sure")] 1 3 eq_refl).
Defined.

(** C3 as stated fails when the clock is set back between two appends, both
    of which return: the conversation's [updated_at] goes from 100 to 99 and
    then to 98, and after the second append it is behind the message
    stamped 99. *)
Lemma save_message_clock_back_counterexample :
  let created := Database.create_chat env_clock_back None "Back" w0 in
  let first := Database.save_message env_clock_back 1 "user" (Some "first")
                 (snd created) in
  let second := Database.save_message env_clock_back 1 "user" (Some "second")
                  (snd first) in
  fst created = Ok 1 /\ fst first = Ok 1 /\ fst second = Ok 2 /\
  updated_at_of (db (snd created)) 1 = Some 100 /\
  updated_at_of (db (snd first)) 1 = Some 99 /\
  updated_at_of (db (snd second)) 1 = Some 98 /\
  msgs (db (snd second)) =
    [mkMessageRow 1 1 "user" "first" 99; mkMessageRow 2 1 "user" "second" 98] /\
  snd second =
    appends env_clock_back
      [(1, "user", Some "first"); (1, "user", Some "second")] (snd created) /\
  ~ (100 <= 99) /\ ~ (99 <= 98).
Proof.
  intros created first second.
  repeat (split; [vm_compute; reflexivity|]). split; lia.
Qed.

(** C4 at a concrete input: the newest message of conversation 1 of the
    sample store. *)
Lemma get_last_n_messages_suffix_witness :
  reliable (env_ok "Hi!") /\
  0 <= 1 /\
  Forall row_valid (rows_of_chat 1 (db w_two_chats)) /\
  NoDup (map m_timestamp (rows_of_chat 1 (db w_two_chats))) /\
  exists result,
    fst (Database.get_last_n_messages (env_ok "Hi!") 1 1 w_two_chats) = Ok result /\
    result = [mkMessage (Some 2) (Some 1) "assistant" "Hi!" 3].
Proof.
  assert (Hr : reliable (env_ok "Hi!")) by exact (env_ok_reliable "Hi!").
  assert (Hn : 0 <= 1) by lia.
  assert (Hv : Forall row_valid (rows_of_chat 1 (db w_two_chats))).
  { cbn. repeat constructor; cbn; lia. }
  assert (Hd : NoDup (map m_timestamp (rows_of_chat 1 (db w_two_chats)))).
  { cbn. repeat constructor; cbn; intuition lia. }
  repeat (split; [assumption|]).
  destruct (get_last_n_messages_suffix (env_ok "Hi!") 1 1 w_two_chats Hr Hn Hv)
    as (result & Heq & _ & _ & _ & Hsuffix).
  exists result. split; [exact Heq|].
  rewrite (Hsuffix Hd). reflexivity.
Defined.

(** C4 as stated fails when two messages of a conversation carry the same
    timestamp: [get_chat] returns "first", "second"; the suffix of length 1
    is "second"; [get_last_n_messages] with [n = 1] returns "first". *)
Lemma get_last_n_messages_tie_counterexample :
  let first := mkMessage (Some 1) (Some 1) "user" "first" 1 in
  let second := mkMessage (Some 2) (Some 1) "user" "second" 1 in
  fst (Database.get_chat env_coarse_clock 1 w_tie) =
    Ok (Some (mkChat (Some 1) None "Ties" 0 1 [first; second])) /\
  fst (Database.get_last_n_messages env_coarse_clock 1 1 w_tie) = Ok [first] /\
  skipn (2 - 1) [first; second] = [second] /\
  [first] <> [second].
Proof.
  vm_compute. repeat split. discriminate.
Qed.

(** C5 on the code: conversation 1 of the sample store is deleted.
    [delete_chat] returns [True], the row of the conversation is gone,
    [get_chat] no longer finds it and the list no longer shows it; its two
    messages are still stored, and [get_last_n_messages] still returns
    them. *)
Theorem delete_chat_leaves_messages :
  let env := env_ok "Hi!" in
  let run := Database.delete_chat env 1 w_two_chats in
  let w' := snd run in
  fst run = Ok true /\
  map c_id (chats (db w')) = [2] /\
  fst (Database.get_chat env 1 w') = Ok None /\
  option_map (map s_id)
    (match fst (Database.get_chats_list env 50 0 None w') with
     | Ok l => Some l
     | Raise _ => None
     end) = Some [2] /\
  msgs (db w') = msgs (db w_two_chats) /\
  rows_of_chat 1 (db w') =
    [mkMessageRow 1 1 "user" "Hello" 2; mkMessageRow 2 1 "assistant" "Hi!" 3] /\
  fst (Database.get_last_n_messages env 1 10 w') =
    Ok [mkMessage (Some 1) (Some 1) "user" "Hello" 2;
        mkMessage (Some 2) (Some 1) "assistant" "Hi!" 3].
Proof.
  vm_compute. repeat split.
Qed.

(** C6 on the code: a message is saved for conversation 42 in an empty
    store. [save_message] returns the id of the new row; the row is stored
    and no conversation exists. *)
Theorem save_message_unknown_chat :
  let run := Database.save_message (env_ok "Hi!") 42 "user" (Some "hi") w0 in
  fst run = Ok 1 /\
  chats (db (snd run)) = [] /\
  msgs (db (snd run)) = [mkMessageRow 1 42 "user" "hi" 1].
Proof.
  vm_compute. repeat split.
Qed.

(** C7 at a concrete input: "Hello" without a conversation id. *)
Lemma new_conversation_title_witness :
  storage_up (env_ok "Hi!") w0 3 /\
  exists r w' cid row,
    ChatManager.process_message (env_ok "Hi!") manager "Hello" None float_0_7
      None None w0 = (Ok r, w') /\
    r_chat_id r = Some cid /\
    In row (chats (db w')) /\
    c_id row = cid /\
    c_title row = "Hello".
Proof.
  assert (Hup : storage_up (env_ok "Hi!") w0 3) by (intros k _; reflexivity).
  split; [exact Hup|].
  destruct (new_conversation_title (env_ok "Hi!") manager "Hello" float_0_7
              None None w0 Hup)
    as (r & w' & cid & row & Heq & Hcid & _ & Hin & Hid & Ht & _).
  exists r, w', cid, row. repeat (split; [assumption|]).
  rewrite Ht. reflexivity.
Defined.

(** C8 at concrete inputs: a message of 10000 characters, and one of
    10001. *)
Lemma chat_request_bounds_witness :
  len (message_10000) = 10000 /\
  (exists request,
     ChatRequest_validate
       (mkBody (Some (message_10000)) (Some 1) None None) = Ok request /\
     req_message request = message_10000) /\
  10001 <= len (message_10001) /\
  (exists e,
     routes.chat (env_ok "Hi!") manager
       (mkBody (Some (message_10001)) (Some 1) None None) w_two_chats =
     (Ok (routes.UnprocessableEntity e), w_two_chats)).
Proof.
  assert (H1 : len (message_10000) = 10000) by (vm_compute; reflexivity).
  assert (H2 : 10001 <= len (message_10001))
    by (apply Z.leb_le; vm_compute; reflexivity).
  split; [exact H1|]. split; [|split; [exact H2|]].
  - destruct (proj1 (chat_request_bounds (env_ok "Hi!") manager
                (mkBody (Some (message_10000)) (Some 1) None None)
                w_two_chats)
              (message_10000) eq_refl H1 I)
      as (request & Hv & Hm & _).
    exists request. split; assumption.
  - destruct (proj2 (chat_request_bounds (env_ok "Hi!") manager
                (mkBody (Some (message_10001)) (Some 1) None None)
                w_two_chats)
              (or_intror (or_introl
                 (ex_intro _ (message_10001) (conj eq_refl H2)))))
      as (e & _ & Hc).
    exists e. exact Hc.
Defined.

(** C9 at a concrete input: storage reachable, upstream unreachable. *)
Lemma health_check_reports_both_witness :
  fst (Database.init_db env_unreachable w0) = Ok tt /\
  upstream env_unreachable (reqs w0) health_request = Fails APIConnectionError /\
  exists w',
    ChatManager.health_check env_unreachable manager w0 =
    (Ok (mkStatus "ok" "error"), w').
Proof.
  assert (H1 : fst (Database.init_db env_unreachable w0) = Ok tt)
    by (vm_compute; reflexivity).
  assert (H2 : upstream env_unreachable (reqs w0) health_request =
               Fails APIConnectionError) by reflexivity.
  split; [exact H1|]. split; [exact H2|].
  destruct (health_check_reports_both env_unreachable manager w0)
    as (st & w' & Heq & _ & _ & _ & _ & _ & Hscenario).
  exists w'. rewrite Heq. now rewrite (Hscenario APIConnectionError H1 H2).
Defined.

(** C10 at a concrete input: the sample store has a conversation of "ann"
    and one of "bob"; the empty string lists both. *)
Lemma empty_owner_is_no_filter_witness :
  reliable (env_ok "Hi!") /\
  fst (Database.get_chats_list (env_ok "Hi!") 50 0 (Some "") w_two_chats) =
  Ok [mkSummary 2 (Some "bob") "Other" 4 4 0;
      mkSummary 1 (Some "ann") "Hello" 1 3 2].
Proof.
  split; [exact (env_ok_reliable "Hi!")|].
  rewrite (proj2 (proj2 (empty_owner_is_no_filter (env_ok "Hi!") 50 0
                           w_two_chats)) (env_ok_reliable "Hi!")).
  reflexivity.
Defined.

(** * Further properties of the code *)

(** ** Creating conversations *)

Lemma create_chat_reliable env user_id title w :
  reliable env ->
  let t := now_at env (reads w) in
  let cid := next_rowid (seq_chats (db w)) (map c_id (chats (db w))) in
  exists w',
    Database.create_chat env user_id title w = (Ok cid, w') /\
    db w' = mkDB (chats (db w) ++ [mkChatRow cid user_id title t t])
                 (msgs (db w)) cid (seq_messages (db w)).
Proof.
  intros R. unfold_ops. cbn. repeat (rewrite R; cbn). eauto.
Qed.

Lemma next_rowid_above_seq s ids : s < next_rowid s ids.
Proof. unfold next_rowid. lia. Qed.

(** X1. [create_chat] either raises and leaves the database as it was, or
    returns an id no conversation has, above every id ever issued, and has
    appended one conversation with that id, the given owner and title, and
    [created_at = updated_at]; the messages are untouched. It returns when
    the storage answers its three operations. *)
Theorem create_chat_fresh :
  forall env user_id title w,
    let run := Database.create_chat env user_id title w in
    let t := now_at env (reads w) in
    match fst run with
    | Raise _ => db (snd run) = db w
    | Ok cid =>
        ~ In cid (map c_id (chats (db w))) /\
        seq_chats (db w) < cid /\
        chats (db (snd run)) =
          chats (db w) ++ [mkChatRow cid user_id title t t] /\
        msgs (db (snd run)) = msgs (db w)
    end /\
    (storage_up env w 3 -> exists cid, fst run = Ok cid).
Proof.
  intros env user_id title w run t. split.
  - pose proof (create_chat_run env user_id title w) as H. cbv zeta in H.
    fold run in H. destruct run as [[cid|e] w']; cbn [fst snd];
      destruct H as (_ & _ & _ & H); [|exact H].
    destruct H as [-> Hdb]. rewrite Hdb. cbn [chats msgs].
    repeat split.
    + apply next_rowid_fresh.
    + apply next_rowid_above_seq.
  - intros Hup.
    destruct (create_chat_up env user_id title w Hup) as (cid & w' & H).
    exists cid. unfold run. now rewrite H.
Qed.

Lemma create_chat_fresh_witness :
  storage_up (env_ok "Hi!") w_two_chats 3 /\
  fst (Database.create_chat (env_ok "Hi!") (Some "cy") "Third" w_two_chats) = Ok 3.
Proof.
  assert (Hup : storage_up (env_ok "Hi!") w_two_chats 3)
    by (intros k _; reflexivity).
  split; [exact Hup|].
  destruct (proj2 (create_chat_fresh (env_ok "Hi!") (Some "cy") "Third"
                     w_two_chats) Hup) as (cid & H).
  rewrite H. vm_compute in H. symmetry. exact H.
Defined.

Lemma delete_chat_seq env cid w :
  seq_chats (db (snd (Database.delete_chat env cid w))) = seq_chats (db w).
Proof. run_ops; auto. Qed.

Lemma deletes_seq env ids w :
  seq_chats (db (deletes env ids w)) = seq_chats (db w).
Proof.
  revert w. induction ids as [|i ids IH]; intros w; cbn; [reflexivity|].
  now rewrite IH, delete_chat_seq.
Qed.

(** X2. The id of a conversation is never given out again: whatever
    conversations are deleted after a [create_chat], the newest one
    included, the next [create_chat] returns a larger id. *)
Theorem chat_ids_never_reused :
  forall env user1 title1 user2 title2 ids w,
    reliable env ->
    let first := Database.create_chat env user1 title1 w in
    let later := Database.create_chat env user2 title2
                   (deletes env ids (snd first)) in
    exists id1 id2,
      fst first = Ok id1 /\ fst later = Ok id2 /\ id1 < id2.
Proof.
  intros env user1 title1 user2 title2 ids w R first later.
  destruct (create_chat_reliable env user1 title1 w R) as (w1 & H1 & Hdb1).
  cbv zeta in H1, Hdb1.
  destruct (create_chat_reliable env user2 title2 (deletes env ids w1) R)
    as (w2 & H2 & _).
  cbv zeta in H2. unfold later, first. rewrite H1. cbn [snd fst].
  rewrite H2. cbn [fst]. do 2 eexists. repeat split.
  rewrite deletes_seq, Hdb1. cbn [seq_chats].
  apply next_rowid_above_seq.
Qed.

Lemma chat_ids_never_reused_witness :
  reliable (env_ok "Hi!") /\
  fst (Database.create_chat (env_ok "Hi!") None "A" w_two_chats) = Ok 3 /\
  fst (Database.create_chat (env_ok "Hi!") None "B"
         (deletes (env_ok "Hi!") [3; 1]
            (snd (Database.create_chat (env_ok "Hi!") None "A" w_two_chats))))
  = Ok 4.
Proof.
  split; [exact (env_ok_reliable "Hi!")|].
  destruct (chat_ids_never_reused (env_ok "Hi!") None "A" None "B" [3; 1]
              w_two_chats (env_ok_reliable "Hi!")) as (id1 & id2 & H1 & H2 & _).
  split.
  - rewrite H1. vm_compute in H1. symmetry. exact H1.
  - rewrite H2. vm_compute in H2. symmetry. exact H2.
Defined.

(** ** Writing a message and reading it back *)

Lemma rows_of_chat_saved cid cs ms s1 s2 row :
  m_chat_id row = cid ->
  rows_of_chat cid (mkDB cs (ms ++ [row]) s1 s2) =
  rows_of_chat cid (mkDB cs ms s1 s2) ++ [row].
Proof.
  intros H. unfold rows_of_chat. cbn [msgs]. rewrite filter_app. cbn.
  now rewrite H, Z.eqb_refl.
Qed.

Lemma rows_of_chat_msgs cid d cs s1 s2 :
  rows_of_chat cid (mkDB cs (msgs d) s1 s2) = rows_of_chat cid d.
Proof. reflexivity. Qed.

(** X3. Round trip: while the storage answers, after [save_message] of a
    well-formed message into an existing conversation whose stored rows are
    well-formed, [get_chat] returns the conversation with one message more,
    among them the saved one under the returned id with the same role and
    content, and with [updated_at] equal to that message's timestamp. *)
Theorem save_message_then_get_chat :
  forall env cid r body w row,
    reliable env ->
    find (fun c => c_id c =? cid) (chats (db w)) = Some row ->
    Forall row_valid (rows_of_chat cid (db w)) ->
    role_ok r = true ->
    1 <= len body ->
    let t := now_at env (reads w) in
    exists mid w1 chat,
      Database.save_message env cid r (Some body) w = (Ok mid, w1) /\
      fst (Database.get_chat env cid w1) = Ok (Some chat) /\
      In (mkMessage (Some mid) (Some cid) r body t) (messages chat) /\
      List.length (messages chat) = S (List.length (rows_of_chat cid (db w))) /\
      updated_at chat = t /\
      title chat = c_title row.
Proof.
  intros env cid r body w row R Hrow Hvalid Hr Hb t.
  destruct (save_message_reliable env cid r body w R) as (w1 & Hs & Hdb).
  cbv zeta in Hs, Hdb. fold t in Hdb.
  set (mid := next_rowid (seq_messages (db w)) (map m_id (msgs (db w)))) in *.
  set (new := mkMessageRow mid cid r body t) in *.
  assert (Hrows : rows_of_chat cid (db w1) = rows_of_chat cid (db w) ++ [new]).
  { rewrite Hdb. now rewrite rows_of_chat_saved. }
  assert (Hv1 : Forall row_valid (rows_of_chat cid (db w1))).
  { rewrite Hrows. apply Forall_app. split; [exact Hvalid|].
    constructor; [|constructor]. split; assumption. }
  pose proof (get_chat_reliable env cid w1 R) as Hg.
  assert (Hfind : find (fun c => c_id c =? cid) (chats (db w1)) =
                  Some (touch t cid row)).
  { rewrite Hdb. cbn [chats]. now rewrite find_touch, Hrow. }
  rewrite Hfind in Hg. rewrite traverse_valid in Hg.
  2:{ eapply Permutation_Forall; [|exact Hv1].
      apply Permutation_sym, order_by_perm. }
  exists mid, w1. eexists. split; [exact Hs|]. split; [exact Hg|].
  cbn [messages updated_at title]. repeat split.
  - change (mkMessage (Some mid) (Some cid) r body t) with (message_of new).
    apply in_map.
    eapply Permutation_in; [apply Permutation_sym, order_by_perm|].
    rewrite Hrows. apply in_or_app. right. now left.
  - rewrite length_map, order_by_length, Hrows, length_app. cbn. lia.
  - apply find_some in Hrow. destruct Hrow as [_ Hid].
    unfold touch. now rewrite Hid.
  - apply touch_title.
Qed.

Lemma save_message_then_get_chat_witness :
  exists mid w1 chat,
    Database.save_message (env_ok "Hi!") 1 "user" (Some "More") w_two_chats
    = (Ok mid, w1) /\
    fst (Database.get_chat (env_ok "Hi!") 1 w1) = Ok (Some chat) /\
    In (mkMessage (Some mid) (Some 1) "user" "More" 6) (messages chat).
Proof.
  assert (Hv : Forall row_valid (rows_of_chat 1 (db w_two_chats))).
  { cbn. repeat constructor; cbn; lia. }
  assert (Hb : 1 <= len "More") by (cbn; lia).
  destruct (save_message_then_get_chat (env_ok "Hi!") 1 "user" "More"
              w_two_chats (mkChatRow 1 (Some "ann") "Hello" 1 3)
              (env_ok_reliable "Hi!") eq_refl Hv eq_refl Hb)
    as (mid & w1 & chat & Hs & Hg & Hin & _).
  exists mid, w1, chat. repeat split; assumption.
Defined.

Lemma order_by_desc_newest {A} (key : A -> Z) (l : list A) (x : A) :
  (forall y, In y l -> key y < key x) ->
  order_by (desc key) (l ++ [x]) = x :: order_by (desc key) l.
Proof.
  induction l as [|y l IH]; intros H; [reflexivity|].
  change (order_by (desc key) ((y :: l) ++ [x]))
    with (insert_by (desc key) y (order_by (desc key) (l ++ [x]))).
  change (order_by (desc key) (y :: l))
    with (insert_by (desc key) y (order_by (desc key) l)).
  rewrite IH by (intros z Hz; apply H; now right).
  cbn [insert_by]. unfold desc at 1.
  destruct (Z.leb_spec (key x) (key y)) as [Hle|_]; [|reflexivity].
  specialize (H y (or_introl eq_refl)). lia.
Qed.

(** X4. The context window ends with the message just saved: while the
    storage answers, after [save_message] of a well-formed message at a time
    later than every stored message of the conversation,
    [get_last_n_messages] with [n >= 1] returns [min(n, total + 1)] messages,
    the last of which is the saved one. *)
Theorem save_message_then_context :
  forall env cid r body n w,
    reliable env ->
    Forall row_valid (rows_of_chat cid (db w)) ->
    role_ok r = true ->
    1 <= len body ->
    1 <= n ->
    (forall m, In m (rows_of_chat cid (db w)) ->
               m_timestamp m < now_at env (reads w)) ->
    let t := now_at env (reads w) in
    exists mid w1 earlier,
      Database.save_message env cid r (Some body) w = (Ok mid, w1) /\
      fst (Database.get_last_n_messages env cid n w1) =
        Ok (earlier ++ [mkMessage (Some mid) (Some cid) r body t]) /\
      S (List.length earlier) =
        Nat.min (Z.to_nat n) (S (List.length (rows_of_chat cid (db w)))).
Proof.
  intros env cid r body n w R Hvalid Hr Hb Hn Hnew t.
  destruct (save_message_reliable env cid r body w R) as (w1 & Hs & Hdb).
  cbv zeta in Hs, Hdb. fold t in Hdb.
  set (mid := next_rowid (seq_messages (db w)) (map m_id (msgs (db w)))) in *.
  set (new := mkMessageRow mid cid r body t) in *.
  set (rows := rows_of_chat cid (db w)) in *.
  assert (Hrows : rows_of_chat cid (db w1) = rows ++ [new]).
  { rewrite Hdb. now rewrite rows_of_chat_saved. }
  set (older := firstn (Z.to_nat n - 1) (order_by (desc m_timestamp) rows)).
  assert (Hsel : sql_limit n (order_by (desc m_timestamp) (rows ++ [new])) =
                 new :: older).
  { rewrite order_by_desc_newest by exact Hnew.
    unfold sql_limit. destruct (Z.ltb_spec n 0); [lia|].
    replace (Z.to_nat n) with (S (Z.to_nat n - 1)) at 1 by lia.
    reflexivity. }
  assert (Hvo : Forall row_valid (rev older)).
  { apply Forall_forall. intros m Hm. apply in_rev in Hm.
    unfold older in Hm. apply in_firstn in Hm.
    rewrite Forall_forall in Hvalid. apply Hvalid.
    eapply Permutation_in; [apply order_by_perm | exact Hm]. }
  exists mid, w1, (map message_of (rev older)).
  split; [exact Hs|]. split.
  - rewrite (get_last_n_messages_reliable env cid n w1 R), Hrows, Hsel.
    cbn [rev]. rewrite traverse_valid.
    + now rewrite map_app.
    + apply Forall_app. split; [exact Hvo|].
      constructor; [|constructor]. split; assumption.
  - rewrite length_map, length_rev. unfold older.
    rewrite length_firstn, order_by_length. lia.
Qed.

Lemma save_message_then_context_witness :
  exists mid w1 earlier,
    Database.save_message (env_ok "Hi!") 1 "user" (Some "More") w_two_chats
    = (Ok mid, w1) /\
    fst (Database.get_last_n_messages (env_ok "Hi!") 1 2 w1) =
      Ok (earlier ++ [mkMessage (Some mid) (Some 1) "user" "More" 6]).
Proof.
  assert (Hv : Forall row_valid (rows_of_chat 1 (db w_two_chats))).
  { cbn. repeat constructor; cbn; lia. }
  assert (Hb : 1 <= len "More") by (cbn; lia).
  assert (Hn : 1 <= 2) by lia.
  assert (Ht : forall m, In m (rows_of_chat 1 (db w_two_chats)) ->
                         m_timestamp m < now_at (env_ok "Hi!") (reads w_two_chats)).
  { cbn. intros m Hm.
    repeat (destruct Hm as [<-|Hm]; [cbn; lia|]). destruct Hm. }
  destruct (save_message_then_context (env_ok "Hi!") 1 "user" "More" 2
              w_two_chats (env_ok_reliable "Hi!") Hv eq_refl Hb Hn Ht)
    as (mid & w1 & earlier & Hs & Hg & _).
  exists mid, w1, earlier. split; assumption.
Defined.

(** X5. The bounds of [get_last_n_messages]: while the storage answers,
    [n = 0] gives the empty list, whatever is stored; a conversation id
    without messages (a conversation that does not exist, too) gives the
    empty list and no error; and for well-formed rows a negative [n], like
    an [n] of at least the number of messages, gives the whole conversation
    in ascending order of timestamp. *)
Theorem get_last_n_messages_bounds :
  forall env cid w,
    reliable env ->
    let rows := rows_of_chat cid (db w) in
    fst (Database.get_last_n_messages env cid 0 w) = Ok [] /\
    (rows = [] ->
     forall n, fst (Database.get_last_n_messages env cid n w) = Ok []) /\
    (Forall row_valid rows ->
     forall n, n < 0 \/ Z.of_nat (List.length rows) <= n ->
       exists result,
         fst (Database.get_last_n_messages env cid n w) = Ok result /\
         Permutation result (map message_of rows) /\
         StronglySorted (fun a b => timestamp a <= timestamp b) result).
Proof.
  intros env cid w R rows. repeat split.
  - now rewrite (get_last_n_messages_reliable env cid 0 w R).
  - intros Hempty n. rewrite (get_last_n_messages_reliable env cid n w R).
    fold rows. rewrite Hempty. cbn. unfold sql_limit.
    destruct (n <? 0); [reflexivity|]. now rewrite firstn_nil.
  - intros Hvalid n Hn.
    assert (Hall : sql_limit n (order_by (desc m_timestamp) rows) =
                   order_by (desc m_timestamp) rows).
    { unfold sql_limit. destruct (Z.ltb_spec n 0); [reflexivity|].
      apply firstn_all2. rewrite order_by_length. lia. }
    exists (map message_of (rev (order_by (desc m_timestamp) rows))).
    repeat split.
    + rewrite (get_last_n_messages_reliable env cid n w R). fold rows.
      rewrite Hall. apply traverse_valid.
      eapply Permutation_Forall; [|exact Hvalid].
      eapply Permutation_trans;
        [apply Permutation_sym, order_by_perm | apply Permutation_rev].
    + apply Permutation_map.
      eapply Permutation_trans;
        [apply Permutation_sym, Permutation_rev | apply order_by_perm].
    + pose proof (sorted_rev (descending m_timestamp) _
                    (order_by_desc_sorted m_timestamp rows)) as Hs.
      induction Hs as [|x l _ IH Hx]; cbn; constructor; [exact IH|].
      rewrite Forall_forall in *. intros m Hm.
      apply in_map_iff in Hm. destruct Hm as (y & <- & Hy). cbn.
      now apply Hx.
Qed.

Lemma get_last_n_messages_bounds_witness :
  exists result,
    fst (Database.get_last_n_messages (env_ok "Hi!") 1 (-1) w_two_chats)
    = Ok result /\
    Permutation result
      (map message_of (rows_of_chat 1 (db w_two_chats))).
Proof.
  assert (Hv : Forall row_valid (rows_of_chat 1 (db w_two_chats))).
  { cbn. repeat constructor; cbn; lia. }
  assert (Hn : -1 < 0 \/ Z.of_nat (List.length (rows_of_chat 1 (db w_two_chats)))
                         <= -1) by (left; lia).
  destruct (proj2 (proj2 (get_last_n_messages_bounds (env_ok "Hi!") 1
                            w_two_chats (env_ok_reliable "Hi!"))) Hv (-1) Hn)
    as (result & H1 & H2 & _).
  exists result. split; assumption.
Defined.

(** ** Rows that cannot be read back *)

Lemma Message_of_row_invalid row :
  role_ok (m_role row) = false \/ m_content row = "" ->
  exists msg, Message_of_row row = Raise (ValidationError msg).
Proof.
  intros H. unfold Message_of_row, Message_new.
  destruct (role_ok (m_role row)); cbn [negb]; [|eauto].
  destruct H as [H|H]; [discriminate|]. rewrite H. cbn. eauto.
Qed.

Lemma Message_of_row_raises row e :
  Message_of_row row = Raise e -> exists msg, e = ValidationError msg.
Proof.
  unfold Message_of_row, Message_new.
  destruct (negb (role_ok (m_role row))); [intros [= <-]; eauto|].
  destruct (len (m_content row) <? 1); [intros [= <-]; eauto | discriminate].
Qed.

Lemma traverse_invalid rows row :
  In row rows ->
  role_ok (m_role row) = false \/ m_content row = "" ->
  exists msg, traverse Message_of_row rows = Raise (ValidationError msg).
Proof.
  induction rows as [|x rows IH]; intros Hin Hbad; [destruct Hin|].
  cbn. destruct (Message_of_row x) as [m|e] eqn:Ex.
  - destruct Hin as [->|Hin].
    + destruct (Message_of_row_invalid row Hbad) as (msg & Hm). congruence.
    + destruct (IH Hin Hbad) as (msg & ->). eauto.
  - destruct (Message_of_row_raises x e Ex) as (msg & ->). eauto.
Qed.

(** X6. [save_message] stores what [Message] refuses: while the storage
    answers, a message whose role is neither "user" nor "assistant", or whose
    content is empty, is saved into an existing conversation like any other;
    from then on [get_chat] on that conversation raises a
    [ValidationError], the manager's [get_chat_history] returns [None] and
    the history endpoint answers 404 "Chat not found", although the
    conversation exists. *)
Theorem invalid_row_hides_conversation :
  forall env self cid r body w row,
    reliable env ->
    find (fun c => c_id c =? cid) (chats (db w)) = Some row ->
    role_ok r = false \/ body = "" ->
    exists mid w1,
      Database.save_message env cid r (Some body) w = (Ok mid, w1) /\
      chat_exists (db w1) cid = true /\
      (exists msg,
         fst (Database.get_chat env cid w1) = Raise (ValidationError msg)) /\
      fst (ChatManager.get_chat_history env self cid w1) = Ok None /\
      fst (endpoints.get_history env self cid w1) =
        Ok (endpoints.HTTPException 404 "Chat not found").
Proof.
  intros env self cid r body w row R Hrow Hbad.
  destruct (save_message_reliable env cid r body w R) as (w1 & Hs & Hdb).
  cbv zeta in Hs, Hdb.
  set (t := now_at env (reads w)) in *.
  set (mid := next_rowid (seq_messages (db w)) (map m_id (msgs (db w)))) in *.
  set (new := mkMessageRow mid cid r body t) in *.
  assert (Hfind : find (fun c => c_id c =? cid) (chats (db w1)) =
                  Some (touch t cid row)).
  { rewrite Hdb. cbn [chats]. now rewrite find_touch, Hrow. }
  assert (Hraise : exists msg,
             fst (Database.get_chat env cid w1) = Raise (ValidationError msg)).
  { rewrite (get_chat_reliable env cid w1 R), Hfind.
    destruct (traverse_invalid
                (order_by (asc m_timestamp) (rows_of_chat cid (db w1))) new)
      as (msg & ->); [| exact Hbad | eauto].
    eapply Permutation_in; [apply Permutation_sym, order_by_perm|].
    rewrite Hdb, rows_of_chat_saved by reflexivity.
    apply in_or_app. right. now left. }
  assert (Hhist : fst (ChatManager.get_chat_history env self cid w1) = Ok None).
  { destruct Hraise as (msg & Hg).
    unfold ChatManager.get_chat_history, try_except, ret.
    destruct (Database.get_chat env cid w1) as [[c|e] w2]; cbn [fst] in *;
      [discriminate | reflexivity]. }
  exists mid, w1. split; [exact Hs|]. split.
  - unfold chat_exists. apply existsb_exists.
    apply find_some in Hfind. exists (touch t cid row). exact Hfind.
  - split; [exact Hraise|]. split; [exact Hhist|].
    unfold endpoints.get_history, bind.
    destruct (ChatManager.get_chat_history env self cid w1) as [[c|e] w2];
      cbn [fst] in *; [|discriminate].
    injection Hhist as ->. reflexivity.
Qed.

Lemma invalid_row_hides_conversation_witness :
  exists mid w1,
    Database.save_message (env_ok "Hi!") 1 "system" (Some "Be brief") w_two_chats
    = (Ok mid, w1) /\
    fst (endpoints.get_history (env_ok "Hi!") manager 1 w1) =
      Ok (endpoints.HTTPException 404 "Chat not found").
Proof.
  destruct (invalid_row_hides_conversation (env_ok "Hi!") manager 1 "system"
              "Be brief" w_two_chats (mkChatRow 1 (Some "ann") "Hello" 1 3)
              (env_ok_reliable "Hi!") eq_refl (or_introl eq_refl))
    as (mid & w1 & Hs & _ & _ & _ & Hh).
  exists mid, w1. split; assumption.
Defined.

(** ** Listing conversations *)

Lemma in_skipn {A} (n : nat) (l : list A) (x : A) :
  In x (skipn n l) -> In x l.
Proof.
  intros H. rewrite <- (firstn_skipn n l). apply in_or_app. now right.
Qed.

Lemma sorted_skipn {A} (R : A -> A -> Prop) (n : nat) (l : list A) :
  StronglySorted R l -> StronglySorted R (skipn n l).
Proof.
  intros H. revert n.
  induction H as [|x l Hs IH Hx]; intros [|n]; cbn; try constructor; auto.
Qed.

Lemma in_sql_limit {A} n (l : list A) x : In x (sql_limit n l) -> In x l.
Proof.
  unfold sql_limit. destruct (n <? 0); [trivial | apply in_firstn].
Qed.

Lemma in_sql_offset {A} n (l : list A) x : In x (sql_offset n l) -> In x l.
Proof.
  unfold sql_offset. destruct (n <? 0); [trivial | apply in_skipn].
Qed.

Lemma get_chats_list_page env limit offset user_id w :
  reliable env ->
  fst (Database.get_chats_list env limit offset user_id w) =
  Ok (chats_page match user_id with
                 | Some u => if String.eqb u "" then None else Some u
                 | None => None
                 end limit offset (db w)).
Proof.
  intros R. unfold_ops. cbn. repeat (rewrite R; cbn). reflexivity.
Qed.

Lemma get_chats_list_db env limit offset user_id w :
  db (snd (Database.get_chats_list env limit offset user_id w)) = db w.
Proof. run_ops; auto. Qed.

(** X7. While the storage answers, [get_chats_list] returns summaries of
    stored conversations only, each with the number of messages stored under
    its id as [message_count], ordered by [updated_at], newest first, and at
    most [limit] of them when [limit >= 0]; with a non-empty [user_id] every
    summary is of a conversation of that owner. Listing changes nothing in
    the database. *)
Theorem get_chats_list_summaries :
  forall env limit offset user_id w,
    reliable env ->
    exists page,
      fst (Database.get_chats_list env limit offset user_id w) = Ok page /\
      (forall s, In s page ->
         exists c, In c (chats (db w)) /\
           s_id s = c_id c /\ s_title s = c_title c /\
           s_user_id s = c_user_id c /\ s_updated_at s = c_updated_at c /\
           s_message_count s =
             Z.of_nat (List.length (rows_of_chat (c_id c) (db w))) /\
           (forall u, user_id = Some u -> u <> "" -> c_user_id c = Some u)) /\
      StronglySorted (descending s_updated_at) page /\
      (0 <= limit -> Z.of_nat (List.length page) <= limit) /\
      db (snd (Database.get_chats_list env limit offset user_id w)) = db w.
Proof.
  intros env limit offset user_id w R.
  eexists. split; [apply (get_chats_list_page env limit offset user_id w R)|].
  unfold chats_page. repeat split.
  - intros s Hs. apply in_sql_limit, in_sql_offset in Hs.
    eapply Permutation_in in Hs; [|apply order_by_perm].
    apply in_map_iff in Hs. destruct Hs as (c & <- & Hc).
    exists c. cbn. repeat split.
    + destruct user_id as [u|]; [|exact Hc].
      destruct (String.eqb u ""); [exact Hc|].
      apply filter_In in Hc. tauto.
    + intros u -> Hu.
      destruct (String.eqb_spec u "") as [|_]; [contradiction|].
      apply filter_In in Hc. destruct Hc as [_ Ho]. unfold owned_by in Ho.
      destruct (c_user_id c) as [v|]; [|discriminate].
      apply String.eqb_eq in Ho. now subst.
  - unfold sql_limit, sql_offset.
    destruct (limit <? 0), (offset <? 0);
      repeat first [apply sorted_firstn | apply sorted_skipn];
      apply order_by_desc_sorted.
  - intros Hl. unfold sql_limit. destruct (Z.ltb_spec limit 0); [lia|].
    rewrite length_firstn. lia.
  - apply get_chats_list_db.
Qed.

Lemma get_chats_list_summaries_witness :
  exists page,
    fst (Database.get_chats_list (env_ok "Hi!") 50 0 (Some "ann") w_two_chats)
    = Ok page /\
    forall s, In s page -> s_user_id s = Some "ann".
Proof.
  destruct (get_chats_list_summaries (env_ok "Hi!") 50 0 (Some "ann")
              w_two_chats (env_ok_reliable "Hi!"))
    as (page & Hp & Hs & _).
  exists page. split; [exact Hp|].
  intros s Hin. destruct (Hs s Hin) as (c & _ & _ & _ & Hu & _ & _ & Ho).
  rewrite Hu. apply (Ho "ann" eq_refl). discriminate.
Defined.

Lemma firstn_plus {A} (n m : nat) (l : list A) :
  firstn (n + m) l = firstn n l ++ firstn m (skipn n l).
Proof.
  revert l. induction n as [|n IH]; intros l; [reflexivity|].
  destruct l as [|x l]; cbn; [now rewrite firstn_nil | now rewrite IH].
Qed.

Lemma skipn_plus {A} (n m : nat) (l : list A) :
  skipn (n + m) l = skipn m (skipn n l).
Proof.
  revert l. induction n as [|n IH]; intros l; [reflexivity|].
  destruct l as [|x l]; cbn; [now rewrite skipn_nil | apply IH].
Qed.

(** X8. Pages compose: while the storage answers, for [limit >= 0] and
    [offset >= 0] the page at [offset] followed by the page at
    [offset + limit], fetched one after the other, is the page of
    [2 * limit] conversations at [offset]. *)
Theorem get_chats_list_pages_compose :
  forall env limit offset user_id w,
    reliable env ->
    0 <= limit ->
    0 <= offset ->
    let first := Database.get_chats_list env limit offset user_id w in
    let second := Database.get_chats_list env limit (offset + limit) user_id
                    (snd first) in
    exists p1 p2,
      fst first = Ok p1 /\
      fst second = Ok p2 /\
      fst (Database.get_chats_list env (2 * limit) offset user_id w) =
        Ok (p1 ++ p2).
Proof.
  intros env limit offset user_id w R Hl Ho first second.
  do 2 eexists. split; [apply (get_chats_list_page _ _ _ _ _ R)|].
  split; [apply (get_chats_list_page _ _ _ _ _ R)|].
  rewrite (get_chats_list_page _ _ _ _ _ R). f_equal.
  unfold first. rewrite get_chats_list_db.
  unfold chats_page, sql_limit, sql_offset.
  destruct (Z.ltb_spec limit 0); [lia|].
  destruct (Z.ltb_spec (2 * limit) 0); [lia|].
  destruct (Z.ltb_spec offset 0); [lia|].
  destruct (Z.ltb_spec (offset + limit) 0); [lia|].
  replace (Z.to_nat (2 * limit)) with (Z.to_nat limit + Z.to_nat limit)%nat
    by lia.
  replace (Z.to_nat (offset + limit))
    with (Z.to_nat offset + Z.to_nat limit)%nat by lia.
  now rewrite firstn_plus, skipn_plus.
Qed.

Lemma get_chats_list_pages_compose_witness :
  exists p1 p2,
    fst (Database.get_chats_list (env_ok "Hi!") 1 0 None w_two_chats) = Ok p1 /\
    fst (Database.get_chats_list (env_ok "Hi!") 1 (0 + 1) None
           (snd (Database.get_chats_list (env_ok "Hi!") 1 0 None w_two_chats)))
    = Ok p2 /\
    fst (Database.get_chats_list (env_ok "Hi!") (2 * 1) 0 None w_two_chats)
    = Ok (p1 ++ p2).
Proof.
  assert (H1 : 0 <= 1) by lia. assert (H0 : 0 <= 0) by lia.
  exact (get_chats_list_pages_compose (env_ok "Hi!") 1 0 None w_two_chats
           (env_ok_reliable "Hi!") H1 H0).
Defined.

(** ** Deleting, in general *)

Lemma filter_absent cid l :
  existsb (fun c => c_id c =? cid) l = false ->
  filter (fun c => negb (c_id c =? cid)) l = l.
Proof.
  induction l as [|x l IH]; cbn; [reflexivity|].
  intros H. apply orb_false_iff in H. destruct H as [Hx Hl].
  rewrite Hx. cbn. now rewrite IH.
Qed.

Lemma existsb_filter_out cid l :
  existsb (fun c => c_id c =? cid)
    (filter (fun c => negb (c_id c =? cid)) l) = false.
Proof.
  induction l as [|x l IH]; cbn; [reflexivity|].
  destruct (c_id x =? cid) eqn:E; cbn; [exact IH|]. now rewrite E.
Qed.

(** X9. While the storage answers, [delete_chat] returns [True] exactly when
    the conversation existed; afterwards the conversation does not exist,
    every other conversation is stored as before, table [messages] is as it
    was, and a second [delete_chat] of the same id returns [False]. *)
Theorem delete_chat_effect :
  forall env cid w,
    reliable env ->
    exists w1,
      Database.delete_chat env cid w = (Ok (chat_exists (db w) cid), w1) /\
      chat_exists (db w1) cid = false /\
      (forall c, In c (chats (db w1)) <-> In c (chats (db w)) /\ c_id c <> cid) /\
      msgs (db w1) = msgs (db w) /\
      fst (Database.delete_chat env cid w1) = Ok false.
Proof.
  intros env cid w R.
  destruct (delete_chat_reliable env cid w R) as (w1 & H1 & Hc & Hm).
  exists w1. split; [exact H1|].
  assert (Hgone : chat_exists (db w1) cid = false).
  { unfold chat_exists. rewrite Hc. apply existsb_filter_out. }
  split; [exact Hgone|]. split; [|split; [exact Hm|]].
  - intros c. rewrite Hc, filter_In, negb_true_iff, Z.eqb_neq. tauto.
  - destruct (delete_chat_reliable env cid w1 R) as (w2 & H2 & _).
    now rewrite H2, Hgone.
Qed.

Lemma delete_chat_effect_witness :
  exists w1,
    Database.delete_chat (env_ok "Hi!") 2 w_two_chats = (Ok true, w1) /\
    fst (Database.delete_chat (env_ok "Hi!") 2 w1) = Ok false.
Proof.
  destruct (delete_chat_effect (env_ok "Hi!") 2 w_two_chats
              (env_ok_reliable "Hi!")) as (w1 & H1 & _ & _ & _ & H2).
  exists w1. split; [exact H1 | exact H2].
Defined.

(** ** The other endpoints: what the handlers answer *)

Lemma storage_up_not_fails env w n :
  storage_up env w n -> storage_fails env w n -> False.
Proof.
  intros Hup (k & e & Hk & Hf). rewrite (Hup k Hk) in Hf. discriminate.
Qed.

Lemma Message_of_row_ok row m :
  Message_of_row row = Ok m -> row_valid row /\ m = message_of row.
Proof.
  unfold Message_of_row, Message_new, row_valid, message_of.
  destruct (role_ok (m_role row)); cbn [negb]; [|discriminate].
  destruct (Z.ltb_spec (len (m_content row)) 1); [discriminate|].
  intros [= <-]. repeat split. lia.
Qed.

Lemma traverse_ok rows ms :
  traverse Message_of_row rows = Ok ms ->
  Forall row_valid rows /\ ms = map message_of rows.
Proof.
  revert ms. induction rows as [|row rows IH]; cbn; intros ms.
  - intros [= <-]. split; [constructor | reflexivity].
  - destruct (Message_of_row row) as [m|e] eqn:Hrow; [|discriminate].
    destruct (traverse Message_of_row rows) as [ms'|e]; [|discriminate].
    intros [= <-]. destruct (Message_of_row_ok row m Hrow) as [Hv ->].
    destruct (IH ms' eq_refl) as [Hvs ->].
    split; [now constructor | reflexivity].
Qed.

Lemma get_chat_run env cid w :
  let '(r, w') := Database.get_chat env cid w in
  db w' = db w /\
  match r with
  | Ok (Some c) =>
      storage_up env w 3 /\
      exists row,
        find (fun c => c_id c =? cid) (chats (db w)) = Some row /\
        chat_ident c = Some cid /\ title c = c_title row /\
        user_id c = c_user_id row /\
        traverse Message_of_row
          (order_by (asc m_timestamp) (rows_of_chat cid (db w))) =
        Ok (messages c)
  | Ok None => find (fun c => c_id c =? cid) (chats (db w)) = None
  | Raise _ => True
  end.
Proof.
  run_ops; auto.
  destruct (find (fun c => c_id c =? cid) (chats (db w))) as [row|] eqn:Hf;
    cbn; auto.
  step_storage; cbn; auto.
  destruct (traverse Message_of_row _) eqn:Ht; cbn; auto.
  split; [reflexivity|]. split; [storage_was_up|].
  exists row. repeat split.
  apply find_some in Hf. destruct Hf as [_ Hid]. apply Z.eqb_eq in Hid.
  now rewrite Hid.
Qed.

Lemma get_chat_up env cid w :
  storage_up env w 3 ->
  fst (Database.get_chat env cid w) =
  match find (fun c => c_id c =? cid) (chats (db w)) with
  | None => Ok None
  | Some row =>
      match traverse Message_of_row
              (order_by (asc m_timestamp) (rows_of_chat cid (db w))) with
      | Ok messages =>
          Ok (Some (mkChat (Some (c_id row)) (c_user_id row) (c_title row)
                           (c_created_at row) (c_updated_at row) messages))
      | Raise e => Raise e
      end
  end.
Proof.
  intros R. destruct (storage_up_3 env w R) as (H0 & H1 & H2).
  unfold_ops. cbn. rewrite H0. cbn. rewrite H1. cbn.
  destruct (find _ _); cbn; [|reflexivity].
  rewrite H2. cbn.
  now destruct (traverse Message_of_row _).
Qed.

Lemma chat_exists_find d cid :
  chat_exists d cid =
  match find (fun c => c_id c =? cid) (chats d) with
  | Some _ => true
  | None => false
  end.
Proof.
  unfold chat_exists.
  induction (chats d) as [|c l IH]; cbn; [reflexivity|].
  now destruct (c_id c =? cid).
Qed.

(** The handler of the history endpoint never raises and never changes the
    database. It answers the conversation stored under the id, with its
    messages in ascending order of timestamp, or 404; it answers 404 when no
    conversation has the id, when the storage fails at any of the three
    operations of [get_chat], and when a stored row of the conversation is
    one [Message] refuses; it answers the conversation in every other
    case. *)
Lemma get_history_handler env self cid w :
  exists reply w',
    endpoints.get_history env self cid w = (Ok reply, w') /\
    db w' = db w /\
    (reply = not_found \/
     exists chat row,
       reply = endpoints.ChatHistoryResponse chat true /\
       find (fun c => c_id c =? cid) (chats (db w)) = Some row /\
       chat_ident chat = Some cid /\ title chat = c_title row /\
       messages chat =
         map message_of (order_by (asc m_timestamp) (rows_of_chat cid (db w)))) /\
    (chat_exists (db w) cid = false -> reply = not_found) /\
    (storage_fails env w 3 -> reply = not_found) /\
    (~ Forall row_valid (rows_of_chat cid (db w)) -> reply = not_found) /\
    (chat_exists (db w) cid = true ->
     storage_up env w 3 ->
     Forall row_valid (rows_of_chat cid (db w)) ->
     exists chat, reply = endpoints.ChatHistoryResponse chat true).
Proof.
  unfold endpoints.get_history, ChatManager.get_chat_history, bind,
    try_except, ret.
  pose proof (get_chat_run env cid w) as H.
  pose proof (get_chat_up env cid w) as Hup.
  rewrite chat_exists_find.
  destruct (Database.get_chat env cid w) as [[[chat|]|e0] w1];
    destruct H as [Hdb H]; do 2 eexists; (split; [reflexivity|]);
    (split; [exact Hdb|]); cbn [fst] in Hup.
  - destruct H as (Hs & row & Hf & Hid & Ht & _ & Hm).
    apply traverse_ok in Hm. destruct Hm as [Hv Hm].
    assert (Hvalid : Forall row_valid (rows_of_chat cid (db w))).
    { eapply Permutation_Forall; [|exact Hv].
      apply (order_by_perm (asc m_timestamp)). }
    rewrite Hf. repeat split.
    + right. exists chat, row. auto.
    + discriminate.
    + intros Hfail. destruct (storage_up_not_fails _ _ _ Hs Hfail).
    + intros Hbad. contradiction.
    + eauto.
  - rewrite H. repeat split; auto. discriminate.
  - repeat split; auto.
    intros Hex Hs Hv. specialize (Hup Hs).
    destruct (find (fun c => c_id c =? cid) (chats (db w))) as [row|];
      [|discriminate].
    rewrite traverse_valid in Hup; [discriminate|].
    eapply Permutation_Forall; [|exact Hv].
    apply Permutation_sym, order_by_perm.
Qed.

Lemma delete_chat_run_db env cid w :
  let '(r, w') := Database.delete_chat env cid w in
  match r with
  | Ok deleted =>
      storage_up env w 3 /\
      deleted = chat_exists (db w) cid /\
      db w' = mkDB (filter (fun c => negb (c_id c =? cid)) (chats (db w)))
                   (msgs (db w)) (seq_chats (db w)) (seq_messages (db w))
  | Raise _ => storage_fails env w 3 /\ db w' = db w
  end.
Proof.
  run_ops; auto; try (split; [storage_failed | reflexivity]).
  split; [storage_was_up|]. split; [apply rowcount_exists | reflexivity].
Qed.

(** The handler of the delete endpoint never raises and never touches the
    messages. It answers the success dict, and then the conversation existed,
    the storage answered and the conversation is gone; or 404, and then the
    database is exactly as it was, because nothing was stored under the id or
    because the storage failed at one of the three operations. *)
Lemma delete_chat_handler env self cid w :
  exists reply w',
    endpoints.delete_chat env self cid w = (Ok reply, w') /\
    msgs (db w') = msgs (db w) /\
    ((reply = endpoints.Deleted true cid /\
      chat_exists (db w) cid = true /\
      chat_exists (db w') cid = false /\
      storage_up env w 3) \/
     (reply = not_found /\
      db w' = db w /\
      (chat_exists (db w) cid = false \/ storage_fails env w 3))) /\
    (chat_exists (db w) cid = true -> storage_up env w 3 ->
     reply = endpoints.Deleted true cid).
Proof.
  unfold endpoints.delete_chat, ChatManager.delete_chat, bind, try_except, ret.
  pose proof (delete_chat_run_db env cid w) as H.
  destruct (Database.delete_chat env cid w) as [[deleted|e] w1].
  - destruct H as (Hs & -> & Hdb).
    destruct (chat_exists (db w) cid) eqn:Hex; cbn [negb];
      do 2 eexists; (split; [reflexivity|]);
      (split; [now rewrite Hdb|]); split.
    + left. repeat split; trivial. unfold chat_exists. rewrite Hdb. cbn [chats].
      apply existsb_filter_out.
    + reflexivity.
    + right. split; [reflexivity|]. split; [|now left]. rewrite Hdb.
      unfold chat_exists in Hex. rewrite (filter_absent cid _ Hex).
      now destruct (db w).
    + discriminate.
  - destruct H as [Hfail Hdb]. do 2 eexists. split; [reflexivity|].
    split; [now rewrite Hdb|]. split.
    + right. auto.
    + intros _ Hs. destruct (storage_up_not_fails _ _ _ Hs Hfail).
Qed.

Lemma get_chats_list_run env limit offset user_id w :
  match fst (Database.get_chats_list env limit offset user_id w) with
  | Ok page =>
      storage_up env w 2 /\
      page = chats_page match user_id with
                        | Some u => if String.eqb u "" then None else Some u
                        | None => None
                        end limit offset (db w)
  | Raise _ => storage_fails env w 2
  end.
Proof.
  run_ops; auto; try storage_failed.
  split; [storage_was_up | reflexivity].
Qed.

(** The handler of the list endpoint never raises and never changes the
    database. It always answers [success=True] with [total] the number of
    summaries in the answer itself, at most [limit] for [limit >= 0]; the
    answer is the page of the query when the storage answers the two
    operations of [get_chats_list], and the empty list when it fails at
    either. *)
Lemma list_chats_handler env self limit offset user_id w :
  exists page w',
    endpoints.list_chats env self limit offset user_id w =
    (Ok (endpoints.ChatListResponse page (Z.of_nat (List.length page)) true),
     w') /\
    db w' = db w /\
    (0 <= limit -> Z.of_nat (List.length page) <= limit) /\
    (storage_fails env w 2 -> page = []) /\
    (storage_up env w 2 ->
     page = chats_page match user_id with
                       | Some u => if String.eqb u "" then None else Some u
                       | None => None
                       end limit offset (db w)).
Proof.
  unfold endpoints.list_chats, ChatManager.get_chats_list, bind, try_except,
    ret.
  pose proof (get_chats_list_run env limit offset user_id w) as H.
  pose proof (get_chats_list_db env limit offset user_id w) as Hdb.
  destruct (Database.get_chats_list env limit offset user_id w)
    as [[page|e0] w1]; cbn [fst snd] in *;
    do 2 eexists; (split; [reflexivity|]); (split; [exact Hdb|]).
  - destruct H as [Hs ->]. repeat split.
    + intros Hl. unfold chats_page, sql_limit.
      destruct (Z.ltb_spec limit 0); [lia|]. rewrite length_firstn. lia.
    + intros Hfail. destruct (storage_up_not_fails _ _ _ Hs Hfail).
  - repeat split.
    + cbn. lia.
    + intros Hs. destruct (storage_up_not_fails _ _ _ Hs H).
Qed.

Lemma manager_health_check_run env self w :
  ChatManager.health_check env self w =
  (Ok (mkStatus
         (match fst (Database.init_db env w) with
          | Ok _ => "ok"
          | Raise _ => "error"
          end)
         (if probe_ok (ChatManager.deepseek self)
               (upstream env (reqs w) health_request)
          then "ok" else "error")),
   tick_reqs (snd (Database.init_db env w))).
Proof.
  unfold ChatManager.health_check, try_except, bind, ret.
  pose proof (init_db_run env w) as Hinit.
  destruct (Database.init_db env w) as [[[]|e0] w1];
    destruct Hinit as (_ & Hreqs & _ & _);
    rewrite client_health_check_run, Hreqs; cbn [fst snd database deepseek_api];
    now destruct (probe_ok _ _).
Qed.

Lemma init_db_cases env w :
  match fst (Database.init_db env w) with
  | Ok _ => storage_up env w 7
  | Raise _ => storage_fails env w 7
  end.
Proof.
  run_ops; try storage_failed. storage_was_up.
Qed.

Lemma blocking_probe self o :
  blocking self = true -> probe_ok self o = false.
Proof.
  unfold blocking, probe_ok. destruct o as [r|e]; [|reflexivity].
  now destruct (DeepSeekClient.client self).
Qed.

(** The handler of the health endpoint, given a manager whose client is
    around the blocking class: it never raises, sends one probe and answers
    [deepseek_api = "error"] whatever the upstream did with the probe;
    [database] is "ok" when the storage answered the seven operations of
    [init_db] and "error" when it failed at one of them. *)
Lemma health_check_handler env self w :
  blocking (ChatManager.deepseek self) = true ->
  exists store w',
    endpoints.health_check env self w =
    (Ok (endpoints.HealthResponse "ok" "1.0.0" (now_at env (reads w))
           "error" store), w') /\
    db w' = db w /\
    reqs w' = S (reqs w) /\
    (storage_up env w 7 -> store = "ok") /\
    (storage_fails env w 7 -> store = "error").
Proof.
  intros Hb.
  unfold endpoints.health_check, bind. rewrite manager_health_check_run.
  rewrite (blocking_probe _ _ Hb).
  unfold datetime_now, ret. cbn [fst snd database deepseek_api].
  pose proof (init_db_run env w) as Hinit.
  pose proof (init_db_cases env w) as Hcases.
  destruct (Database.init_db env w) as [[[]|e0] w1];
    destruct Hinit as (Hdb & Hreqs & _ & Hreads); cbn [fst snd] in *;
    do 2 eexists; cbn; rewrite Hreads; (split; [reflexivity|]); cbn;
    (split; [exact Hdb|]); (split; [now rewrite Hreqs|]); split; trivial.
  - intros Hfail. destruct (storage_up_not_fails _ _ _ Hcases Hfail).
  - intros Hs. destruct (storage_up_not_fails _ _ _ Hs Hcases).
Qed.

(** ** What one call of the pipeline stores *)

Lemma converse_shape env self message cid temperature system_prompt w :
  let '(r, w') := ChatManager.converse env self message cid temperature
                    system_prompt w in
  (msgs (db w') = msgs (db w) /\ exists e, r = Raise e) \/
  (exists umid t,
     msgs (db w') = msgs (db w) ++ [mkMessageRow umid cid "user" message t] /\
     exists e, r = Raise e) \/
  (exists umid t amid body t2 context w2,
     msgs (db w') =
       msgs (db w) ++ [mkMessageRow umid cid "user" message t;
                       mkMessageRow amid cid "assistant" body t2] /\
     umid < amid /\
     fst (DeepSeekClient.chat_completion env (ChatManager.deepseek self)
            context temperature system_prompt w2) = Ok (Some body) /\
     ((1 <= len body /\
       exists ts,
         r = Ok (mkResult (Some cid)
                   (Some (mkMessage (Some amid) (Some cid) "assistant" body ts))
                   true None)) \/
      (len body < 1 /\ exists e, r = Raise e))).
Proof.
  unfold ChatManager.converse, bind.
  pose proof (save_message_run env cid "user" (Some message) w) as H1.
  cbv zeta in H1.
  destruct (Database.save_message env cid "user" (Some message) w)
    as [[umid|e1] w1].
  2:{ destruct H1 as (_ & _ & _ & ->). cbv beta iota. left. eauto. }
  destruct H1 as (_ & _ & _ & Humid & body & [= <-] & Hdb1).
  pose proof (get_last_n_messages_db env cid 10 w1) as H2.
  destruct (Database.get_last_n_messages env cid 10 w1) as [[last|e2] w2];
    cbn [snd] in H2.
  2:{ cbv beta iota. right. left. exists umid, (now_at env (reads w)).
      rewrite H2, Hdb1. cbn [msgs]. rewrite Humid. eauto. }
  pose proof (chat_completion_db env (ChatManager.deepseek self)
                (DeepSeekClient.convert_to_api_messages
                   (ChatManager.deepseek self) last)
                temperature system_prompt w2) as H3.
  destruct (DeepSeekClient.chat_completion env (ChatManager.deepseek self)
              (DeepSeekClient.convert_to_api_messages
                 (ChatManager.deepseek self) last)
              temperature system_prompt w2) as [[ai|e3] w3] eqn:Hcc;
    cbn [snd] in H3.
  2:{ cbv beta iota. right. left. exists umid, (now_at env (reads w)).
      rewrite H3, H2, Hdb1. cbn [msgs]. rewrite Humid. eauto. }
  pose proof (save_message_run env cid "assistant" ai w3) as H4.
  cbv zeta in H4.
  destruct (Database.save_message env cid "assistant" ai w3) as [[amid|e4] w4].
  2:{ destruct H4 as (_ & _ & _ & ->). cbv beta iota. right. left.
      exists umid, (now_at env (reads w)).
      rewrite H3, H2, Hdb1. cbn [msgs]. rewrite Humid. eauto. }
  destruct H4 as (_ & _ & _ & Hamid & reply & -> & Hdb4).
  rewrite <- Hamid in Hdb4.
  assert (Hseq : seq_messages (db w3) = umid)
    by (rewrite H3, H2, Hdb1; cbn; now rewrite Humid).
  assert (Hlt : umid < amid).
  { rewrite Hamid, <- Hseq. apply next_rowid_above_seq. }
  assert (Hm3 : msgs (db w3) =
                msgs (db w) ++ [mkMessageRow umid cid "user" message
                                  (now_at env (reads w))]).
  { rewrite H3, H2, Hdb1. cbn [msgs]. now rewrite Humid. }
  unfold datetime_now, lift. cbn [fst snd].
  unfold Message_new. cbn [role_ok String.eqb Ascii.eqb Bool.eqb orb negb].
  destruct (Z.ltb_spec (len reply) 1); cbv beta iota; right; right;
    exists umid, (now_at env (reads w)), amid, reply, (now_at env (reads w3)),
      (DeepSeekClient.convert_to_api_messages (ChatManager.deepseek self) last),
      w2;
    unfold tick_reads; cbn [db];
    rewrite Hdb4; cbn [msgs]; rewrite Hm3, <- app_assoc; cbn [app];
    rewrite Hcc; cbn [fst].
  - repeat split; trivial. right. eauto.
  - repeat split; trivial. left. split; [lia|]. eauto.
Qed.

Lemma process_message_shape env self message chat_id temperature system_prompt
    user_id w :
  exists r w',
    ChatManager.process_message env self message chat_id temperature
      system_prompt user_id w = (Ok r, w') /\
    ((r_success r = false /\ r_message r = None /\
      msgs (db w') = msgs (db w)) \/
     (r_success r = false /\ r_message r = None /\
      exists cid umid t,
        r_chat_id r = Some cid /\
        msgs (db w') = msgs (db w) ++ [mkMessageRow umid cid "user" message t]) \/
     (exists cid umid t amid body t2 context w2,
        r_chat_id r = Some cid /\
        msgs (db w') =
          msgs (db w) ++ [mkMessageRow umid cid "user" message t;
                          mkMessageRow amid cid "assistant" body t2] /\
        umid < amid /\
        fst (DeepSeekClient.chat_completion env (ChatManager.deepseek self)
               context temperature system_prompt w2) = Ok (Some body) /\
        ((1 <= len body /\ r_success r = true /\ r_error r = None /\
          exists ts,
            r_message r =
              Some (mkMessage (Some amid) (Some cid) "assistant" body ts)) \/
         (len body < 1 /\ r_success r = false /\ r_message r = None)))).
Proof.
  unfold ChatManager.process_message, try_except, bind, ChatManager.failure,
    ret.
  pose proof (resolve_chat_run env chat_id user_id message w) as H1.
  destruct (ChatManager.resolve_chat env chat_id user_id message w)
    as [[cid|e] w1].
  2:{ destruct H1 as (Hm & _). do 2 eexists. split; [reflexivity|].
      left. cbn. auto. }
  destruct H1 as [Hm1 _].
  pose proof (converse_shape env self message cid temperature system_prompt w1)
    as H2.
  destruct (ChatManager.converse env self message cid temperature
              system_prompt w1) as [r2 w2].
  rewrite Hm1 in H2.
  destruct H2 as [[Hm (e & ->)]|[(umid & t & Hm & e & ->)|H2]].
  - do 2 eexists. split; [reflexivity|]. left. cbn. auto.
  - do 2 eexists. split; [reflexivity|]. right. left. cbn.
    repeat split. exists cid, umid, t. auto.
  - destruct H2 as (umid & t & amid & body & t2 & context & w3 & Hm & Hlt &
                    Hcc & [[Hlen (ts & ->)]|[Hlen (e & ->)]]).
    + do 2 eexists. split; [reflexivity|]. right. right.
      exists cid, umid, t, amid, body, t2, context, w3. cbn.
      repeat split; trivial. left. repeat split; eauto.
    + do 2 eexists. split; [reflexivity|]. right. right.
      exists cid, umid, t, amid, body, t2, context, w3. cbn.
      repeat split; trivial. right. auto.
Qed.

(** X14. What [process_message] stores. A success has appended exactly two
    rows to table [messages], the user's message and then the reply, under
    the conversation id it reports and with increasing ids; the reply is not
    empty and is the content of the message returned. A failure has appended
    nothing, or the user's message alone, or (when the reply was empty) the
    user's message and the empty reply. *)
Theorem process_message_appends :
  forall env self message chat_id temperature system_prompt user_id w,
    exists r w',
      ChatManager.process_message env self message chat_id temperature
        system_prompt user_id w = (Ok r, w') /\
      if r_success r then
        exists cid umid t amid body t2 ts,
          r_chat_id r = Some cid /\
          r_message r =
            Some (mkMessage (Some amid) (Some cid) "assistant" body ts) /\
          msgs (db w') =
            msgs (db w) ++ [mkMessageRow umid cid "user" message t;
                            mkMessageRow amid cid "assistant" body t2] /\
          umid < amid /\ 1 <= len body
      else
        msgs (db w') = msgs (db w) \/
        (exists cid umid t,
           msgs (db w') =
             msgs (db w) ++ [mkMessageRow umid cid "user" message t]) \/
        (exists cid umid t amid t2,
           msgs (db w') =
             msgs (db w) ++ [mkMessageRow umid cid "user" message t;
                             mkMessageRow amid cid "assistant" "" t2]).
Proof.
  intros env self message chat_id temperature system_prompt user_id w.
  destruct (process_message_shape env self message chat_id temperature
              system_prompt user_id w) as (r & w' & Heq & H).
  exists r, w'. split; [exact Heq|].
  destruct H as [(Hs & _ & Hm)|[(Hs & _ & cid & umid & t & _ & Hm)|H]].
  - rewrite Hs. now left.
  - rewrite Hs. right. left. eauto.
  - destruct H as (cid & umid & t & amid & body & t2 & context & w2 & Hc & Hm &
                   Hlt & _ & [(Hlen & Hs & _ & ts & Hr)|(Hlen & Hs & _)]).
    + rewrite Hs. exists cid, umid, t, amid, body, t2, ts. auto.
    + rewrite Hs. right. right. exists cid, umid, t, amid, t2.
      assert (body = "") as ->; [|exact Hm].
      destruct body; [reflexivity|]. unfold len in Hlen. cbn in Hlen. lia.
Qed.

(** X15. With the client [DeepSeekClient.__init__] builds, no call of
    [process_message] succeeds, whatever the upstream answers: the result is
    a failure without a message, and at most the user's message has been
    stored, never a reply. *)
Theorem process_message_blocking_client :
  forall env api_key base_url message chat_id temperature system_prompt
         user_id w,
    let self := ChatManager.mk (DeepSeekClient.init api_key base_url) in
    exists r w',
      ChatManager.process_message env self message chat_id temperature
        system_prompt user_id w = (Ok r, w') /\
      r_success r = false /\
      r_message r = None /\
      (msgs (db w') = msgs (db w) \/
       exists cid umid t,
         msgs (db w') = msgs (db w) ++ [mkMessageRow umid cid "user" message t]).
Proof.
  intros env api_key base_url message chat_id temperature system_prompt
    user_id w self.
  destruct (process_message_shape env self message chat_id temperature
              system_prompt user_id w) as (r & w' & Heq & H).
  exists r, w'. split; [exact Heq|].
  destruct H as [(Hs & Hr & Hm)|[(Hs & Hr & cid & umid & t & _ & Hm)|H]].
  - auto.
  - repeat split; trivial. right. eauto.
  - destruct H as (cid & umid & t & amid & body & t2 & context & w2 & _ & _ &
                   _ & Hcc & _).
    exfalso. revert Hcc. apply blocking_client_never_returns.
Qed.

(** A successful call, with an [AsyncOpenAI] client: "Hello" without a
    conversation id, answered "Hi!". *)
Lemma process_message_hello :
  let run := ChatManager.process_message (env_ok "Hi!") manager_async "Hello"
               None float_0_7 None None w0 in
  fst run =
    Ok (mkResult (Some 1)
          (Some (mkMessage (Some 2) (Some 1) "assistant" "Hi!" 4)) true None) /\
  fst (Database.get_chats_list (env_ok "Hi!") 50 0 None (snd run)) =
    Ok [mkSummary 1 None "Hello" 1 3 2].
Proof. vm_compute. split; reflexivity. Qed.

(** ** The request sent upstream *)

Lemma attempts_ext {A} wait retry_on (f1 f2 : M A) :
  (forall w, f1 w = f2 w) ->
  forall remaining k w,
    tenacity.attempts wait retry_on remaining k f1 w =
    tenacity.attempts wait retry_on remaining k f2 w.
Proof.
  intros H. induction remaining as [|remaining IH]; intros k w; cbn;
    rewrite H; destruct (f2 w) as [[a|e] w1]; trivial;
    destruct (retry_on e); cbn; trivial.
Qed.

(** X16. Every request of one [chat_completion] call is the same: the model
    "deepseek-chat", the given temperature, and the messages, preceded by one
    "system" entry exactly when a non-empty system prompt is given; the
    empty string is treated as no system prompt. The call depends on the
    upstream only through its answers to that request. *)
Theorem chat_completion_request :
  forall env api_key base_url messages temperature w,
    let self := DeepSeekClient.init api_key base_url in
    DeepSeekClient.chat_completion env self messages temperature (Some "") w =
    DeepSeekClient.chat_completion env self messages temperature None w /\
    (forall system_prompt env',
       let request :=
         mkCompletionRequest "deepseek-chat"
           (match system_prompt with
            | Some p => if String.eqb p "" then messages
                        else mkApi "system" p :: messages
            | None => messages
            end) temperature None in
       (forall k, upstream env k request = upstream env' k request) ->
       DeepSeekClient.chat_completion env self messages temperature
         system_prompt w =
       DeepSeekClient.chat_completion env' self messages temperature
         system_prompt w).
Proof.
  intros env api_key base_url messages temperature w self. split.
  - reflexivity.
  - intros system_prompt env' request Hsame.
    unfold DeepSeekClient.chat_completion, tenacity.retry.
    apply attempts_ext. intros w1.
    rewrite !chat_completion_once_run.
    assert (Hreq : request_of self messages temperature system_prompt = request).
    { unfold request_of, request. cbn.
      destruct system_prompt as [p|]; [|reflexivity].
      now destruct (String.eqb p ""). }
    now rewrite Hreq, Hsame.
Qed.

Lemma chat_completion_request_witness :
  DeepSeekClient.chat_completion env_timeouts
    (DeepSeekClient.init "key" "url") [mkApi "user" "ping"] float_0_7
    (Some "Be brief") w0 =
  DeepSeekClient.chat_completion
    (mkEnv clock (fun _ => None)
       (fun _ request =>
          match cr_messages request with
          | first :: _ =>
              if String.eqb (api_role first) "system"
              then Fails APITimeoutError
              else Responds (mkCompletion [Some "pong"])
          | [] => Responds (mkCompletion [Some "pong"])
          end))
    (DeepSeekClient.init "key" "url") [mkApi "user" "ping"] float_0_7
    (Some "Be brief") w0.
Proof.
  apply (proj2 (chat_completion_request env_timeouts "key" "url"
                  [mkApi "user" "ping"] float_0_7 w0) (Some "Be brief")).
  intros k. reflexivity.
Defined.

(** ** Titles *)

Lemma length_append s1 s2 :
  String.length (String.append s1 s2) = (String.length s1 + String.length s2)%nat.
Proof. induction s1 as [|c s1 IH]; cbn; [reflexivity | now rewrite IH]. Qed.

(** X17. The title [process_message] gives a new conversation never has
    more than 53 characters, and it has more than 50 only when the message
    had. *)
Theorem title_of_bounded :
  forall message,
    len (title_of message) <= 53 /\
    (len message <= 50 -> len (title_of message) = len message) /\
    (50 < len message -> len (title_of message) = 53).
Proof.
  intros message. unfold title_of.
  destruct (Z.ltb_spec 50 (len message)) as [Hlt|Hle].
  - destruct (substring_prefix 50 message) as (Hl & _);
      [unfold len in Hlt; lia|].
    assert (len (String.append (substring 0 50 message) "...") = 53).
    { unfold len. rewrite length_append, Hl. reflexivity. }
    repeat split; lia.
  - repeat split; lia.
Qed.

Lemma title_of_bounded_witness :
  len message_10001 = 10001 /\ len (title_of message_10001) = 53.
Proof.
  assert (H : len message_10001 = 10001) by (vm_compute; reflexivity).
  split; [exact H|].
  apply (proj2 (proj2 (title_of_bounded message_10001))). rewrite H. lia.
Defined.

(** ** The request model *)

(** [ChatRequest] accepts a body exactly when its message is present
    with 1 to 10000 characters and its temperature is absent or between 0.0
    and 1.0 (NaN and the infinities are refused); the request then carries
    the message, the conversation id and the system prompt as given, and the
    temperature given or else 0.7. *)
Theorem ChatRequest_accepts_iff :
  forall body request,
    ChatRequest_validate body = Ok request <->
    exists m,
      body_message body = Some m /\
      1 <= len m <= 10000 /\
      temperature_within (body_temperature body) /\
      request =
        mkChatRequest m (body_chat_id body)
          (match body_temperature body with
           | Some t => t
           | None => float_0_7
           end)
          (body_system_prompt body).
Proof.
  intros body request. unfold ChatRequest_validate, temperature_within.
  destruct (body_message body) as [m|].
  2:{ split; [discriminate | intros (m & [=] & _)]. }
  destruct (Z.ltb_spec (len m) 1).
  { split; [discriminate | intros (m' & [= <-] & Hl & _); lia]. }
  destruct (Z.ltb_spec 10000 (len m)).
  { split; [discriminate | intros (m' & [= <-] & Hl & _); lia]. }
  destruct (body_temperature body) as [t|].
  - destruct (float_le float_0_0 t) eqn:E0; cbn [negb].
    + destruct (float_le t float_1_0) eqn:E1; cbn [negb].
      * split.
        -- intros [= <-]. exists m. repeat split; trivial; lia.
        -- intros (m' & [= <-] & _ & _ & ->). reflexivity.
      * split; [discriminate|].
        intros (m' & _ & _ & [_ Hc] & _). discriminate.
    + split; [discriminate|].
      intros (m' & _ & _ & [Hc _] & _). discriminate.
  - cbn. split.
    + intros [= <-]. exists m. repeat split; trivial; lia.
    + intros (m' & [= <-] & _ & _ & ->). reflexivity.
Qed.

Lemma ChatRequest_accepts_iff_witness :
  ChatRequest_validate (mkBody (Some "Hello") None None (Some "Be brief")) =
  Ok (mkChatRequest "Hello" None float_0_7 (Some "Be brief")) /\
  forall request,
    ChatRequest_validate (mkBody (Some "Hello") None (Some NaN) None) <>
    Ok request.
Proof.
  split.
  - apply (proj2 (ChatRequest_accepts_iff
                    (mkBody (Some "Hello") None None (Some "Be brief")) _)).
    exists "Hello". cbn. repeat split; lia.
  - intros request H.
    apply (proj1 (ChatRequest_accepts_iff _ _)) in H.
    destruct H as (m & _ & _ & [H _] & _). discriminate H.
Defined.

(** ** The singletons of dependencies.py *)

Lemma key_missing_raises environ g w :
  key_missing environ ->
  _deepseek_instance g = None ->
  dependencies.get_deepseek_client environ g w =
  (Raise (ValueError "DEEPSEEK_API_KEY is required"), g, w).
Proof.
  intros Hk Hd. unfold dependencies.get_deepseek_client. rewrite Hd.
  unfold dependencies.get_settings. cbn [deepseek_api_key].
  now destruct Hk as [-> | ->].
Qed.

(** X18. Without an API key (the variable unset, or empty),
    [get_chat_manager] raises on every call and never registers a manager or
    a client. The [Database] singleton is registered all the same, and once
    it is, each further call raises the [ValueError] without touching the
    storage. *)
Theorem get_chat_manager_requires_key :
  forall env environ g w,
    key_missing environ ->
    _chat_manager_instance g = None ->
    _deepseek_instance g = None ->
    exists e g' w',
      dependencies.get_chat_manager env environ g w = (Raise e, g', w') /\
      _chat_manager_instance g' = None /\
      _deepseek_instance g' = None /\
      _db_instance g' <> None /\
      db w' = db w /\
      dependencies.get_chat_manager env environ g' w' =
        (Raise (ValueError "DEEPSEEK_API_KEY is required"), g', w').
Proof.
  intros env environ g w Hk Hm Hd.
  assert (Hagain : forall d w1,
            dependencies.get_chat_manager env environ
              (mkSingletons (Some d) None None) w1 =
            (Raise (ValueError "DEEPSEEK_API_KEY is required"),
             mkSingletons (Some d) None None, w1)).
  { intros d w1.
    unfold dependencies.get_chat_manager, dependencies.get_db,
      dependencies.get_deepseek_client, dependencies.get_settings. cbn.
    destruct Hk as [-> | ->]; reflexivity. }
  assert (Hfirst : exists e d w',
            dependencies.get_chat_manager env environ g w =
            (Raise e, mkSingletons (Some d) None None, w') /\ db w' = db w).
  { unfold dependencies.get_chat_manager. rewrite Hm.
    unfold dependencies.get_db, dependencies.get_deepseek_client,
      dependencies.get_settings.
    destruct g as [[d|] ds cm]; cbn in Hm, Hd; subst; cbn.
    - destruct Hk as [Hk|Hk]; rewrite Hk; cbn; eauto.
    - pose proof (init_db_run env w) as Hinit.
      destruct (Database.init_db env w) as [[[]|e] w1];
        destruct Hinit as (Hdb & _).
      + destruct Hk as [Hk|Hk]; rewrite Hk; cbn; eauto.
      + eauto. }
  destruct Hfirst as (e & d & w' & H & Hdb).
  exists e, (mkSingletons (Some d) None None), w'.
  split; [exact H|]. cbn. repeat split; trivial; [discriminate|].
  apply Hagain.
Qed.

Lemma get_chat_manager_requires_key_witness :
  key_missing environ_without_key /\
  exists g' w',
    dependencies.get_chat_manager (env_ok "Hi!") environ_without_key
      no_singletons w0 =
    (Raise (ValueError "DEEPSEEK_API_KEY is required"), g', w') /\
    _db_instance g' = Some (mkDatabase "/data/chat.db").
Proof.
  assert (Hk : key_missing environ_without_key) by (left; reflexivity).
  split; [exact Hk|].
  destruct (get_chat_manager_requires_key (env_ok "Hi!") environ_without_key
              no_singletons w0 Hk eq_refl eq_refl)
    as (e & g' & w' & H & _).
  exists g', w'. vm_compute in H. injection H as <- <- <-.
  vm_compute. split; reflexivity.
Defined.

(** X19. The manager is a singleton: once [get_chat_manager] has returned a
    manager, every further call returns that same manager and touches
    neither the singletons nor the world. A manager built from no
    singletons holds a client around the blocking [OpenAI] class, with the
    API key of the environment and the model "deepseek-chat". *)
Theorem get_chat_manager_singleton :
  forall env environ g w m g1 w1,
    dependencies.get_chat_manager env environ g w = (Ok m, g1, w1) ->
    _chat_manager_instance g1 = Some m /\
    (forall w2,
       dependencies.get_chat_manager env environ g1 w2 = (Ok m, g1, w2)) /\
    db w1 = db w /\
    (_chat_manager_instance g = None ->
     _deepseek_instance g = None ->
     exists key,
       DEEPSEEK_API_KEY environ = Some key /\ key <> "" /\
       m = ChatManager.mk
             (DeepSeekClient.mk
                (OpenAI key (deepseek_api_url
                               (dependencies.get_settings environ)))
                "deepseek-chat")).
Proof.
  intros env environ g w m g1 w1 H.
  assert (Hreg : _chat_manager_instance g1 = Some m /\ db w1 = db w /\
            (_chat_manager_instance g = None ->
             _deepseek_instance g = None ->
             exists key,
               DEEPSEEK_API_KEY environ = Some key /\ key <> "" /\
               m = ChatManager.mk
                     (DeepSeekClient.mk
                        (OpenAI key (deepseek_api_url
                                       (dependencies.get_settings environ)))
                        "deepseek-chat"))).
  { unfold dependencies.get_chat_manager in H.
    destruct (_chat_manager_instance g) as [m0|] eqn:Hm.
    - injection H as <- <- <-. repeat split; trivial. discriminate.
    - assert (Hdbs : forall r g2 w2,
                dependencies.get_db env environ g w = (r, g2, w2) ->
                db w2 = db w /\ _deepseek_instance g2 = _deepseek_instance g).
      { unfold dependencies.get_db. intros r g2 w2.
        destruct (_db_instance g); [intros [= <- <- <-]; auto|].
        pose proof (init_db_run env w) as Hinit.
        destruct (Database.init_db env w) as [[[]|e] w3];
          destruct Hinit as (Hdb & _); intros [= <- <- <-]; auto. }
      destruct (dependencies.get_db env environ g w) as [[[d|e] g2] w2];
        [|discriminate].
      destruct (Hdbs _ _ _ eq_refl) as [Hdb Hds].
      unfold dependencies.get_deepseek_client in H.
      destruct (_deepseek_instance g2) as [c|] eqn:Hc.
      + injection H as <- <- <-. cbn. repeat split; trivial.
        intros _ Hnone. congruence.
      + unfold dependencies.get_settings in H at 1. cbn [deepseek_api_key] in H.
        destruct (DEEPSEEK_API_KEY environ) as [key|]; [|discriminate].
        destruct (String.eqb_spec key ""); [discriminate|].
        injection H as <- <- <-. cbn. repeat split; trivial.
        intros _ _. exists key. auto. }
  destruct Hreg as (Hm & Hdb & Hnew). repeat split; trivial.
  intros w2. unfold dependencies.get_chat_manager. now rewrite Hm.
Qed.

Lemma get_chat_manager_singleton_witness :
  exists m g1 w1,
    dependencies.get_chat_manager (env_ok "Hi!") environ_with_key
      no_singletons w0 = (Ok m, g1, w1) /\
    dependencies.get_chat_manager (env_ok "Hi!") environ_with_key g1 w1 =
      (Ok m, g1, w1) /\
    m = ChatManager.mk
          (DeepSeekClient.mk (OpenAI "sk-test" "https://api.deepseek.com/v1")
             "deepseek-chat").
Proof.
  eexists. eexists. eexists.
  assert (H : dependencies.get_chat_manager (env_ok "Hi!") environ_with_key
                no_singletons w0 =
              (Ok (ChatManager.mk
                     (DeepSeekClient.mk
                        (OpenAI "sk-test" "https://api.deepseek.com/v1")
                        "deepseek-chat")),
               mkSingletons (Some (mkDatabase "./chat.db"))
                 (Some (DeepSeekClient.mk
                          (OpenAI "sk-test" "https://api.deepseek.com/v1")
                          "deepseek-chat"))
                 (Some (ChatManager.mk
                          (DeepSeekClient.mk
                             (OpenAI "sk-test" "https://api.deepseek.com/v1")
                             "deepseek-chat"))),
               mkWorld empty_db empty_db 0 7 0 []))
    by (vm_compute; reflexivity).
  split; [exact H|]. split; [|reflexivity].
  exact (proj1 (proj2 (get_chat_manager_singleton _ _ _ _ _ _ _ H)) _).
Defined.

(** X20. [get_db] registers the [Database] before it awaits [init_db]: when
    the first [get_db] raises because the storage failed, the singleton is
    registered all the same, and the next [get_db] returns it without running
    [init_db] and without touching the storage. *)
Theorem get_db_registers_before_init :
  forall env environ g w e g1 w1,
    _db_instance g = None ->
    dependencies.get_db env environ g w = (Raise e, g1, w1) ->
    exists d,
      _db_instance g1 = Some d /\
      db_path d = database_path (dependencies.get_settings environ) /\
      forall w2, dependencies.get_db env environ g1 w2 = (Ok d, g1, w2).
Proof.
  intros env environ g w e g1 w1 Hnone H.
  unfold dependencies.get_db in H. rewrite Hnone in H.
  destruct (Database.init_db env w) as [[[]|e0] w2]; [discriminate|].
  injection H as <- <- <-. eexists. split; [reflexivity|].
  split; [reflexivity|]. intros w3. reflexivity.
Qed.

Lemma get_db_registers_before_init_witness :
  exists e g1 w1,
    dependencies.get_db env_storage_down environ_with_key no_singletons w0 =
    (Raise e, g1, w1) /\
    dependencies.get_db env_storage_down environ_with_key g1 w1 =
    (Ok (mkDatabase "./chat.db"), g1, w1).
Proof.
  eexists. eexists. eexists.
  assert (H : dependencies.get_db env_storage_down environ_with_key
                no_singletons w0 =
              (Raise (OperationalError "unable to open database file"),
               mkSingletons (Some (mkDatabase "./chat.db")) None None,
               mkWorld empty_db empty_db 0 1 0 []))
    by (vm_compute; reflexivity).
  split; [exact H|].
  destruct (get_db_registers_before_init env_storage_down environ_with_key
              no_singletons w0 _ _ _ eq_refl H)
    as (d & Hd & _ & Hnext).
  injection Hd as <-. apply Hnext.
Defined.

Lemma get_db_fresh_run env environ w :
  exists r w1,
    dependencies.get_db env environ no_singletons w =
    (r, mkSingletons
          (Some (mkDatabase (database_path (dependencies.get_settings environ))))
          None None, w1) /\
    db w1 = db w /\ reqs w1 = reqs w.
Proof.
  unfold dependencies.get_db. cbn.
  pose proof (init_db_run env w) as H.
  destruct (Database.init_db env w) as [[[]|e] w1];
    destruct H as (Hdb & Hreq & _); eauto.
Qed.

(** X21. The startup of the application never raises and leaves the content
    of the database as it was. Afterwards the [Database] singleton is
    registered. Without an API key no client is registered and no request
    is sent; with one, the client is registered and exactly one probe is
    sent. No manager is built at startup. *)
Theorem lifespan_startup_never_raises :
  forall env environ w,
    exists g' w',
      dependencies.lifespan_startup env environ no_singletons w =
      (Ok tt, g', w') /\
      db w' = db w /\
      _db_instance g' <> None /\
      _chat_manager_instance g' = None /\
      (key_missing environ ->
       _deepseek_instance g' = None /\ reqs w' = reqs w) /\
      (forall key, DEEPSEEK_API_KEY environ = Some key -> key <> "" ->
       _deepseek_instance g' =
         Some (DeepSeekClient.init key
                 (deepseek_api_url (dependencies.get_settings environ))) /\
       reqs w' = S (reqs w)).
Proof.
  intros env environ w.
  unfold dependencies.lifespan_startup.
  destruct (get_db_fresh_run env environ w) as (r & w1 & -> & Hdb1 & Hreq1).
  set (g1 := mkSingletons _ None None).
  assert (Hafter : exists wa,
            (let '(g2, w2) :=
               match r with
               | Raise _ => (g1, w1)
               | Ok _ => (g1, snd (Database.init_db env w1))
               end in (g2, w2)) = (g1, wa) /\
            db wa = db w /\ reqs wa = reqs w).
  { destruct r as [d|e].
    - pose proof (init_db_run env w1) as H.
      destruct (Database.init_db env w1) as [r2 w2].
      destruct H as (Hdb2 & Hreq2 & _). cbn [snd].
      exists w2. repeat split; congruence.
    - exists w1. auto. }
  destruct Hafter as (wa & Hstep & Hdb & Hreq).
  destruct r as [d|e]; cbn in Hstep; injection Hstep as Hw; try rewrite Hw;
    unfold dependencies.get_deepseek_client, dependencies.get_settings; cbn;
    (destruct (DEEPSEEK_API_KEY environ) as [key|] eqn:Hkey;
     [destruct (String.eqb_spec key "") as [->|Hne];
      [|rewrite client_health_check_run; cbn [snd]]|]);
    do 2 eexists; (split; [reflexivity|]); cbn;
    (split; [congruence|]); (split; [discriminate|]);
    (split; [reflexivity|]); split.
  all: try (intros [Hc|Hc]; try discriminate;
            first [ split; congruence
                  | injection Hc as Hc; contradiction ]).
  all: try (intros k Hk Hk'; try discriminate; injection Hk as <-;
            first [ contradiction | split; [reflexivity | congruence] ]).
Qed.

Lemma lifespan_startup_never_raises_witness :
  exists g' w',
    dependencies.lifespan_startup (env_ok "Hi!") environ_with_key
      no_singletons w0 = (Ok tt, g', w') /\
    reqs w' = 1%nat.
Proof.
  destruct (lifespan_startup_never_raises (env_ok "Hi!") environ_with_key w0)
    as (g' & w' & H & _ & _ & _ & _ & Hkey).
  exists g', w'. split; [exact H|].
  destruct (Hkey "sk-test" eq_refl) as [_ Hr]; [discriminate|]. exact Hr.
Defined.

(** ** The routes with their dependency *)

Lemma key_given_false environ :
  key_given environ = false <-> key_missing environ.
Proof.
  unfold key_given, key_missing.
  destruct (DEEPSEEK_API_KEY environ) as [key|]; [|intuition].
  destruct (String.eqb_spec key "") as [->|Hne]; cbn.
  - intuition.
  - split; [discriminate|]. intros [H|H]; [discriminate|].
    injection H as H. contradiction.
Qed.

(** The startup leaves the singletons as [serving] describes them, whatever
    the storage and the upstream do. *)
Lemma started_serving env environ w :
  serving environ (fst (started env environ w)) = true.
Proof.
  unfold started, dependencies.lifespan_startup.
  destruct (get_db_fresh_run env environ w) as (r & w1 & -> & _ & _).
  unfold serving, key_given, dependencies.get_deepseek_client,
    dependencies.get_settings.
  destruct r as [d|e]; cbn;
    (destruct (DEEPSEEK_API_KEY environ) as [key|];
     [destruct (String.eqb key "")|]); reflexivity.
Qed.

(** While the application serves requests, [get_chat_manager] raises exactly
    when there is no API key, and then without touching the singletons or
    the world; with a key it returns a manager around a blocking client,
    without touching the world. *)
Lemma get_chat_manager_serving env environ g w :
  serving environ g = true ->
  if key_given environ then
    exists m g',
      dependencies.get_chat_manager env environ g w = (Ok m, g', w) /\
      serving environ g' = true /\
      blocking (ChatManager.deepseek m) = true
  else
    dependencies.get_chat_manager env environ g w =
    (Raise (ValueError "DEEPSEEK_API_KEY is required"), g, w).
Proof.
  unfold serving, key_given, dependencies.get_chat_manager,
    dependencies.get_db, dependencies.get_deepseek_client,
    dependencies.get_settings.
  destruct g as [[d|] c m]; cbn; [|discriminate].
  destruct (DEEPSEEK_API_KEY environ) as [key|];
    [destruct (String.eqb key "")|]; cbn.
  - destruct c; [discriminate|]. destruct m; [discriminate|]. reflexivity.
  - destruct c as [c|]; [|discriminate]. intros H.
    apply andb_prop in H. destruct H as [Hc Hm].
    destruct m as [m|].
    + exists m. eexists. split; [reflexivity|]. cbn. rewrite Hc, Hm. auto.
    + eexists. eexists. split; [reflexivity|]. cbn. rewrite Hc. auto.
  - destruct c; [discriminate|]. destruct m; [discriminate|]. reflexivity.
Qed.

Lemma Depends_serving {B} env environ (handler : ChatManager.t -> M B) g w :
  serving environ g = true ->
  if key_given environ then
    exists m g',
      blocking (ChatManager.deepseek m) = true /\
      serving environ g' = true /\
      Depends (dependencies.get_chat_manager env environ) handler g w =
      (fst (handler m w), g', snd (handler m w))
  else
    Depends (dependencies.get_chat_manager env environ) handler g w =
    (Raise (ValueError "DEEPSEEK_API_KEY is required"), g, w).
Proof.
  intros Hs. pose proof (get_chat_manager_serving env environ g w Hs) as H.
  unfold Depends. destruct (key_given environ).
  - destruct H as (m & g' & -> & Hs' & Hb). exists m, g'.
    repeat split; trivial. now destruct (handler m w).
  - now rewrite H.
Qed.

(** X10. [GET /api/history/{chat_id}] with its dependency, while the
    application serves requests. It never changes the database. Without an
    API key the request ends in the [ValueError] of [get_deepseek_client]
    before the handler runs, whatever is stored and without a storage
    operation. With a key it never raises: it answers the conversation
    stored under the id, with its messages in ascending order of timestamp,
    or 404 "Chat not found"; it answers 404 when no conversation has the id,
    when the storage fails at any of the three operations of [get_chat], and
    when a stored row of the conversation is one [Message] refuses; in every
    other case it answers the conversation. *)
Theorem get_history_answers :
  forall env environ cid g w,
    serving environ g = true ->
    exists r g' w',
      router.get_history env environ cid g w = (r, g', w') /\
      serving environ g' = true /\
      db w' = db w /\
      (key_given environ = false ->
       r = Raise (ValueError "DEEPSEEK_API_KEY is required") /\
       g' = g /\ w' = w) /\
      (key_given environ = true ->
       exists reply,
         r = Ok reply /\
         (reply = not_found \/
          exists chat row,
            reply = endpoints.ChatHistoryResponse chat true /\
            find (fun c => c_id c =? cid) (chats (db w)) = Some row /\
            chat_ident chat = Some cid /\ title chat = c_title row /\
            messages chat =
              map message_of
                (order_by (asc m_timestamp) (rows_of_chat cid (db w)))) /\
         (chat_exists (db w) cid = false -> reply = not_found) /\
         (storage_fails env w 3 -> reply = not_found) /\
         (~ Forall row_valid (rows_of_chat cid (db w)) -> reply = not_found) /\
         (chat_exists (db w) cid = true ->
          storage_up env w 3 ->
          Forall row_valid (rows_of_chat cid (db w)) ->
          exists chat, reply = endpoints.ChatHistoryResponse chat true)).
Proof.
  intros env environ cid g w Hs.
  pose proof (Depends_serving env environ
                (fun m => endpoints.get_history env m cid) g w Hs) as HD.
  unfold router.get_history. destruct (key_given environ).
  - destruct HD as (m & g' & _ & Hs' & ->).
    destruct (get_history_handler env m cid w)
      as (reply & w' & -> & Hdb & H).
    exists (Ok reply), g', w'. cbn [fst snd].
    split; [reflexivity|]. split; [exact Hs'|]. split; [assumption|].
    split; [discriminate|].
    intros _. exists reply. split; [reflexivity | exact H].
  - rewrite HD. exists (Raise (ValueError "DEEPSEEK_API_KEY is required")), g, w.
    split; [reflexivity|]. split; [exact Hs|]. split; [reflexivity|].
    split; [auto | discriminate].
Qed.

Lemma get_history_answers_witness :
  let g := fst (started (env_ok "Hi!") environ_without_key w_two_chats) in
  let w := snd (started (env_ok "Hi!") environ_without_key w_two_chats) in
  serving environ_without_key g = true /\
  chat_exists (db w) 1 = true /\
  router.get_history (env_ok "Hi!") environ_without_key 1 g w =
  (Raise (ValueError "DEEPSEEK_API_KEY is required"), g, w).
Proof.
  intros g w.
  assert (Hs : serving environ_without_key g = true) by reflexivity.
  split; [exact Hs|]. split; [reflexivity|].
  destruct (get_history_answers (env_ok "Hi!") environ_without_key 1 g w Hs)
    as (r & g' & w' & Heq & _ & _ & Hno & _).
  destruct (Hno eq_refl) as (Hr & Hg & Hw).
  rewrite Heq, Hr, Hg, Hw. reflexivity.
Defined.

(** X11. [DELETE /api/chat/{chat_id}] with its dependency, while the
    application serves requests. It never touches the stored messages.
    Without an API key the request ends in the [ValueError] of
    [get_deepseek_client] and nothing is deleted. With a key it never
    raises: it answers the success dict, and then the conversation existed,
    the storage answered and the conversation is gone; or 404 "Chat not
    found", and then the database is exactly as it was, because nothing was
    stored under the id or because the storage failed at one of the three
    operations of [delete_chat]; a stored conversation is deleted whenever
    the storage answers. *)
Theorem delete_endpoint_answers :
  forall env environ cid g w,
    serving environ g = true ->
    exists r g' w',
      router.delete_chat env environ cid g w = (r, g', w') /\
      serving environ g' = true /\
      msgs (db w') = msgs (db w) /\
      (key_given environ = false ->
       r = Raise (ValueError "DEEPSEEK_API_KEY is required") /\
       g' = g /\ w' = w) /\
      (key_given environ = true ->
       exists reply,
         r = Ok reply /\
         ((reply = endpoints.Deleted true cid /\
           chat_exists (db w) cid = true /\
           chat_exists (db w') cid = false /\
           storage_up env w 3) \/
          (reply = not_found /\
           db w' = db w /\
           (chat_exists (db w) cid = false \/ storage_fails env w 3))) /\
         (chat_exists (db w) cid = true -> storage_up env w 3 ->
          reply = endpoints.Deleted true cid)).
Proof.
  intros env environ cid g w Hs.
  pose proof (Depends_serving env environ
                (fun m => endpoints.delete_chat env m cid) g w Hs) as HD.
  unfold router.delete_chat. destruct (key_given environ).
  - destruct HD as (m & g' & _ & Hs' & ->).
    destruct (delete_chat_handler env m cid w)
      as (reply & w' & -> & Hmsgs & H).
    exists (Ok reply), g', w'. cbn [fst snd].
    split; [reflexivity|]. split; [exact Hs'|]. split; [assumption|].
    split; [discriminate|].
    intros _. exists reply. split; [reflexivity | exact H].
  - rewrite HD. exists (Raise (ValueError "DEEPSEEK_API_KEY is required")), g, w.
    split; [reflexivity|]. split; [exact Hs|]. split; [reflexivity|].
    split; [auto | discriminate].
Qed.

Lemma delete_endpoint_answers_witness :
  let g := fst (started (env_ok "Hi!") environ_with_key w_two_chats) in
  let w := snd (started (env_ok "Hi!") environ_with_key w_two_chats) in
  serving environ_with_key g = true /\
  exists g' w',
    router.delete_chat (env_ok "Hi!") environ_with_key 1 g w =
    (Ok (endpoints.Deleted true 1), g', w') /\
    chat_exists (db w') 1 = false /\
    msgs (db w') = msgs db_two_chats.
Proof.
  intros g w.
  assert (Hs : serving environ_with_key g = true) by reflexivity.
  split; [exact Hs|].
  destruct (delete_endpoint_answers (env_ok "Hi!") environ_with_key 1 g w Hs)
    as (r & g' & w' & Heq & _ & Hmsgs & _ & Hkey).
  destruct (Hkey eq_refl) as (reply & Hr & Hcases & Hdel).
  assert (Hreply : reply = endpoints.Deleted true 1).
  { apply Hdel; [reflexivity | intros k Hk; reflexivity]. }
  exists g', w'. rewrite Heq, Hr, Hreply. split; [reflexivity|].
  split; [|rewrite Hmsgs; reflexivity].
  destruct Hcases as [(_ & _ & Hgone & _)|(Hnf & _)]; [exact Hgone|].
  rewrite Hreply in Hnf. discriminate Hnf.
Defined.

(** X12. [GET /api/chats] with its dependency, while the application serves
    requests. It never changes the database. Without an API key the request
    ends in the [ValueError] of [get_deepseek_client]. With a key it never
    raises and always answers [success=True], with [total] the number of
    summaries in the answer itself, at most [limit] for [limit >= 0] and not
    the number of stored conversations; the answer is the page of the query
    when the storage answers the two operations of [get_chats_list], and the
    empty list with [total = 0] when it fails at either. *)
Theorem list_endpoint_answers :
  forall env environ limit offset user_id g w,
    serving environ g = true ->
    exists r g' w',
      router.list_chats env environ limit offset user_id g w = (r, g', w') /\
      serving environ g' = true /\
      db w' = db w /\
      (key_given environ = false ->
       r = Raise (ValueError "DEEPSEEK_API_KEY is required") /\
       g' = g /\ w' = w) /\
      (key_given environ = true ->
       exists page,
         r = Ok (endpoints.ChatListResponse page
                   (Z.of_nat (List.length page)) true) /\
         (0 <= limit -> Z.of_nat (List.length page) <= limit) /\
         (storage_fails env w 2 -> page = []) /\
         (storage_up env w 2 ->
          page = chats_page
                   match user_id with
                   | Some u => if String.eqb u "" then None else Some u
                   | None => None
                   end limit offset (db w))).
Proof.
  intros env environ limit offset user_id g w Hs.
  pose proof (Depends_serving env environ
                (fun m => endpoints.list_chats env m limit offset user_id)
                g w Hs) as HD.
  unfold router.list_chats. destruct (key_given environ).
  - destruct HD as (m & g' & _ & Hs' & ->).
    destruct (list_chats_handler env m limit offset user_id w)
      as (page & w' & -> & Hdb & H).
    eexists. exists g', w'. cbn [fst snd]. split; [reflexivity|].
    split; [exact Hs'|]. split; [assumption|]. split; [discriminate|].
    intros _. exists page. split; [reflexivity | exact H].
  - rewrite HD. exists (Raise (ValueError "DEEPSEEK_API_KEY is required")), g, w.
    split; [reflexivity|]. split; [exact Hs|]. split; [reflexivity|].
    split; [auto | discriminate].
Qed.

Lemma list_endpoint_answers_witness :
  let g := fst (started env_storage_down environ_with_key w_two_chats) in
  let w := snd (started env_storage_down environ_with_key w_two_chats) in
  serving environ_with_key g = true /\
  List.length (chats (db w)) = 2%nat /\
  exists g' w',
    router.list_chats env_storage_down environ_with_key 50 0 None g w =
    (Ok (endpoints.ChatListResponse [] 0 true), g', w').
Proof.
  intros g w.
  assert (Hs : serving environ_with_key g = true) by reflexivity.
  split; [exact Hs|]. split; [reflexivity|].
  destruct (list_endpoint_answers env_storage_down environ_with_key 50 0 None
              g w Hs) as (r & g' & w' & Heq & _ & _ & _ & Hkey).
  destruct (Hkey eq_refl) as (page & Hr & _ & Hdown & _).
  exists g', w'. rewrite Heq, Hr, Hdown; [reflexivity|].
  exists 0%nat. eexists. split; [lia | reflexivity].
Defined.

(** X13. [GET /api/health] with its dependency, while the application serves
    requests, never reports the API as reachable. Without an API key the
    request ends in the [ValueError] of [get_deepseek_client]: there is no
    report. With a key the manager holds the client dependencies.py builds,
    which is one around the blocking class, so the request sends one probe
    and answers [status = "ok"] with [deepseek_api = "error"] whatever the
    upstream did with the probe; [database] is "ok" when the storage
    answers the seven operations of [init_db] and "error" when it fails at
    one of them. The database is never changed. *)
Theorem health_endpoint_answers :
  forall env environ g w,
    serving environ g = true ->
    exists r g' w',
      router.health_check env environ g w = (r, g', w') /\
      serving environ g' = true /\
      db w' = db w /\
      (key_given environ = false ->
       r = Raise (ValueError "DEEPSEEK_API_KEY is required") /\
       g' = g /\ w' = w) /\
      (key_given environ = true ->
       exists store,
         r = Ok (endpoints.HealthResponse "ok" "1.0.0" (now_at env (reads w))
                   "error" store) /\
         reqs w' = S (reqs w) /\
         (storage_up env w 7 -> store = "ok") /\
         (storage_fails env w 7 -> store = "error")).
Proof.
  intros env environ g w Hs.
  pose proof (Depends_serving env environ
                (fun m => endpoints.health_check env m) g w Hs) as HD.
  unfold router.health_check. destruct (key_given environ).
  - destruct HD as (m & g' & Hb & Hs' & ->).
    destruct (health_check_handler env m w Hb)
      as (store & w' & -> & Hdb & H).
    eexists. exists g', w'. cbn [fst snd]. split; [reflexivity|].
    split; [exact Hs'|]. split; [assumption|]. split; [discriminate|].
    intros _. exists store. split; [reflexivity | exact H].
  - rewrite HD. exists (Raise (ValueError "DEEPSEEK_API_KEY is required")), g, w.
    split; [reflexivity|]. split; [exact Hs|]. split; [reflexivity|].
    split; [auto | discriminate].
Qed.

Lemma health_endpoint_answers_witness :
  let g := fst (started (env_ok "Hi!") environ_with_key w0) in
  let w := snd (started (env_ok "Hi!") environ_with_key w0) in
  serving environ_with_key g = true /\
  upstream (env_ok "Hi!") (reqs w) health_request =
    Responds (mkCompletion [Some "Hi!"]) /\
  exists ts g' w',
    router.health_check (env_ok "Hi!") environ_with_key g w =
    (Ok (endpoints.HealthResponse "ok" "1.0.0" ts "error" "ok"), g', w').
Proof.
  intros g w.
  assert (Hs : serving environ_with_key g = true) by reflexivity.
  split; [exact Hs|]. split; [reflexivity|].
  destruct (health_endpoint_answers (env_ok "Hi!") environ_with_key g w Hs)
    as (r & g' & w' & Heq & _ & _ & _ & Hkey).
  destruct (Hkey eq_refl) as (store & Hr & _ & Hup & _).
  exists (now_at (env_ok "Hi!") (reads w)), g', w'.
  rewrite Heq, Hr, Hup; [reflexivity|]. intros k Hk. reflexivity.
Defined.
